(** * Level-of-detail optimisation system: cache, monitor and LOD manager

    A shallow embedding of [ModelCache.js], [PerformanceMonitor.js] and the
    [LODManager] class, with the properties their specification states.

    Conventions.
    - JavaScript runs the three classes on one thread.  A method is a state
      transformer that also produces the list of the actions it performs on
      its surroundings (subscriber notifications, loader invocations,
      console warnings), in program order.
    - Subscriber callbacks are observers: they receive the notification and
      do not call back into the object that notifies them.
    - [Date.now()] and the measured load time are arguments of the
      operations that read them.
    - Sizes, counters and timestamps are integers ([Z]); distances and
      metrics are JavaScript numbers, see [JsNum]. *)

From Stdlib Require Import ZArith QArith List String Lia Bool Sorted.
From stdpp Require Import base option list gmap strings.
Import ListNotations.

Local Open Scope string_scope.
Local Open Scope list_scope.
Local Open Scope Z_scope.

(** ** A state monad with an action trace and non-termination

    [None] stands for a call that never returns (a loop that spins). *)
Module Eff.

Definition M (S E A : Type) : Type := S -> option (A * S * list E).

Definition ret {S E A} (a : A) : M S E A := fun s => Some (a, s, []).

Definition bind {S E A B} (m : M S E A) (f : A -> M S E B) : M S E B :=
  fun s =>
    match m s with
    | None => None
    | Some (a, s1, t1) =>
        match f a s1 with
        | None => None
        | Some (b, s2, t2) => Some (b, s2, t1 ++ t2)
        end
    end.

(** Read the state: [k] is run on the state it starts in. *)
Definition withState {S E A} (k : S -> M S E A) : M S E A := fun s => k s s.
Definition modify {S E} (f : S -> S) : M S E unit := fun s => Some (tt, f s, []).
Definition emit {S E} (e : E) : M S E unit := fun s => Some (tt, s, [e]).
Definition spin {S E A} : M S E A := fun _ => None.

(** Run a computation of a component on the component's field of a larger
    state, translating its actions. *)
Definition zoom {S T E F A} (proj : T -> S) (inj : S -> T -> T) (tr : E -> F)
    (m : M S E A) : M T F A :=
  fun t =>
    match m (proj t) with
    | None => None
    | Some (a, s', evs) => Some (a, inj s' t, map tr evs)
    end.

Fixpoint forEach {S E A} (f : A -> M S E unit) (l : list A) : M S E unit :=
  match l with
  | [] => ret tt
  | x :: l' => bind (f x) (fun _ => forEach f l')
  end.

End Eff.

Notation "x <- m ;; k" := (Eff.bind m (fun x => k))
  (at level 100, m at next level, right associativity).
Notation "m ;;; k" := (Eff.bind m (fun _ => k))
  (at level 100, right associativity).
Notation "'read' x ;; k" := (Eff.withState (fun x => k))
  (at level 100, x name, right associativity).

(** ** JavaScript numbers

    A double is a rational, an infinity or NaN; every comparison with NaN
    is false. *)
Module JsNum.

Inductive num :=
| Fin (q : Q)
| PosInf
| NegInf
| NaN.

Definition leb (a b : num) : bool :=
  match a, b with
  | NaN, _ | _, NaN => false
  | NegInf, _ => true
  | _, PosInf => true
  | Fin x, Fin y => Qle_bool x y
  | _, _ => false
  end.

Definition ltb (a b : num) : bool :=
  match a, b with
  | NaN, _ | _, NaN => false
  | NegInf, NegInf => false
  | NegInf, _ => true
  | PosInf, _ => false
  | Fin _, PosInf => true
  | Fin _, NegInf => false
  | Fin x, Fin y => negb (Qle_bool y x)
  end.

Definition ofZ (z : Z) : num := Fin (inject_Z z).

End JsNum.

(** ** JavaScript containers

    A [Map] iterates in insertion order; [set] on a present key replaces the
    value where it stands, on a fresh key it appends. *)
Module JsMap.
Section JsMap.
Context {V : Type}.

Fixpoint get (k : string) (m : list (string * V)) : option V :=
  match m with
  | [] => None
  | (k', v) :: m' => if String.eqb k k' then Some v else get k m'
  end.

Definition has (k : string) (m : list (string * V)) : bool :=
  match get k m with Some _ => true | None => false end.

Fixpoint set (k : string) (v : V) (m : list (string * V)) : list (string * V) :=
  match m with
  | [] => [(k, v)]
  | (k', v') :: m' =>
      if String.eqb k k' then (k', v) :: m' else (k', v') :: set k v m'
  end.

Fixpoint delete (k : string) (m : list (string * V)) : list (string * V) :=
  match m with
  | [] => []
  | (k', v') :: m' =>
      if String.eqb k k' then m' else (k', v') :: delete k m'
  end.

(** [entry = m.get(k); if (entry) entry.field = ...], on the stored object *)
Fixpoint update (f : V -> V) (k : string) (m : list (string * V)) : list (string * V) :=
  match m with
  | [] => []
  | (k', v') :: m' =>
      if String.eqb k k' then (k', f v') :: m' else (k', v') :: update f k m'
  end.

(** [ks.forEach(k => m.delete(k))] *)
Definition deleteKeys (ks : list string) (m : list (string * V)) : list (string * V) :=
  fold_left (fun es k => delete k es) ks m.

Definition keys (m : list (string * V)) : list string := map fst m.
Definition size (m : list (string * V)) : Z := Z.of_nat (length m).
End JsMap.
End JsMap.

Module JsArray.
(** [i = a.indexOf(k); if (i > -1) a.splice(i, 1)] *)
Fixpoint removeFirst (k : string) (a : list string) : list string :=
  match a with
  | [] => []
  | k' :: a' => if String.eqb k k' then a' else k' :: removeFirst k a'
  end.

Definition push (a : list string) (k : string) : list string := a ++ [k].
End JsArray.

(** ** ModelCache.js *)
Module ModelCache.

(** The part of a Three.js scene graph that [estimateModelSize] reads. *)
Record Geometry := mkGeometry {
  position_count : option N;
  normal_count : option N;
  uv_count : option N;
  index_count : option N
}.

(** A texture; [None] is a missing [image] or a missing dimension. *)
Record Texture := mkTexture {
  image_width : option N;
  image_height : option N
}.

(** A material, as the textures among its property values. *)
Definition Material := list Texture.

#[warnings="-register-all"]
Inductive Object3D :=
| Obj (geometry : option Geometry) (material : list Material) (children : list Object3D).

(** A loaded model: a scene, or a value on which [traverse] throws. *)
Inductive Model :=
| Scene (uuid : string) (root : Object3D)
| Untraversable (uuid : string).

Inductive JsError := Error (message : string).

Inductive Result (A : Type) :=
| Ok (a : A)
| Err (e : JsError).
Arguments Ok {A} a.
Arguments Err {A} e.

Definition countBytes (c : option N) (perItem : Z) : Z :=
  match c with
  | Some n => Z.of_N n * perItem
  | None => 0
  end.

Definition geometrySize (g : Geometry) : Z :=
  countBytes (position_count g) (3 * 4)
  + countBytes (normal_count g) (3 * 4)
  + countBytes (uv_count g) (2 * 4)
  + countBytes (index_count g) 2.

(** [value.image?.width || 512]: a missing or zero dimension reads 512 *)
Definition dimension (d : option N) : Z :=
  match d with
  | Some n => if (n =? 0)%N then 512 else Z.of_N n
  | None => 512
  end.

Definition textureSize (t : Texture) : Z :=
  dimension (image_width t) * dimension (image_height t) * 4.

Definition sumZ (l : list Z) : Z := fold_right Z.add 0 l.

Definition materialsSize (ms : list Material) : Z :=
  sumZ (map (fun m => sumZ (map textureSize m)) ms).

(** [model.traverse(child => ...)]: the node, then every descendant *)
Fixpoint traverseSize (o : Object3D) : Z :=
  match o with
  | Obj g ms cs =>
      (match g with Some g' => geometrySize g' | None => 0 end)
      + materialsSize ms
      + (fix children (l : list Object3D) : Z :=
           match l with
           | [] => 0
           | c :: l' => traverseSize c + children l'
           end) cs
  end.

(** [Math.round(totalSize * 1.2)] on a non-negative integer total: the
    product has fractional part 0, .2, .4, .6 or .8, so rounding to nearest
    is [(12 * total + 5) / 10] (the double product is that close to the
    exact one for every total a model can have). *)
Definition withOverhead (total : Z) : Z := (12 * total + 5) / 10.

Definition estimateModelSize (m : Model) : Z :=
  match m with
  | Scene _ root => withOverhead (traverseSize root)
  | Untraversable _ => 5 * 1024 * 1024
  end.

Record Config := mkConfig {
  maxSize : Z;
  maxEntries : Z;
  memoryThreshold : Q;
  cleanupInterval : Z
}.

Definition defaultConfig : Config :=
  {| maxSize := 100 * 1024 * 1024;
     maxEntries := 50;
     memoryThreshold := 8 # 10;
     cleanupInterval := 30000 |}.

(** The [options] / [metadata] argument of [get] and [set]. *)
Record Metadata := mkMetadata {
  md_quality : option string;
  md_loadTime : option Z
}.

Definition noMetadata : Metadata := {| md_quality := None; md_loadTime := None |}.

Record CacheEntry := mkEntry {
  model : Model;
  size : Z;
  lastAccess : Z;
  accessCount : Z;
  quality : string;
  loadTime : Z;
  metadata : Metadata
}.

(** The maps [cache] and [usage] hold the same entry objects under the same
    keys and every method updates them together: [entries] is both. *)
Record Cache := mkCache {
  config : Config;
  entries : list (string * CacheEntry);
  accessOrder : list string;
  currentSize : Z;
  totalRequests : Z;
  cacheHits : Z;
  cacheMisses : Z
}.

Definition create (cfg : Config) : Cache :=
  {| config := cfg; entries := []; accessOrder := []; currentSize := 0;
     totalRequests := 0; cacheHits := 0; cacheMisses := 0 |}.

Inductive Reason := lru | manual.

Inductive Action :=
| CallLoader (key : string)
| NotifyEviction (key : string) (entry : CacheEntry) (reason : Reason)
| NotifyLoad (key : string) (m : Model) (loadTime : Z)
| NotifyError (key : string) (e : JsError)
| WarnTooLarge (key : string) (size : Z)
| WarnReset.

Definition M (A : Type) : Type := Eff.M Cache Action A.

Definition with_entries (es : list (string * CacheEntry)) (c : Cache) : Cache :=
  {| config := config c; entries := es; accessOrder := accessOrder c;
     currentSize := currentSize c; totalRequests := totalRequests c;
     cacheHits := cacheHits c; cacheMisses := cacheMisses c |}.

Definition with_accessOrder (o : list string) (c : Cache) : Cache :=
  {| config := config c; entries := entries c; accessOrder := o;
     currentSize := currentSize c; totalRequests := totalRequests c;
     cacheHits := cacheHits c; cacheMisses := cacheMisses c |}.

Definition with_currentSize (n : Z) (c : Cache) : Cache :=
  {| config := config c; entries := entries c; accessOrder := accessOrder c;
     currentSize := n; totalRequests := totalRequests c;
     cacheHits := cacheHits c; cacheMisses := cacheMisses c |}.

Definition with_config (cfg : Config) (c : Cache) : Cache :=
  {| config := cfg; entries := entries c; accessOrder := accessOrder c;
     currentSize := currentSize c; totalRequests := totalRequests c;
     cacheHits := cacheHits c; cacheMisses := cacheMisses c |}.

Definition count_request (c : Cache) : Cache :=
  {| config := config c; entries := entries c; accessOrder := accessOrder c;
     currentSize := currentSize c; totalRequests := totalRequests c + 1;
     cacheHits := cacheHits c; cacheMisses := cacheMisses c |}.

Definition count_hit (c : Cache) : Cache :=
  {| config := config c; entries := entries c; accessOrder := accessOrder c;
     currentSize := currentSize c; totalRequests := totalRequests c;
     cacheHits := cacheHits c + 1; cacheMisses := cacheMisses c |}.

Definition count_miss (c : Cache) : Cache :=
  {| config := config c; entries := entries c; accessOrder := accessOrder c;
     currentSize := currentSize c; totalRequests := totalRequests c;
     cacheHits := cacheHits c; cacheMisses := cacheMisses c + 1 |}.

Definition has (key : string) (c : Cache) : bool := JsMap.has key (entries c).

Definition updateAccessOrder (key : string) : M unit :=
  Eff.modify (fun c =>
    with_accessOrder (JsArray.push (JsArray.removeFirst key (accessOrder c)) key) c).

Definition touch (now : Z) (e : CacheEntry) : CacheEntry :=
  {| model := model e; size := size e; lastAccess := now;
     accessCount := accessCount e + 1; quality := quality e;
     loadTime := loadTime e; metadata := metadata e |}.

Definition updateAccess (now : Z) (key : string) : M unit :=
  Eff.modify (fun c => with_entries (JsMap.update (touch now) key (entries c)) c) ;;;
  updateAccessOrder key.

Definition clear : M unit :=
  Eff.modify (fun c => with_currentSize 0 (with_accessOrder [] (with_entries [] c))).

(** Drop [key] from both maps, from the size total and from the order. *)
Definition drop (key : string) (entry : CacheEntry) (c : Cache) : Cache :=
  with_accessOrder (JsArray.removeFirst key (accessOrder c))
    (with_currentSize (currentSize c - size entry)
       (with_entries (JsMap.delete key (entries c)) c)).

Definition evictLeastUsed : M unit :=
  read c ;;
  match accessOrder c with
  | [] => Eff.ret tt
  | keyToEvict :: _ =>
      match JsMap.get keyToEvict (entries c) with
      | Some entry =>
          Eff.emit (NotifyEviction keyToEvict entry lru) ;;;
          Eff.modify (drop keyToEvict entry)
      | None => Eff.ret tt
      end
  end.

Definition needsSpace (requiredSize : Z) (c : Cache) : bool :=
  (currentSize c + requiredSize >? maxSize (config c))
  || (JsMap.size (entries c) >=? maxEntries (config c)).

(** The [while] loop of [ensureSpace]; it spins when it is out of fuel. *)
Fixpoint ensureSpace_loop (fuel : nat) (requiredSize : Z) : M unit :=
  read c ;;
  if needsSpace requiredSize c then
    match accessOrder c with
    | [] => Eff.emit WarnReset ;;; clear
    | _ :: _ =>
        match fuel with
        | O => Eff.spin
        | S fuel' => evictLeastUsed ;;; ensureSpace_loop fuel' requiredSize
        end
    end
  else Eff.ret tt.

(** An eviction that removes nothing leaves the loop condition as it was,
    and one that removes an entry shortens [accessOrder]: more iterations
    than [accessOrder] has keys means the loop never ends. *)
Definition ensureSpace (requiredSize : Z) : M unit :=
  read c ;;
  ensureSpace_loop (length (accessOrder c)) requiredSize.

(** [x || d] on a string and on a number *)
Definition orString (x : option string) (d : string) : string :=
  match x with
  | Some s => if String.eqb s EmptyString then d else s
  | None => d
  end.

Definition orZ (x : option Z) (d : Z) : Z :=
  match x with
  | Some z => if z =? 0 then d else z
  | None => d
  end.

Definition newEntry (now : Z) (m : Model) (sz : Z) (md : Metadata) : CacheEntry :=
  {| model := m; size := sz; lastAccess := now; accessCount := 1;
     quality := orString (md_quality md) "unknown";
     loadTime := orZ (md_loadTime md) 0;
     metadata := md |}.

(** [size > maxSize * 0.5], on integers *)
Definition tooLarge (sz : Z) (c : Cache) : bool := 2 * sz >? maxSize (config c).

Definition store (key : string) (e : CacheEntry) (c : Cache) : Cache :=
  with_currentSize (currentSize c + size e)
    (with_entries (JsMap.set key e (entries c)) c).

Definition set (now : Z) (key : string) (m : Model) (md : Metadata) : M unit :=
  let sz := estimateModelSize m in
  read c ;;
  if tooLarge sz c then Eff.emit (WarnTooLarge key sz)
  else
    ensureSpace sz ;;;
    Eff.modify (store key (newEntry now m sz md)) ;;;
    updateAccessOrder key.

(** [delete(key)]: the entry goes first, the subscribers hear of it after *)
Definition delete (key : string) : M bool :=
  read c ;;
  match JsMap.get key (entries c) with
  | None => Eff.ret false
  | Some entry =>
      Eff.modify (drop key entry) ;;;
      Eff.emit (NotifyEviction key entry manual) ;;;
      Eff.ret true
  end.

Definition maxAge : Z := 5 * 60 * 1000.

Definition stale (now : Z) (e : CacheEntry) : bool :=
  (now - lastAccess e >? maxAge) && (accessCount e =? 1).

(** [currentSize > maxSize * memoryThreshold] *)
Definition nearLimit (c : Cache) : bool :=
  negb (Qle_bool (inject_Z (currentSize c))
                 (inject_Z (maxSize (config c)) * memoryThreshold (config c))).

Definition performMaintenance (now : Z) : M unit :=
  read c ;;
  let keysToRemove := JsMap.keys (filter (fun ke => stale now (snd ke)) (entries c)) in
  Eff.forEach (fun key => delete key ;;; Eff.ret tt) keysToRemove ;;;
  read c' ;;
  if nearLimit c' then evictLeastUsed else Eff.ret tt.

(** *** [get], split where it awaits the loader

    [get] runs up to [await loader()] without interruption: it counts the
    request, answers a hit, or counts a miss and invokes the loader.  The
    rest runs when the loader's promise settles; other calls may run in
    between. *)
Inductive Lookup :=
| Hit (m : Model)
| Miss.

Definition get_begin (now : Z) (key : string) : M Lookup :=
  Eff.modify count_request ;;;
  read c ;;
  match JsMap.get key (entries c) with
  | Some entry =>
      Eff.modify count_hit ;;;
      updateAccess now key ;;;
      Eff.ret (Hit (model entry))
  | None =>
      Eff.modify count_miss ;;;
      Eff.emit (CallLoader key) ;;;
      Eff.ret Miss
  end.

(** [{ quality: options.quality || 'unknown', loadTime, ...options }] *)
Definition loadMetadata (loadTime : Z) (options : Metadata) : Metadata :=
  {| md_quality :=
       match md_quality options with
       | Some q => Some q
       | None => Some "unknown"
       end;
     md_loadTime :=
       match md_loadTime options with
       | Some t => Some t
       | None => Some loadTime
       end |}.

(** The continuation of a miss, given what the loader's promise settled to. *)
Definition get_resume (now loadTime : Z) (key : string) (outcome : Result Model)
    (options : Metadata) : M (Result Model) :=
  match outcome with
  | Ok m =>
      set now key m (loadMetadata loadTime options) ;;;
      Eff.emit (NotifyLoad key m loadTime) ;;;
      Eff.ret (Ok m)
  | Err e =>
      Eff.emit (NotifyError key e) ;;;
      Eff.ret (Err e)
  end.

(** What a call that began with [r] still has to do; [loader] is what the
    promise of the loader it invoked settles to. *)
Definition get_finish (now loadTime : Z) (key : string) (r : Lookup)
    (loader : Result Model) (options : Metadata) : M (Result Model) :=
  match r with
  | Hit m => Eff.ret (Ok m)
  | Miss => get_resume now loadTime key loader options
  end.

(** A call of [get] that nothing interleaves with. *)
Definition get (now loadTime : Z) (key : string) (loader : Result Model)
    (options : Metadata) : M (Result Model) :=
  r <- get_begin now key ;;
  get_finish now loadTime key r loader options.

(** Two calls for one key, the second issued while the first awaits its
    loader: [p1 = cache.get(key, loader1); p2 = cache.get(key, loader2)],
    after which the loaders' promises settle in the order of the calls and
    the rest of the first call runs to its end before the rest of the
    second.  The result is what [p1] and [p2] settle to. *)
Definition concurrentGets (now loadTime : Z) (key : string)
    (loader1 loader2 : Result Model) (options : Metadata)
    : M (Result Model * Result Model) :=
  r1 <- get_begin now key ;;
  r2 <- get_begin now key ;;
  x1 <- get_finish now loadTime key r1 loader1 options ;;
  x2 <- get_finish now loadTime key r2 loader2 options ;;
  Eff.ret (x1, x2).

(** *** Statistics *)

(** [Array.prototype.sort] is stable: an element is inserted before the
    first one that does not precede it. *)
Fixpoint insertSorted {A} (le : A -> A -> bool) (x : A) (l : list A) : list A :=
  match l with
  | [] => [x]
  | y :: l' => if le x y then x :: l else y :: insertSorted le x l'
  end.

Definition stableSort {A} (le : A -> A -> bool) (l : list A) : list A :=
  fold_right (insertSorted le) [] l.

Record UsageRow := mkRow {
  row_key : string;
  row_accessCount : Z
}.

Definition usageRow (ke : string * CacheEntry) : UsageRow :=
  {| row_key := fst ke; row_accessCount := accessCount (snd ke) |}.

(** The comparator [(a, b) => f(a) - f(b)], as "[a] may come first" *)
Definition leBy {A} (f : A -> Z) (a b : A) : bool := f a <=? f b.

(** The order a sort by [leBy f] establishes *)
Definition ascending {A} (f : A -> Z) (a b : A) : Prop := f a <= f b.

Definition byCount (ke : string * CacheEntry) : Z := accessCount (snd ke).

Definition getLeastUsedEntries (count : nat) (c : Cache) : list UsageRow :=
  map usageRow (take count (stableSort (leBy byCount) (entries c))).

Definition getMostUsedEntries (count : nat) (c : Cache) : list UsageRow :=
  map usageRow (take count (stableSort (fun a b => leBy byCount b a) (entries c))).

Record Stats := mkStats {
  stats_size_current : Z;
  stats_size_max : Z;
  stats_entries_current : Z;
  stats_entries_max : Z;
  mostUsed : list UsageRow;
  leastUsed : list UsageRow
}.

Definition getStats (c : Cache) : Stats :=
  {| stats_size_current := currentSize c;
     stats_size_max := maxSize (config c);
     stats_entries_current := JsMap.size (entries c);
     stats_entries_max := maxEntries (config c);
     mostUsed := getMostUsedEntries 5 c;
     leastUsed := getLeastUsedEntries 5 c |}.

(** *** What the cache invariant speaks of *)

Definition sizeOf (ke : string * CacheEntry) : Z := size (snd ke).

Definition liveSize (c : Cache) : Z := sumZ (map sizeOf (entries c)).

Definition entryCount (c : Cache) : Z := JsMap.size (entries c).

(** The access order lists stored keys only, each once. *)
Definition orderOk (c : Cache) : Prop :=
  NoDup (accessOrder c) /\
  forall k, k ∈ accessOrder c -> JsMap.has k (entries c) = true.

(** Distinct keys, sizes that are not negative, an access order that lists
    every stored key, and a size total that is the sum of the sizes. *)
Definition consistent (c : Cache) : Prop :=
  orderOk c /\
  NoDup (JsMap.keys (entries c)) /\
  (forall k, JsMap.has k (entries c) = true -> k ∈ accessOrder c) /\
  Forall (fun ke => 0 <= sizeOf ke) (entries c) /\
  currentSize c = liveSize c.

Definition withinBudget (c : Cache) : Prop :=
  entryCount c <= maxEntries (config c) /\ currentSize c <= maxSize (config c).

Definition invariant (cfg : Config) (c : Cache) : Prop :=
  config c = cfg /\ consistent c /\ withinBudget c.

(** The caches that calls that do not overlap lead to, when [set] is only
    called for a key that is not stored. *)
Inductive reachable (cfg : Config) : Cache -> Prop :=
| reach_create : reachable cfg (create cfg)
| reach_get now lt key loader options c r c' tr :
    reachable cfg c ->
    get now lt key loader options c = Some (r, c', tr) ->
    reachable cfg c'
| reach_set now key m md c c' tr :
    reachable cfg c ->
    has key c = false ->
    set now key m md c = Some (tt, c', tr) ->
    reachable cfg c'
| reach_delete key c b c' tr :
    reachable cfg c ->
    delete key c = Some (b, c', tr) ->
    reachable cfg c'
| reach_evict c c' tr :
    reachable cfg c ->
    evictLeastUsed c = Some (tt, c', tr) ->
    reachable cfg c'
| reach_maintenance now c c' tr :
    reachable cfg c ->
    performMaintenance now c = Some (tt, c', tr) ->
    reachable cfg c'
| reach_clear c c' tr :
    reachable cfg c ->
    clear c = Some (tt, c', tr) ->
    reachable cfg c'.

(** The keys the loader was invoked for, in order. *)
Fixpoint loaderCalls (tr : list Action) : list string :=
  match tr with
  | [] => []
  | CallLoader k :: tr' => k :: loaderCalls tr'
  | _ :: tr' => loaderCalls tr'
  end.

(** The keys of the entries evicted or deleted, in order. *)
Fixpoint evictions (tr : list Action) : list string :=
  match tr with
  | [] => []
  | NotifyEviction k _ _ :: tr' => k :: evictions tr'
  | _ :: tr' => evictions tr'
  end.

End ModelCache.

(** ** PerformanceMonitor.js: the metrics object and its snapshots

    Objects live in a store and are held by reference: [currentMetrics] is a
    reference to the metrics object, whose [memoryUsage] property is a
    reference to a second object. *)
Module PerformanceMonitor.

Definition ref := positive.

Record MemoryUsage := mkMemoryUsage {
  used : JsNum.num;
  total : JsNum.num;
  percentage : JsNum.num
}.

Record Metrics := mkMetrics {
  fps : JsNum.num;
  memoryUsage : ref;
  renderTime : JsNum.num;
  loadTime : JsNum.num;
  activeModels : JsNum.num;
  cacheHitRate : JsNum.num
}.

Inductive Object :=
| MetricsObject (m : Metrics)
| MemoryObject (u : MemoryUsage).

Record Store := mkStore {
  objects : gmap positive Object;
  next : positive
}.

Definition emptyStore : Store := {| objects := ∅; next := 1%positive |}.

Definition alloc (o : Object) (s : Store) : ref * Store :=
  (next s, {| objects := <[next s := o]> (objects s); next := Pos.succ (next s) |}).

Definition write (r : ref) (o : Object) (s : Store) : Store :=
  {| objects := <[r := o]> (objects s); next := next s |}.

Definition readMetrics (r : ref) (s : Store) : option Metrics :=
  match objects s !! r with
  | Some (MetricsObject m) => Some m
  | _ => None
  end.

Definition readMemory (r : ref) (s : Store) : option MemoryUsage :=
  match objects s !! r with
  | Some (MemoryObject u) => Some u
  | _ => None
  end.

(** The monitor, as far as its metrics go. *)
Record Monitor := mkMonitor {
  currentMetrics : ref;
  consecutiveIssues : Z
}.

Definition zero : JsNum.num := JsNum.ofZ 0.

(** The constructor's [this.currentMetrics = { fps: 0, memoryUsage: {...}, ... }] *)
Definition create (s : Store) : Monitor * Store :=
  let (mu, s1) := alloc (MemoryObject {| used := zero; total := zero; percentage := zero |}) s in
  let (cm, s2) :=
    alloc (MetricsObject {| fps := zero; memoryUsage := mu; renderTime := zero;
                            loadTime := zero; activeModels := zero;
                            cacheHitRate := zero |}) s1 in
  ({| currentMetrics := cm; consecutiveIssues := 0 |}, s2).

(** [{ ...this.currentMetrics }]: a new object with the same property
    values; a property that holds a reference is copied as that reference. *)
Definition spread (r : ref) (s : Store) : option (ref * Store) :=
  match readMetrics r s with
  | Some m => Some (alloc (MetricsObject m) s)
  | None => None
  end.

Definition getCurrentMetrics (pm : Monitor) (s : Store) : option (ref * Store) :=
  spread (currentMetrics pm) s.

(** The [metrics] property of the notification [notifyPerformanceIssues]
    hands to every callback. *)
Definition notificationMetrics (pm : Monitor) (s : Store) : option (ref * Store) :=
  spread (currentMetrics pm) s.

(** What the monitor's own code reads back from [this.currentMetrics]. *)
Definition observe (pm : Monitor) (s : Store) : option (Metrics * MemoryUsage) :=
  match readMetrics (currentMetrics pm) s with
  | Some m =>
      match readMemory (memoryUsage m) s with
      | Some u => Some (m, u)
      | None => None
      end
  | None => None
  end.

(** Assignments a holder of a snapshot can make through it. *)
Inductive Field := f_fps | f_renderTime | f_loadTime | f_activeModels | f_cacheHitRate.
Inductive MemoryField := f_used | f_total | f_percentage.

Inductive Mutation :=
| SetField (f : Field) (v : JsNum.num)
| SetMemoryUsage (r : ref)
| SetNested (f : MemoryField) (v : JsNum.num).

Definition setField (f : Field) (v : JsNum.num) (m : Metrics) : Metrics :=
  match f with
  | f_fps => mkMetrics v (memoryUsage m) (renderTime m) (loadTime m) (activeModels m) (cacheHitRate m)
  | f_renderTime => mkMetrics (fps m) (memoryUsage m) v (loadTime m) (activeModels m) (cacheHitRate m)
  | f_loadTime => mkMetrics (fps m) (memoryUsage m) (renderTime m) v (activeModels m) (cacheHitRate m)
  | f_activeModels => mkMetrics (fps m) (memoryUsage m) (renderTime m) (loadTime m) v (cacheHitRate m)
  | f_cacheHitRate => mkMetrics (fps m) (memoryUsage m) (renderTime m) (loadTime m) (activeModels m) v
  end.

Definition setMemoryRef (r : ref) (m : Metrics) : Metrics :=
  mkMetrics (fps m) r (renderTime m) (loadTime m) (activeModels m) (cacheHitRate m).

Definition setMemoryField (f : MemoryField) (v : JsNum.num) (u : MemoryUsage) : MemoryUsage :=
  match f with
  | f_used => mkMemoryUsage v (total u) (percentage u)
  | f_total => mkMemoryUsage (used u) v (percentage u)
  | f_percentage => mkMemoryUsage (used u) (total u) v
  end.

(** [snapshot.f = v], [snapshot.memoryUsage = r], [snapshot.memoryUsage.f = v];
    [None] when the assignment throws (a property of a missing object). *)
Definition mutate (snapshot : ref) (mu : Mutation) (s : Store) : option Store :=
  match readMetrics snapshot s with
  | None => None
  | Some m =>
      match mu with
      | SetField f v => Some (write snapshot (MetricsObject (setField f v m)) s)
      | SetMemoryUsage r => Some (write snapshot (MetricsObject (setMemoryRef r m)) s)
      | SetNested f v =>
          match readMemory (memoryUsage m) s with
          | Some u => Some (write (memoryUsage m) (MemoryObject (setMemoryField f v u)) s)
          | None => None
          end
      end
  end.

(** An assignment to a property of the snapshot itself *)
Definition topLevel (mu : Mutation) : bool :=
  match mu with
  | SetField _ _ | SetMemoryUsage _ => true
  | SetNested _ _ => false
  end.

Fixpoint mutateAll (snapshot : ref) (mus : list Mutation) (s : Store) : option Store :=
  match mus with
  | [] => Some s
  | mu :: mus' =>
      match mutate snapshot mu s with
      | Some s' => mutateAll snapshot mus' s'
      | None => None
      end
  end.

(** Every reference the store holds or the monitor uses is allocated. *)
Definition wellFormed (pm : Monitor) (s : Store) : Prop :=
  (forall r o, objects s !! r = Some o -> (r < next s)%positive) /\
  exists m u, readMetrics (currentMetrics pm) s = Some m /\
              readMemory (memoryUsage m) s = Some u.

(** *** Sampling, issue detection and notification

    The arithmetic of doubles is a parameter of what follows: whatever
    [+], [-], [*], [/] and [Math.round] compute, the definitions only pass
    their results on and compare them. *)
Record Arith := mkArith {
  fadd : JsNum.num -> JsNum.num -> JsNum.num;
  fsub : JsNum.num -> JsNum.num -> JsNum.num;
  fmul : JsNum.num -> JsNum.num -> JsNum.num;
  fdiv : JsNum.num -> JsNum.num -> JsNum.num;
  fround : JsNum.num -> JsNum.num
}.

(** The doubles the literals [0.5], [0.7] and [0.8] denote *)
Definition half : JsNum.num := JsNum.Fin (1 # 2).
Definition sevenTenths : JsNum.num :=
  JsNum.Fin (3152519739159347 # 4503599627370496).
Definition eightTenths : JsNum.num :=
  JsNum.Fin (3602879701896397 # 4503599627370496).

Record Config := mkConfig {
  targetFPS : JsNum.num;
  sampleSize : Z;
  memoryCheckInterval : Z;
  alertThreshold : JsNum.num
}.

Definition defaultConfig : Config :=
  {| targetFPS := JsNum.ofZ 30; sampleSize := 60; memoryCheckInterval := 1000;
     alertThreshold := eightTenths |}.

(** The monitor with its histories and its loop state; [memoryTimer] is
    the id [setInterval] returned, if one is held. *)
Record Instance := mkInstance {
  monitor : Monitor;
  config : Config;
  fpsHistory : list JsNum.num;
  memoryHistory : list JsNum.num;
  renderTimeHistory : list JsNum.num;
  isMonitoring : bool;
  lastFrameTime : JsNum.num;
  frameCount : Z;
  memoryTimer : option positive
}.

(** A monitor and the store its objects live in *)
Record Running := mkRunning {
  self : Instance;
  heap : Store
}.

Inductive Severity := sev_critical | sev_high | sev_medium | sev_low.

Inductive IssueType := low_fps | high_memory | slow_render.

Inductive IssueData :=
| FpsData (current target threshold : JsNum.num)
| MemoryData (pct usedBytes totalBytes : JsNum.num)
| RenderData (time threshold : JsNum.num).

Record Issue := mkIssue {
  type : IssueType;
  severity : Severity;
  data : IssueData
}.

Inductive Recommendation :=
| reduce_model_quality
| reduce_active_models
| optimize_lod_distances
| clear_cache
| unload_distant_models
| reduce_draw_calls
| optimize_materials.

#[global] Instance Recommendation_eq_dec : EqDecision Recommendation.
Proof. solve_decision. Defined.

Record Notification := mkNotification {
  timestamp : Z;
  issues : list Issue;
  consecutiveCount : Z;
  metrics : ref;
  recommendations : list Recommendation
}.

Inductive Event :=
| Notify (n : Notification)
| RequestAnimationFrame
| SetInterval (id : positive) (ms : Z)
| ClearInterval (id : positive)
| WarnActive.

(** In this monad [None] also stands for a property read from an object
    the store does not hold, which [wellFormed] excludes. *)
Definition M (A : Type) : Type := Eff.M Running Event A.

Definition with_self (f : Instance -> Instance) (w : Running) : Running :=
  {| self := f (self w); heap := heap w |}.

Definition with_heap (s : Store) (w : Running) : Running :=
  {| self := self w; heap := s |}.

Definition with_monitor (pm : Monitor) (i : Instance) : Instance :=
  mkInstance pm (config i) (fpsHistory i) (memoryHistory i) (renderTimeHistory i)
    (isMonitoring i) (lastFrameTime i) (frameCount i) (memoryTimer i).

Definition with_fpsHistory (h : list JsNum.num) (i : Instance) : Instance :=
  mkInstance (monitor i) (config i) h (memoryHistory i) (renderTimeHistory i)
    (isMonitoring i) (lastFrameTime i) (frameCount i) (memoryTimer i).

Definition with_memoryHistory (h : list JsNum.num) (i : Instance) : Instance :=
  mkInstance (monitor i) (config i) (fpsHistory i) h (renderTimeHistory i)
    (isMonitoring i) (lastFrameTime i) (frameCount i) (memoryTimer i).

Definition with_isMonitoring (b : bool) (i : Instance) : Instance :=
  mkInstance (monitor i) (config i) (fpsHistory i) (memoryHistory i) (renderTimeHistory i)
    b (lastFrameTime i) (frameCount i) (memoryTimer i).

Definition with_lastFrameTime (t : JsNum.num) (i : Instance) : Instance :=
  mkInstance (monitor i) (config i) (fpsHistory i) (memoryHistory i) (renderTimeHistory i)
    (isMonitoring i) t (frameCount i) (memoryTimer i).

Definition with_frameCount (n : Z) (i : Instance) : Instance :=
  mkInstance (monitor i) (config i) (fpsHistory i) (memoryHistory i) (renderTimeHistory i)
    (isMonitoring i) (lastFrameTime i) n (memoryTimer i).

Definition with_memoryTimer (t : option positive) (i : Instance) : Instance :=
  mkInstance (monitor i) (config i) (fpsHistory i) (memoryHistory i) (renderTimeHistory i)
    (isMonitoring i) (lastFrameTime i) (frameCount i) t.

Definition with_consecutiveIssues (n : Z) (i : Instance) : Instance :=
  with_monitor {| currentMetrics := currentMetrics (monitor i); consecutiveIssues := n |} i.

(** [new PerformanceMonitor()] *)
Definition construct (s : Store) : Running :=
  let (pm, s') := create s in
  {| self := {| monitor := pm; config := defaultConfig; fpsHistory := [];
                memoryHistory := []; renderTimeHistory := []; isMonitoring := false;
                lastFrameTime := zero; frameCount := 0; memoryTimer := None |};
     heap := s' |}.

(** [h.push(x); if (h.length > sampleSize) h.shift()] *)
Definition pushSample (size : Z) (h : list JsNum.num) (x : JsNum.num) : list JsNum.num :=
  let h' := h ++ [x] in
  if Z.of_nat (length h') >? size then tail h' else h'.

Definition calculateAverageFPS (ar : Arith) (i : Instance) : JsNum.num :=
  match fpsHistory i with
  | [] => zero
  | h =>
      fround ar (fdiv ar (fold_left (fadd ar) h zero) (JsNum.ofZ (Z.of_nat (length h))))
  end.

(** [this.currentMetrics.f = v] *)
Definition setMetric (f : Field) (v : JsNum.num) : M unit :=
  read w ;;
  match readMetrics (currentMetrics (monitor (self w))) (heap w) with
  | Some m =>
      Eff.modify
        (with_heap (write (currentMetrics (monitor (self w)))
                      (MetricsObject (setField f v m)) (heap w)))
  | None => Eff.spin
  end.

Definition addFPSSample (ar : Arith) (sample : JsNum.num) : M unit :=
  Eff.modify (with_self (fun i =>
    with_fpsHistory (pushSample (sampleSize (config i)) (fpsHistory i) sample) i)) ;;;
  read w ;;
  setMetric f_fps (calculateAverageFPS ar (self w)).

Definition calculateFPSSeverity (ar : Arith) (currentFps target : JsNum.num) : Severity :=
  let ratio := fdiv ar currentFps target in
  if JsNum.ltb ratio half then sev_critical
  else if JsNum.ltb ratio sevenTenths then sev_high
  else if JsNum.ltb ratio eightTenths then sev_medium
  else sev_low.

Definition calculateMemorySeverity (pct : JsNum.num) : Severity :=
  if JsNum.ltb (JsNum.ofZ 95) pct then sev_critical
  else if JsNum.ltb (JsNum.ofZ 90) pct then sev_high
  else if JsNum.ltb (JsNum.ofZ 85) pct then sev_medium
  else sev_low.

(** What the [switch] of [generateRecommendations] pushes for one issue *)
Definition recommend (issue : Issue) : list Recommendation :=
  match type issue with
  | low_fps =>
      match severity issue with
      | sev_critical => [reduce_model_quality; reduce_active_models]
      | sev_high => [optimize_lod_distances]
      | _ => []
      end
  | high_memory =>
      clear_cache ::
      match severity issue with
      | sev_critical => [unload_distant_models]
      | _ => []
      end
  | slow_render => [reduce_draw_calls; optimize_materials]
  end.

(** [[...new Set(l)]]: the elements of [l] in the order of their first
    occurrence *)
Definition setAdd (seen : list Recommendation) (r : Recommendation) : list Recommendation :=
  if decide (r ∈ seen) then seen else seen ++ [r].

Definition newSet (l : list Recommendation) : list Recommendation :=
  fold_left setAdd l [].

Definition generateRecommendations (found : list Issue) : list Recommendation :=
  newSet (flat_map recommend found).

Definition notifyPerformanceIssues (now : Z) (found : list Issue) : M unit :=
  read w ;;
  match notificationMetrics (monitor (self w)) (heap w) with
  | Some (snapshot, s') =>
      Eff.modify (with_heap s') ;;;
      Eff.emit (Notify {| timestamp := now;
                          issues := found;
                          consecutiveCount := consecutiveIssues (monitor (self w));
                          metrics := snapshot;
                          recommendations := generateRecommendations found |})
  | None => Eff.spin
  end.

(** The issues [checkPerformanceIssues] collects from the metrics [m] with
    memory usage [u] *)
Definition detectIssues (ar : Arith) (cfg : Config) (m : Metrics) (u : MemoryUsage)
    : list Issue :=
  let threshold := fmul ar (targetFPS cfg) (alertThreshold cfg) in
  (if JsNum.ltb (fps m) threshold
   then [{| type := low_fps;
            severity := calculateFPSSeverity ar (fps m) (targetFPS cfg);
            data := FpsData (fps m) (targetFPS cfg) threshold |}]
   else []) ++
  (if JsNum.ltb (JsNum.ofZ 80) (percentage u)
   then [{| type := high_memory;
            severity := calculateMemorySeverity (percentage u);
            data := MemoryData (percentage u) (used u) (total u) |}]
   else []) ++
  (if JsNum.ltb (JsNum.ofZ 33) (renderTime m)
   then [{| type := slow_render;
            severity := sev_medium;
            data := RenderData (renderTime m) (JsNum.ofZ 33) |}]
   else []).

Definition checkPerformanceIssues (ar : Arith) (now : Z) : M unit :=
  read w ;;
  match observe (monitor (self w)) (heap w) with
  | Some (m, u) =>
      match detectIssues ar (config (self w)) m u with
      | [] => Eff.modify (with_self (with_consecutiveIssues 0))
      | found =>
          Eff.modify (with_self (fun i =>
            with_consecutiveIssues (consecutiveIssues (monitor i) + 1) i)) ;;;
          notifyPerformanceIssues now found
      end
  | None => Eff.spin
  end.

(** [monitorLoop], entered at [performance.now() = currentTime] *)
Definition monitorLoop (ar : Arith) (currentTime : JsNum.num) (now : Z) : M unit :=
  read w ;;
  if negb (isMonitoring (self w)) then Eff.ret tt
  else
    (if JsNum.ltb zero (lastFrameTime (self w)) then
       let deltaTime := fsub ar currentTime (lastFrameTime (self w)) in
       let sample := fdiv ar (JsNum.ofZ 1000) deltaTime in
       addFPSSample ar sample ;;;
       setMetric f_renderTime deltaTime
     else Eff.ret tt) ;;;
    Eff.modify (with_self (fun i =>
      with_frameCount (frameCount i + 1) (with_lastFrameTime currentTime i))) ;;;
    checkPerformanceIssues ar now ;;;
    Eff.emit RequestAnimationFrame.

(** [startMonitoring]; [timer] is the id [setInterval] returns. *)
Definition startMonitoring (ar : Arith) (currentTime : JsNum.num) (now : Z)
    (timer : positive) : M unit :=
  read w ;;
  if isMonitoring (self w) then Eff.emit WarnActive
  else
    Eff.modify (with_self (fun i =>
      with_consecutiveIssues 0 (with_frameCount 0 (with_isMonitoring true i)))) ;;;
    monitorLoop ar currentTime now ;;;
    read w' ;;
    Eff.emit (SetInterval timer (memoryCheckInterval (config (self w')))) ;;;
    Eff.modify (with_self (with_memoryTimer (Some timer))).

Definition stopMonitoring : M unit :=
  Eff.modify (with_self (with_isMonitoring false)) ;;;
  read w ;;
  match memoryTimer (self w) with
  | Some t =>
      Eff.emit (ClearInterval t) ;;;
      Eff.modify (with_self (with_memoryTimer None))
  | None => Eff.ret tt
  end.

(** What [updateMemoryMetrics] finds: [performance.memory], or failing
    that the number of [a-entity] elements of the scene, if there is a
    scene. *)
Inductive MemorySource :=
| HeapInfo (usedJSHeapSize totalJSHeapSize : JsNum.num)
| NoHeapInfo (entities : option Z).

Definition megabyte : Z := 1024 * 1024.

Definition estimateMemoryUsage (entities : option Z) : JsNum.num * JsNum.num :=
  match entities with
  | None => (zero, JsNum.ofZ (100 * megabyte))
  | Some n => (JsNum.ofZ (n * 5 * megabyte), JsNum.ofZ (200 * megabyte))
  end.

Definition updateMemoryMetrics (ar : Arith) (source : MemorySource) : M unit :=
  let memoryInfo :=
    match source with
    | HeapInfo u t => (u, t)
    | NoHeapInfo entities => estimateMemoryUsage entities
    end in
  let pct :=
    if JsNum.ltb zero (snd memoryInfo)
    then fmul ar (fdiv ar (fst memoryInfo) (snd memoryInfo)) (JsNum.ofZ 100)
    else zero in
  read w ;;
  match readMetrics (currentMetrics (monitor (self w))) (heap w) with
  | Some m =>
      let (mu, s1) :=
        alloc (MemoryObject {| used := fst memoryInfo; total := snd memoryInfo;
                               percentage := fround ar pct |}) (heap w) in
      Eff.modify (with_heap
        (write (currentMetrics (monitor (self w))) (MetricsObject (setMemoryRef mu m)) s1)) ;;;
      Eff.modify (with_self (fun i =>
        with_memoryHistory (pushSample (sampleSize (config i)) (memoryHistory i) pct) i))
  | None => Eff.spin
  end.

(** [reset]: fresh metrics objects, empty histories, counters at zero *)
Definition reset : M unit :=
  Eff.modify (fun w =>
    let (pm, s') := create (heap w) in
    {| self := {| monitor := pm; config := config (self w); fpsHistory := [];
                  memoryHistory := []; renderTimeHistory := [];
                  isMonitoring := isMonitoring (self w);
                  lastFrameTime := lastFrameTime (self w); frameCount := 0;
                  memoryTimer := memoryTimer (self w) |};
       heap := s' |}).

(** The calls of [requestAnimationFrame] in a trace: the monitoring loops
    that go on into the next frame. *)
Fixpoint frameRequests (tr : list Event) : nat :=
  match tr with
  | [] => 0
  | RequestAnimationFrame :: tr' => S (frameRequests tr')
  | _ :: tr' => frameRequests tr'
  end.

Fixpoint notifications (tr : list Event) : list Notification :=
  match tr with
  | [] => []
  | Notify n :: tr' => n :: notifications tr'
  | _ :: tr' => notifications tr'
  end.

(** One animation frame: each callback queued by [requestAnimationFrame]
    runs [monitorLoop]; [calls] lists, for each of them in turn, what
    [performance.now()] and [Date.now()] return to it. *)
Definition animationFrame (ar : Arith) (calls : list (JsNum.num * Z)) : M unit :=
  Eff.forEach (fun c => monitorLoop ar (fst c) (snd c)) calls.

End PerformanceMonitor.

(** ** The LODManager class *)
Module LODManager.

Import ModelCache(Model, Scene, Untraversable, JsError, Error, Result, Ok, Err).

Inductive Quality := Low | Medium | High.

(** The property name and cache-key suffix of a quality *)
Definition qualityName (q : Quality) : string :=
  match q with
  | Low => "low"
  | Medium => "medium"
  | High => "high"
  end.

Record LODDistances := mkDistances {
  near : JsNum.num;
  medium : JsNum.num;
  far : JsNum.num
}.

(** [determineQuality(distance, lodDistances)] *)
Definition determineQuality (distance : JsNum.num) (lodDistances : LODDistances) : Quality :=
  if JsNum.leb distance (near lodDistances) then High
  else if JsNum.leb distance (medium lodDistances) then Medium
  else Low.

(** An entry of [activeModels]. [paths] is the caller's object, from
    property name to source path. *)
Record ModelConfig := mkModelConfig {
  entityId : string;
  paths : gmap string string;
  lodDistances : LODDistances;
  currentQuality : option Quality;
  isLoaded : bool;
  isVisible : bool;
  lastUpdate : Z;
  memoryUsage : Z;
  priority : Z;
  preload : bool;
  element : option string
}.

Record Options := mkOptions {
  opt_lodDistances : option LODDistances;
  opt_priority : option Z;
  opt_preload : option bool;
  opt_element : option string
}.

Definition noOptions : Options :=
  {| opt_lodDistances := None; opt_priority := None; opt_preload := None;
     opt_element := None |}.

(** What the manager reads and writes of an A-Frame element: its ['mesh']
    object, as the model cloned and the scale set on the clone, and its
    [visible] attribute. *)
Record Mesh := mkMesh {
  mesh_model : Model;
  mesh_scale : Q
}.

Record ElementState := mkElement {
  mesh : option Mesh;
  visible : bool
}.

Record Config := mkConfig {
  distances : LODDistances;
  targetFPS : Z;
  autoOptimize : bool;
  maxActiveModels : Z
}.

Record Stats := mkStats {
  modelsRegistered : Z;
  qualityChanges : Z;
  optimizationRuns : Z
}.

(** The manager, with the document whose elements it drives; an element is
    named by its handle. *)
Record State := mkState {
  config : Config;
  modelCache : ModelCache.Cache;
  activeModels : gmap string ModelConfig;
  isInitialized : bool;
  isOptimizing : bool;
  stats : Stats;
  document : gmap string ElementState
}.

Record RecommendedSettings := mkSettings {
  rs_lodDistances : LODDistances;
  rs_targetFPS : Z;
  rs_maxModels : Z;
  rs_cacheSize : Z
}.

(** What lies outside the manager: the outcome of [GLTFLoader.load] for a
    path, the clock, the time a load takes, and what the device detector
    recommends. *)
Record Env := mkEnv {
  gltf : string -> Result Model;
  now : Z;
  loadTime : Z;
  recommendedSettings : RecommendedSettings
}.

Inductive Action :=
| Cache (a : ModelCache.Action)
| NotifyQualityChange (entityId : string) (previousQuality : option Quality)
    (newQuality : Quality) (m : Model)
| NotifyModelLoad (entityId : string) (cfg : ModelConfig)
| WarnPreload (entityId : string) (e : JsError)
| LogQualityError (entityId : string) (target : Quality) (e : JsError)
| LogApplyError (handle : string).

Definition M (A : Type) : Type := Eff.M State Action A.

Definition with_modelCache (c : ModelCache.Cache) (st : State) : State :=
  {| config := config st; modelCache := c; activeModels := activeModels st;
     isInitialized := isInitialized st; isOptimizing := isOptimizing st;
     stats := stats st; document := document st |}.

Definition with_activeModels (a : gmap string ModelConfig) (st : State) : State :=
  {| config := config st; modelCache := modelCache st; activeModels := a;
     isInitialized := isInitialized st; isOptimizing := isOptimizing st;
     stats := stats st; document := document st |}.

Definition with_document (d : gmap string ElementState) (st : State) : State :=
  {| config := config st; modelCache := modelCache st; activeModels := activeModels st;
     isInitialized := isInitialized st; isOptimizing := isOptimizing st;
     stats := stats st; document := d |}.

Definition with_stats (s : Stats) (st : State) : State :=
  {| config := config st; modelCache := modelCache st; activeModels := activeModels st;
     isInitialized := isInitialized st; isOptimizing := isOptimizing st;
     stats := s; document := document st |}.

Definition with_config (c : Config) (st : State) : State :=
  {| config := c; modelCache := modelCache st; activeModels := activeModels st;
     isInitialized := isInitialized st; isOptimizing := isOptimizing st;
     stats := stats st; document := document st |}.

Definition with_isInitialized (b : bool) (st : State) : State :=
  {| config := config st; modelCache := modelCache st; activeModels := activeModels st;
     isInitialized := b; isOptimizing := isOptimizing st;
     stats := stats st; document := document st |}.

(** Run a cache method on [this.modelCache]. *)
Definition onCache {A} (m : ModelCache.M A) : M A :=
  Eff.zoom modelCache with_modelCache Cache m.

Definition defaultDistances : LODDistances :=
  {| near := JsNum.ofZ 3; medium := JsNum.ofZ 8; far := JsNum.ofZ 15 |}.

(** [new LODManager(config)] with the defaults; [cacheSize || 100 MB] and
    [maxCacheEntries || 50] size the cache. *)
Definition create (cacheSize maxCacheEntries : option Z)
    (doc : gmap string ElementState) : State :=
  {| config := {| distances := defaultDistances; targetFPS := 30;
                  autoOptimize := true; maxActiveModels := 10 |};
     modelCache :=
       ModelCache.create
         (ModelCache.mkConfig (ModelCache.orZ cacheSize (100 * 1024 * 1024))
            (ModelCache.orZ maxCacheEntries 50) (8 # 10) 30000);
     activeModels := ∅;
     isInitialized := false;
     isOptimizing := false;
     stats := {| modelsRegistered := 0; qualityChanges := 0; optimizationRuns := 0 |};
     document := doc |}.

(** A path that is present and not the empty string *)
Definition pathOf (cfg : ModelConfig) (q : Quality) : option string :=
  match paths cfg !! qualityName q with
  | Some p => if String.eqb p EmptyString then None else Some p
  | None => None
  end.

Definition cacheKey (entityId : string) (q : Quality) : string :=
  String.append entityId (String.append "_" (qualityName q)).

Definition scaleFactor (q : Quality) : Q :=
  match q with
  | Low => 8 # 10
  | Medium => 9 # 10
  | High => 1
  end.

Definition getElementById (id : string) (st : State) : option string :=
  match document st !! id with
  | Some _ => Some id
  | None => None
  end.

Definition elementState (handle : string) (st : State) : ElementState :=
  default {| mesh := None; visible := true |} (document st !! handle).

Section WithEnv.
Variable env : Env.

(** [initialize]: the settings the device detector recommends are taken
    over by [adjustConfigForDevice] and the manager is flagged initialized.
    The detector never fails (it falls back to defaults); the monitor that
    is started and the callbacks that are registered are not part of this
    state. *)
Definition initialize : M unit :=
  read st ;;
  if isInitialized st then Eff.ret tt
  else
    let settings := recommendedSettings env in
    Eff.modify (fun st =>
      with_config {| distances := rs_lodDistances settings;
                     targetFPS := rs_targetFPS settings;
                     autoOptimize := autoOptimize (config st);
                     maxActiveModels := rs_maxModels settings |} st) ;;;
    onCache (Eff.modify (fun c =>
      ModelCache.with_config
        (ModelCache.mkConfig (rs_cacheSize settings)
           (ModelCache.maxEntries (ModelCache.config c))
           (ModelCache.memoryThreshold (ModelCache.config c))
           (ModelCache.cleanupInterval (ModelCache.config c))) c)) ;;;
    Eff.modify (with_isInitialized true).

Definition notFound (entityId : string) (q : Quality) : JsError :=
  Error (String.append "Modelo ou qualidade nao encontrada: "
           (String.append entityId (String.append "/" (qualityName q)))).

Definition preloadModel (entityId : string) (q : Quality) : M (Result Model) :=
  read st ;;
  match activeModels st !! entityId with
  | None => Eff.ret (Err (notFound entityId q))
  | Some cfg =>
      match pathOf cfg q with
      | None => Eff.ret (Err (notFound entityId q))
      | Some path =>
          onCache (ModelCache.get (now env) (loadTime env) (cacheKey entityId q)
                     (gltf env path)
                     {| ModelCache.md_quality := Some (qualityName q);
                        ModelCache.md_loadTime := None |})
      end
  end.

(** [applyModelToElement]: the old mesh goes, then the clone is scaled and
    set and the element shown; a value that is no [Object3D] has no
    [clone], and the [catch] logs it. *)
Definition applyModelToElement (handle : string) (m : Model) (q : Quality) : M unit :=
  match m with
  | Scene _ _ =>
      Eff.modify (fun st =>
        with_document
          (<[handle := {| mesh := Some {| mesh_model := m; mesh_scale := scaleFactor q |};
                          visible := true |}]> (document st)) st)
  | Untraversable _ =>
      Eff.modify (fun st =>
        with_document
          (<[handle := {| mesh := None; visible := visible (elementState handle st) |}]>
             (document st)) st) ;;;
      Eff.emit (LogApplyError handle)
  end.

Definition loaded (q : Quality) (cfg : ModelConfig) : ModelConfig :=
  {| entityId := entityId cfg; paths := paths cfg; lodDistances := lodDistances cfg;
     currentQuality := Some q; isLoaded := true; isVisible := isVisible cfg;
     lastUpdate := lastUpdate cfg; memoryUsage := memoryUsage cfg;
     priority := priority cfg; preload := preload cfg; element := element cfg |}.

Definition unloaded (cfg : ModelConfig) : ModelConfig :=
  {| entityId := entityId cfg; paths := paths cfg; lodDistances := lodDistances cfg;
     currentQuality := None; isLoaded := false; isVisible := isVisible cfg;
     lastUpdate := lastUpdate cfg; memoryUsage := memoryUsage cfg;
     priority := priority cfg; preload := preload cfg; element := element cfg |}.

Definition count_qualityChange (st : State) : State :=
  with_stats {| modelsRegistered := modelsRegistered (stats st);
                qualityChanges := qualityChanges (stats st) + 1;
                optimizationRuns := optimizationRuns (stats st) |} st.

Definition count_registered (st : State) : State :=
  with_stats {| modelsRegistered := modelsRegistered (stats st) + 1;
                qualityChanges := qualityChanges (stats st);
                optimizationRuns := optimizationRuns (stats st) |} st.

(** [changeModelQuality]; [fuel] bounds the depth of its recursion. *)
Fixpoint changeModelQuality_fuel (fuel : nat) (entityId : string) (targetQuality : Quality)
    : M unit :=
  read st ;;
  match activeModels st !! entityId with
  | None => Eff.ret tt
  | Some cfg =>
      match pathOf cfg targetQuality with
      | None => Eff.ret tt
      | Some _ =>
          let previousQuality := currentQuality cfg in
          r <- preloadModel entityId targetQuality ;;
          match r with
          | Ok m =>
              match element cfg with
              | Some handle => applyModelToElement handle m targetQuality
              | None => Eff.ret tt
              end ;;;
              Eff.modify (fun st =>
                with_activeModels (<[entityId := loaded targetQuality cfg]> (activeModels st)) st) ;;;
              Eff.modify count_qualityChange ;;;
              Eff.emit (NotifyQualityChange entityId previousQuality targetQuality m)
          | Err e =>
              Eff.emit (LogQualityError entityId targetQuality e) ;;;
              match targetQuality, fuel with
              | High, S fuel' => changeModelQuality_fuel fuel' entityId Medium
              | Medium, S fuel' => changeModelQuality_fuel fuel' entityId Low
              | Low, _ => Eff.ret tt
              | _, O => Eff.spin
              end
          end
      end
  end.

(** The recursion goes from ['high'] to ['medium'] to ['low'] and stops:
    two nested calls at most. *)
Definition changeModelQuality : string -> Quality -> M unit :=
  changeModelQuality_fuel 2.

(** [options.priority || 5], [options.preload !== false],
    [options.element || document.getElementById(entityId)] *)
Definition newModelConfig (entityId : string) (modelPaths : gmap string string)
    (options : Options) (st : State) : ModelConfig :=
  {| entityId := entityId;
     paths := modelPaths;
     lodDistances := default (distances (config st)) (opt_lodDistances options);
     currentQuality := None;
     isLoaded := false;
     isVisible := false;
     lastUpdate := 0;
     memoryUsage := 0;
     priority := ModelCache.orZ (opt_priority options) 5;
     preload := default true (opt_preload options);
     element :=
       match opt_element options with
       | Some h => Some h
       | None => getElementById entityId st
       end |}.

(** [registerModel]; the promise it returns is fulfilled ([Ok]) or
    rejected ([Err]). *)
Definition registerModel (entityId : string) (modelPaths : gmap string string)
    (options : Options) : M (Result unit) :=
  initialize ;;;
  read st ;;
  let modelConfig := newModelConfig entityId modelPaths options st in
  Eff.modify (fun st =>
    with_activeModels (<[entityId := modelConfig]> (activeModels st)) st) ;;;
  Eff.modify count_registered ;;;
  (if preload modelConfig then
     match pathOf modelConfig Low with
     | Some _ =>
         r <- preloadModel entityId Low ;;
         match r with
         | Ok _ => Eff.ret tt
         | Err e => Eff.emit (WarnPreload entityId e)
         end
     | None => Eff.ret tt
     end
   else Eff.ret tt) ;;;
  Eff.emit (NotifyModelLoad entityId modelConfig) ;;;
  Eff.ret (Ok tt).

(** [unloadModel] *)
Definition unloadModel (entityId : string) : M unit :=
  read st ;;
  match activeModels st !! entityId with
  | None => Eff.ret tt
  | Some cfg =>
      match element cfg with
      | Some handle =>
          Eff.modify (fun st =>
            with_document (<[handle := {| mesh := None; visible := false |}]> (document st)) st)
      | None => Eff.ret tt
      end ;;;
      Eff.modify (fun st =>
        with_activeModels (<[entityId := unloaded cfg]> (activeModels st)) st)
  end.

(** [Math.ceil(n * 0.25)] *)
Definition quarterCeil (n : nat) : nat := Nat.div (n + 3) 4.

(** [performMemoryCleanup] *)
Definition performMemoryCleanup : M unit :=
  read st ;;
  let cacheStats := ModelCache.getStats (modelCache st) in
  let leastUsed := ModelCache.leastUsed cacheStats in
  let itemsToRemove := quarterCeil (length leastUsed) in
  Eff.forEach
    (fun row => onCache (ModelCache.delete (ModelCache.row_key row)) ;;; Eff.ret tt)
    (take itemsToRemove leastUsed).

(** The memory step of [optimizeForPerformance]:
    [if (currentMetrics.memoryUsage.percentage > 80) await this.performMemoryCleanup()] *)
Definition memoryCleanupStep (percentage : JsNum.num) : M unit :=
  if JsNum.ltb (JsNum.ofZ 80) percentage then performMemoryCleanup else Eff.ret tt.

End WithEnv.

(** *** What the properties speak of *)

(** The cache keys the loader was invoked for, in order. *)
Fixpoint loaderCalls (tr : list Action) : list string :=
  match tr with
  | [] => []
  | Cache (ModelCache.CallLoader k) :: tr' => k :: loaderCalls tr'
  | _ :: tr' => loaderCalls tr'
  end.

(** The qualities whose load failed, in order. *)
Fixpoint failedQualities (tr : list Action) : list Quality :=
  match tr with
  | [] => []
  | LogQualityError _ q _ :: tr' => q :: failedQualities tr'
  | _ :: tr' => failedQualities tr'
  end.

(** The [qualityChange] notifications, as previous and new quality. *)
Fixpoint qualityChangeEvents (tr : list Action) : list (option Quality * Quality) :=
  match tr with
  | [] => []
  | NotifyQualityChange _ p q _ :: tr' => (p, q) :: qualityChangeEvents tr'
  | _ :: tr' => qualityChangeEvents tr'
  end.

(** The state after a request that missed the cache. *)
Definition missed (st : State) : State :=
  with_modelCache (ModelCache.count_miss (ModelCache.count_request (modelCache st))) st.

(** The keys [performMemoryCleanup] deletes. *)
Definition cleanupVictims (c : ModelCache.Cache) : list string :=
  let leastUsed := ModelCache.leastUsed (ModelCache.getStats c) in
  map ModelCache.row_key (take (quarterCeil (length leastUsed)) leastUsed).

(** The levels of detail in ascending order; nothing loaded lies below. *)
Definition qualityLevel (q : option Quality) : nat :=
  match q with
  | None => 0
  | Some Low => 1
  | Some Medium => 2
  | Some High => 3
  end.

(** The manager's models, elements and counters are as they were, and no
    [qualityChange] was notified. *)
Definition leavesAsIs (st st' : State) (tr : list Action) : Prop :=
  activeModels st' = activeModels st /\
  document st' = document st /\
  stats st' = stats st /\
  qualityChangeEvents tr = [].

(** The model [id] went to quality [q]: its entry is marked loaded at [q],
    elements other than its own are as they were, one quality change was
    counted and one notified. *)
Definition loadsAt (id : string) (q : Quality) (st st' : State) (tr : list Action) : Prop :=
  exists cfg,
    activeModels st !! id = Some cfg /\
    is_Some (pathOf cfg q) /\
    activeModels st' = <[id := loaded q cfg]> (activeModels st) /\
    (forall h, element cfg <> Some h -> document st' !! h = document st !! h) /\
    qualityChanges (stats st') = qualityChanges (stats st) + 1 /\
    qualityChangeEvents tr = [(currentQuality cfg, q)].

(** No model is at a higher level in [st'] than in [st]: a registered
    model stays registered at its level or below, a model at ['low'] or
    unloaded is as it was, and none is added. *)
Definition notRaised (st st' : State) : Prop :=
  forall id,
    match activeModels st !! id with
    | Some cfg =>
        exists cfg',
          activeModels st' !! id = Some cfg' /\
          (qualityLevel (currentQuality cfg') <= qualityLevel (currentQuality cfg))%nat /\
          ((qualityLevel (currentQuality cfg) <= 1)%nat -> cfg' = cfg)
    | None => activeModels st' !! id = None
    end.

(** *** The reactions to a performance issue

    [ids] stands for the keys of [activeModels] in the order in which the
    [Map] iterates: the ids in the order of their first registration. *)
Section Reactions.
Variable env : Env.

(** One round of the loop of [reduceAllModelQuality] *)
Definition reduceQuality (entityId : string) : M unit :=
  read st ;;
  match activeModels st !! entityId with
  | Some cfg =>
      match currentQuality cfg with
      | Some High => changeModelQuality env entityId Medium
      | Some Medium => changeModelQuality env entityId Low
      | _ => Eff.ret tt
      end
  | None => Eff.ret tt
  end.

(** [reduceAllModelQuality], when nothing else runs while it awaits *)
Definition reduceAllModelQuality (ids : list string) : M unit :=
  Eff.forEach reduceQuality ids.

(** [Array.from(this.activeModels.entries())] *)
Definition entriesOf (ids : list string) (st : State) : list (string * ModelConfig) :=
  omap (fun id => pair id <$> activeModels st !! id) ids.

Definition byPriority (ic : string * ModelConfig) : Z := priority (snd ic).

(** [Math.ceil(n * 0.3)]: the double [0.3] lies below three tenths by less
    than half a unit in the last place, so the product rounds to the
    integer where three tenths of [n] is one. *)
Definition threeTenthsCeil (n : nat) : nat := Nat.div (3 * n + 9) 10.

(** The models [reduceActiveModels] picks from: the loaded ones, by
    ascending priority. *)
Definition loadedByPriority (ids : list string) (st : State) : list (string * ModelConfig) :=
  ModelCache.stableSort (ModelCache.leBy byPriority)
    (filter (fun ic => isLoaded (snd ic)) (entriesOf ids st)).

(** [reduceActiveModels] *)
Definition reduceActiveModels (ids : list string) : M unit :=
  read st ;;
  let activeModels := loadedByPriority ids st in
  let toUnload := threeTenthsCeil (length activeModels) in
  Eff.forEach (fun ic => unloadModel (fst ic)) (take toUnload activeModels).

End Reactions.

(** *** Following the camera *)

Record Vec3 := mkVec3 {
  vec_x : JsNum.num;
  vec_y : JsNum.num;
  vec_z : JsNum.num
}.

(** The [cameraData] argument: its [distance] and [position] properties,
    where present. *)
Record CameraData := mkCameraData {
  cd_distance : option JsNum.num;
  cd_position : option Vec3
}.

(** A number is falsy when it is zero or NaN. *)
Definition truthy (x : JsNum.num) : bool :=
  match x with
  | JsNum.Fin q => negb (Qeq_bool q 0)
  | JsNum.NaN => false
  | _ => true
  end.

#[global] Instance Quality_eq_dec : EqDecision Quality.
Proof. solve_decision. Defined.

(** What [updateModelLOD] does beside what the manager's own methods do:
    its warning, and its call of [scheduleOptimization], whose timer is
    not part of the manager's state here. *)
Inductive TrackingAction :=
| Manager (a : Action)
| WarnNotRegistered (entityId : string)
| ScheduleOptimization.

Definition T (A : Type) : Type := Eff.M State TrackingAction A.

Definition manager {A} (m : M A) : T A :=
  Eff.zoom (fun st => st) (fun st' _ => st') Manager m.

Definition seen (at_ : Z) (vis : bool) (cfg : ModelConfig) : ModelConfig :=
  {| entityId := entityId cfg; paths := paths cfg; lodDistances := lodDistances cfg;
     currentQuality := currentQuality cfg; isLoaded := isLoaded cfg; isVisible := vis;
     lastUpdate := at_; memoryUsage := memoryUsage cfg;
     priority := priority cfg; preload := preload cfg; element := element cfg |}.

Section Tracking.
Variable env : Env.
(** The arithmetic of doubles, with [Math.sqrt] *)
Variable ar : PerformanceMonitor.Arith.
Variable sqrt : JsNum.num -> JsNum.num.
(** [element.object3D.position], for the elements that have one *)
Variable positionOf : string -> option Vec3.

Definition calculateDistance (pos1 pos2 : option Vec3) : JsNum.num :=
  match pos1, pos2 with
  | Some p1, Some p2 =>
      let dx := PerformanceMonitor.fsub ar (vec_x p1) (vec_x p2) in
      let dy := PerformanceMonitor.fsub ar (vec_y p1) (vec_y p2) in
      let dz := PerformanceMonitor.fsub ar (vec_z p1) (vec_z p2) in
      sqrt (PerformanceMonitor.fadd ar
              (PerformanceMonitor.fadd ar (PerformanceMonitor.fmul ar dx dx)
                 (PerformanceMonitor.fmul ar dy dy))
              (PerformanceMonitor.fmul ar dz dz))
  | _, _ => JsNum.PosInf
  end.

(** [isModelVisible]; an element is an A-Frame entity and has its
    [object3D]. *)
Definition isModelVisible (el : option string) (st : State) : bool :=
  match el with
  | None => false
  | Some handle => visible (elementState handle st)
  end.

(** [cameraData.distance || this.calculateDistance(cameraData.position,
    config.element?.object3D?.position)] *)
Definition lodDistance (cameraData : CameraData) (cfg : ModelConfig) : JsNum.num :=
  let calculated :=
    calculateDistance (cd_position cameraData)
      (match element cfg with
       | Some handle => positionOf handle
       | None => None
       end) in
  match cd_distance cameraData with
  | Some d => if truthy d then d else calculated
  | None => calculated
  end.

(** [updateModelLOD], when nothing else runs while it awaits; [updatedAt]
    is what [Date.now()] returns after the quality change.  The entry
    under the id is the object the method holds. *)
Definition updateModelLOD (entityId : string) (cameraData : CameraData) (updatedAt : Z)
    : T unit :=
  read st ;;
  match activeModels st !! entityId with
  | None => Eff.emit (WarnNotRegistered entityId)
  | Some cfg =>
      let targetQuality :=
        determineQuality (lodDistance cameraData cfg) (lodDistances cfg) in
      (if decide (Some targetQuality = currentQuality cfg) then Eff.ret tt
       else manager (changeModelQuality env entityId targetQuality)) ;;;
      Eff.modify (fun st =>
        match activeModels st !! entityId with
        | Some held =>
            with_activeModels
              (<[entityId := seen updatedAt (isModelVisible (element held) st) held]>
                 (activeModels st)) st
        | None => st
        end) ;;;
      read st' ;;
      if autoOptimize (config st') && negb (isOptimizing st')
      then Eff.emit ScheduleOptimization
      else Eff.ret tt
  end.

End Tracking.

(** The calls of [scheduleOptimization] in a trace *)
Fixpoint scheduled (tr : list TrackingAction) : nat :=
  match tr with
  | [] => 0
  | ScheduleOptimization :: tr' => S (scheduled tr')
  | _ :: tr' => scheduled tr'
  end.

(** The manager's own actions in a trace *)
Fixpoint managerActions (tr : list TrackingAction) : list Action :=
  match tr with
  | [] => []
  | Manager a :: tr' => a :: managerActions tr'
  | _ :: tr' => managerActions tr'
  end.

(** *** [handlePerformanceIssue] and the reduction it starts

    [handlePerformanceIssue] calls [reduceAllModelQuality] and does not
    await it.  The reduction runs at once up to its first [await]: the
    loop passes the models it has nothing to do for, calls
    [changeModelQuality] for the first model at ['high'] or ['medium'],
    and that call runs through [preloadModel] into [ModelCache.get], up to
    the answer of a hit or the invocation of the loader.  The handler then
    goes on with the other recommendations; the rest of the reduction runs
    after the handler has returned.  No method removes an entry of
    [activeModels], and none is registered in between: the object a
    suspended call holds is the entry under its id. *)

(** What [changeModelQuality] holds while it awaits [preloadModel] *)
Record Awaited := mkAwaited {
  aw_entityId : string;
  aw_target : Quality;
  aw_previous : option Quality;
  aw_path : string;
  aw_lookup : ModelCache.Lookup
}.

(** What [reduceAllModelQuality] holds while it awaits
    [changeModelQuality]: the call it awaits, if that call is suspended
    itself, and the ids the loop has not come to. *)
Record Suspended := mkSuspended {
  sus_change : option Awaited;
  sus_rest : list string
}.

Section Handling.
Variable env : Env.

Definition qualityMetadata (q : Quality) : ModelCache.Metadata :=
  {| ModelCache.md_quality := Some (qualityName q); ModelCache.md_loadTime := None |}.

(** [changeModelQuality] up to its [await]; [None] when it returns
    without awaiting. *)
Definition changeModelQuality_begin (entityId : string) (targetQuality : Quality)
    : M (option Awaited) :=
  read st ;;
  match activeModels st !! entityId with
  | None => Eff.ret None
  | Some cfg =>
      match pathOf cfg targetQuality with
      | None => Eff.ret None
      | Some path =>
          r <- onCache (ModelCache.get_begin (now env) (cacheKey entityId targetQuality)) ;;
          Eff.ret (Some {| aw_entityId := entityId; aw_target := targetQuality;
                           aw_previous := currentQuality cfg; aw_path := path;
                           aw_lookup := r |})
      end
  end.

(** The rest of [changeModelQuality], once the promise of [preloadModel]
    has settled *)
Definition changeModelQuality_resume (a : Awaited) : M unit :=
  r <- onCache (ModelCache.get_finish (now env) (loadTime env)
                  (cacheKey (aw_entityId a) (aw_target a)) (aw_lookup a)
                  (gltf env (aw_path a)) (qualityMetadata (aw_target a))) ;;
  match r with
  | Ok m =>
      read st ;;
      match activeModels st !! aw_entityId a with
      | Some held =>
          match element held with
          | Some handle => applyModelToElement handle m (aw_target a)
          | None => Eff.ret tt
          end ;;;
          Eff.modify (fun st =>
            with_activeModels
              (<[aw_entityId a := loaded (aw_target a) held]> (activeModels st)) st) ;;;
          Eff.modify count_qualityChange ;;;
          Eff.emit (NotifyQualityChange (aw_entityId a) (aw_previous a) (aw_target a) m)
      | None => Eff.ret tt
      end
  | Err e =>
      Eff.emit (LogQualityError (aw_entityId a) (aw_target a) e) ;;;
      match aw_target a with
      | High => changeModelQuality env (aw_entityId a) Medium
      | Medium => changeModelQuality env (aw_entityId a) Low
      | Low => Eff.ret tt
      end
  end.

(** [reduceAllModelQuality] up to its first [await]; [None] when the loop
    ends without one. *)
Fixpoint reduceAllModelQuality_begin (ids : list string) : M (option Suspended) :=
  match ids with
  | [] => Eff.ret None
  | entityId :: rest =>
      read st ;;
      match activeModels st !! entityId with
      | Some cfg =>
          match currentQuality cfg with
          | Some High =>
              a <- changeModelQuality_begin entityId Medium ;;
              Eff.ret (Some {| sus_change := a; sus_rest := rest |})
          | Some Medium =>
              a <- changeModelQuality_begin entityId Low ;;
              Eff.ret (Some {| sus_change := a; sus_rest := rest |})
          | _ => reduceAllModelQuality_begin rest
          end
      | None => reduceAllModelQuality_begin rest
      end
  end.

(** The rest of a suspended reduction, run to its end *)
Definition reduceAllModelQuality_resume (s : Suspended) : M unit :=
  match sus_change s with
  | Some a => changeModelQuality_resume a
  | None => Eff.ret tt
  end ;;;
  reduceAllModelQuality env (sus_rest s).

(** [handlePerformanceIssue]: what runs before it returns; the result is
    the reductions it leaves suspended. *)
Fixpoint handlePerformanceIssue (ids : list string)
    (recommendations : list PerformanceMonitor.Recommendation) : M (list Suspended) :=
  match recommendations with
  | [] => Eff.ret []
  | recommendation :: others =>
      started <-
        match recommendation with
        | PerformanceMonitor.reduce_model_quality =>
            s <- reduceAllModelQuality_begin ids ;;
            Eff.ret (match s with Some s' => [s'] | None => [] end)
        | PerformanceMonitor.clear_cache =>
            onCache ModelCache.clear ;;; Eff.ret []
        | PerformanceMonitor.reduce_active_models =>
            reduceActiveModels ids ;;; Eff.ret []
        | _ => Eff.ret []
        end ;;
      more <- handlePerformanceIssue ids others ;;
      Eff.ret (started ++ more)
  end.

End Handling.

(** *** The optimization pass *)

(** Every model of [st] is in [st'] as it was or loaded at a lower level;
    no model is added or removed. *)
Definition lowered (st st' : State) : Prop :=
  forall id,
    match activeModels st !! id with
    | Some cfg =>
        activeModels st' !! id = Some cfg \/
        exists q, (qualityLevel (Some q) < qualityLevel (currentQuality cfg))%nat /\
                  activeModels st' !! id = Some (loaded q cfg)
    | None => activeModels st' !! id = None
    end.

Section Optimizing.
Variable env : Env.

(** One round of the first loop of [applyPerformanceOptimizations]: the
    object the loop holds is the entry under [key], and the quality is
    changed for the [entityId] that object carries. *)
Definition lowerVisible (key : string) : M unit :=
  read st ;;
  match activeModels st !! key with
  | Some cfg =>
      match currentQuality cfg with
      | Some High => changeModelQuality env (entityId cfg) Medium
      | Some Medium => changeModelQuality env (entityId cfg) Low
      | _ => Eff.ret tt
      end
  | None => Eff.ret tt
  end.

(** One round of its second loop; [later] is what [Date.now()] returned
    after the first. *)
Definition unloadIdle (later : Z) (key : string) : M unit :=
  read st ;;
  match activeModels st !! key with
  | Some cfg =>
      if negb (isVisible cfg) && (30000 <? later - lastUpdate cfg)
      then unloadModel key
      else Eff.ret tt
  | None => Eff.ret tt
  end.

(** [applyPerformanceOptimizations], when nothing else runs while it
    awaits *)
Definition applyPerformanceOptimizations (ids : list string) (later : Z) : M unit :=
  read st ;;
  let activeModels :=
    filter (fun ic => isVisible (snd ic) && isLoaded (snd ic)) (entriesOf ids st) in
  Eff.forEach (fun ic => lowerVisible (fst ic)) activeModels ;;;
  Eff.forEach (unloadIdle later) ids.

End Optimizing.

End LODManager.

(** ** DeviceDetector: the classification of the device *)
Module DeviceDetector.

Inductive Tier := tier_low | tier_medium | tier_high.

Record Gpu := mkGpu {
  renderer : string;
  vendor : string
}.

Record WebGLCapabilities := mkWebGL {
  maxTextureSize : JsNum.num;
  supportedFormats : list string
}.

(** [s.includes(sub)] *)
Definition includes (s sub : string) : bool :=
  match String.index 0 sub s with
  | Some _ => true
  | None => false
  end.

Section Classification.
(** [String.prototype.toLowerCase] *)
Variable toLowerCase : string -> string.

(** The points [classifyDevice] gives for the memory, in MB *)
Definition memoryPoints (memory : JsNum.num) : Z :=
  if JsNum.leb (JsNum.ofZ 6144) memory then 3
  else if JsNum.leb (JsNum.ofZ 3072) memory then 2
  else if JsNum.leb (JsNum.ofZ 1536) memory then 1
  else 0.

(** The points it gives for the GPU, by the name of the renderer *)
Definition gpuPoints (gpu : Gpu) : Z :=
  let renderer := toLowerCase (renderer gpu) in
  if includes renderer "adreno 7" || includes renderer "mali-g7"
     || includes renderer "apple a1" || includes renderer "apple m" then 3
  else if includes renderer "adreno 6" || includes renderer "mali-g5"
          || includes renderer "apple a1" then 2
  else if includes renderer "adreno 5" || includes renderer "mali-g"
          || includes renderer "apple a" then 1
  else 0.

(** The points it gives for the WebGL capabilities *)
Definition webglPoints (webglCapabilities : WebGLCapabilities) : Z :=
  (if JsNum.leb (JsNum.ofZ 4096) (maxTextureSize webglCapabilities) then 2
   else if JsNum.leb (JsNum.ofZ 2048) (maxTextureSize webglCapabilities) then 1
   else 0)
  + (if (3 <? length (supportedFormats webglCapabilities))%nat then 1 else 0).

Definition classifyDevice (memory : JsNum.num) (gpu : Gpu)
    (webglCapabilities : WebGLCapabilities) : Tier :=
  let score := memoryPoints memory + gpuPoints gpu + webglPoints webglCapabilities in
  if score >=? 7 then tier_high
  else if score >=? 4 then tier_medium
  else tier_low.

End Classification.

(** The tiers in ascending order *)
Definition tierRank (t : Tier) : nat :=
  match t with
  | tier_low => 0
  | tier_medium => 1
  | tier_high => 2
  end.

End DeviceDetector.

(** ** ModelOptimizationSystem: the registry above the manager *)
Module ModelOptimizationSystem.

(** An entry of [registeredModels] *)
Record Registration := mkRegistration {
  reg_paths : gmap string string;
  reg_type : string;
  reg_options : LODManager.Options;
  registeredAt : Z
}.

(** The system, as far as registration and tracking go.  [lodManager] is
    the manager [initialize] created; the methods below leave at once when
    the system is not initialized. *)
Record System := mkSystem {
  lodManager : LODManager.State;
  isInitialized : bool;
  registeredModels : gmap string Registration
}.

Inductive Action :=
| Tracking (a : LODManager.TrackingAction)
| WarnNotInitialized.

Definition M (A : Type) : Type := Eff.M System Action A.

Definition with_lodManager (st : LODManager.State) (sys : System) : System :=
  {| lodManager := st; isInitialized := isInitialized sys;
     registeredModels := registeredModels sys |}.

Definition with_registeredModels (r : gmap string Registration) (sys : System) : System :=
  {| lodManager := lodManager sys; isInitialized := isInitialized sys;
     registeredModels := r |}.

(** Run a method of [this.lodManager]. *)
Definition onManager {A} (m : LODManager.T A) : M A :=
  Eff.zoom lodManager with_lodManager Tracking m.

(** [unregisterModel] *)
Definition unregisterModel (entityId : string) : M unit :=
  read sys ;;
  if negb (isInitialized sys) then Eff.ret tt
  else
    onManager (LODManager.manager (LODManager.unloadModel entityId)) ;;;
    Eff.modify (fun sys =>
      with_registeredModels (delete entityId (registeredModels sys)) sys).

Section Tracking.
Variable env : LODManager.Env.
Variable ar : PerformanceMonitor.Arith.
Variable sqrt : JsNum.num -> JsNum.num.
Variable positionOf : string -> option LODManager.Vec3.

(** [updateModelLOD] of the system *)
Definition updateModelLOD (entityId : string) (cameraData : LODManager.CameraData)
    (updatedAt : Z) : M unit :=
  read sys ;;
  if negb (isInitialized sys) then Eff.emit WarnNotInitialized
  else
    onManager (LODManager.updateModelLOD env ar sqrt positionOf entityId cameraData updatedAt).

End Tracking.

(** What [getModelInfo] returns beside the registration itself *)
Record ModelInfo := mkModelInfo {
  info_registration : Registration;
  info_currentState : option LODManager.ModelConfig;
  info_isActive : bool;
  info_isLoaded : bool;
  info_currentQuality : option LODManager.Quality
}.

(** [getModelInfo]; [None] is [null]. *)
Definition getModelInfo (entityId : string) (sys : System) : option ModelInfo :=
  match registeredModels sys !! entityId with
  | None => None
  | Some registeredInfo =>
      let lodInfo := LODManager.activeModels (lodManager sys) !! entityId in
      Some {| info_registration := registeredInfo;
              info_currentState := lodInfo;
              info_isActive := match lodInfo with Some _ => true | None => false end;
              info_isLoaded :=
                match lodInfo with
                | Some cfg => LODManager.isLoaded cfg
                | None => false
                end;
              info_currentQuality :=
                match lodInfo with
                | Some cfg => LODManager.currentQuality cfg
                | None => None
                end |}
  end.

End ModelOptimizationSystem.

(** ** Sample values *)
Module Examples.

(** One mesh of a single vertex: 12 bytes of positions, 14 with overhead. *)
Definition vertex : ModelCache.Model :=
  ModelCache.Scene "vertex"
    (ModelCache.Obj
       (Some (ModelCache.mkGeometry (Some 1%N) None None None)) [] []).

Definition offline : ModelCache.JsError := ModelCache.Error "offline".

Definition emptyCache : ModelCache.Cache := ModelCache.create ModelCache.defaultConfig.

(** A monitor as its constructor leaves it, in a store of its own. *)
Definition monitor : PerformanceMonitor.Monitor :=
  fst (PerformanceMonitor.create PerformanceMonitor.emptyStore).

Definition monitorStore : PerformanceMonitor.Store :=
  snd (PerformanceMonitor.create PerformanceMonitor.emptyStore).

(** ["A"] and ["B"] stored, then ["B"] read twice and ["A"] once: ["B"] is
    the least recently used, ["A"] the least often used. *)
Definition usedCache : ModelCache.Cache :=
  match
    (ModelCache.set 0 "A" vertex ModelCache.noMetadata ;;;
     ModelCache.set 1 "B" vertex ModelCache.noMetadata ;;;
     ModelCache.get_begin 2 "B" ;;;
     ModelCache.get_begin 3 "B" ;;;
     ModelCache.get_begin 4 "A") emptyCache
  with
  | Some (_, c, _) => c
  | None => emptyCache
  end.

(** The empty cache after ["A"] was stored. *)
Definition oneEntry : ModelCache.Cache :=
  match ModelCache.set 0 "A" vertex ModelCache.noMetadata emptyCache with
  | Some (_, c, _) => c
  | None => emptyCache
  end.

(** A world in which only ["low.glb"] can be fetched. *)
Definition onlyLow : LODManager.Env :=
  {| LODManager.gltf := fun path =>
       if String.eqb path "low.glb" then ModelCache.Ok vertex else ModelCache.Err offline;
     LODManager.now := 0;
     LODManager.loadTime := 0;
     LODManager.recommendedSettings :=
       LODManager.mkSettings LODManager.defaultDistances 30 10 (100 * 1024 * 1024) |}.

Definition threePaths : gmap string string :=
  <["high" := "high.glb"]> (<["medium" := "medium.glb"]> (<["low" := "low.glb"]> ∅)).

Definition highAndLow : gmap string string :=
  <["high" := "high.glb"]> (<["low" := "low.glb"]> ∅).

Definition noPreload : LODManager.Options :=
  LODManager.mkOptions None None (Some false) None.

(** A manager with no model registered, for a document with one element. *)
Definition freshManager : LODManager.State :=
  LODManager.create None None
    {["hero" := {| LODManager.mesh := None; LODManager.visible := true |}]}.

(** The state a computation ends in, or [st] if it does not end. *)
Definition after {A} (m : LODManager.M A) (st : LODManager.State) : LODManager.State :=
  match m st with
  | Some (_, st', _) => st'
  | None => st
  end.

(** An arithmetic that computes in the rationals, for the examples:
    [Math.round] rounds half up. *)
Definition rational (f : Q -> Q -> Q) (a b : JsNum.num) : JsNum.num :=
  match a, b with
  | JsNum.Fin x, JsNum.Fin y => JsNum.Fin (Qred (f x y))
  | _, _ => JsNum.NaN
  end.

Definition exact : PerformanceMonitor.Arith :=
  {| PerformanceMonitor.fadd := rational Qplus;
     PerformanceMonitor.fsub := rational Qminus;
     PerformanceMonitor.fmul := rational Qmult;
     PerformanceMonitor.fdiv := fun a b =>
       match b with
       | JsNum.Fin y => if Qeq_bool y 0 then JsNum.NaN else rational Qdiv a b
       | _ => JsNum.NaN
       end;
     PerformanceMonitor.fround := fun a =>
       match a with
       | JsNum.Fin x => JsNum.ofZ (Qnum (x + (1 # 2)) / Z.pos (Qden (x + (1 # 2))))
       | _ => a
       end |}.

(** A monitor as its constructor leaves it. *)
Definition idleMonitor : PerformanceMonitor.Running :=
  PerformanceMonitor.construct PerformanceMonitor.emptyStore.

(** The idle monitor after [startMonitoring] at time 1000. *)
Definition activeMonitor : PerformanceMonitor.Running :=
  match PerformanceMonitor.startMonitoring exact (JsNum.ofZ 1000) 0 1%positive idleMonitor with
  | Some (_, w, _) => w
  | None => idleMonitor
  end.

Definition busyManager : LODManager.State :=
  LODManager.with_modelCache usedCache freshManager.

Definition heroRegistered (paths : gmap string string) : LODManager.State :=
  after (LODManager.registerModel onlyLow "hero" paths noPreload) freshManager.

(** Lower case for the letters of ASCII, which is what [toLowerCase] does
    to a string of ASCII characters. *)
Definition lowerAscii (c : Ascii.ascii) : Ascii.ascii :=
  let n := Ascii.nat_of_ascii c in
  if (65 <=? n)%nat && (n <=? 90)%nat then Ascii.ascii_of_nat (n + 32) else c.

Fixpoint lowerCase (s : string) : string :=
  match s with
  | EmptyString => EmptyString
  | String c s' => String (lowerAscii c) (lowerCase s')
  end.

(** A desktop with a discrete GPU, 8 GB and full WebGL capabilities *)
Definition desktopGpu : DeviceDetector.Gpu :=
  {| DeviceDetector.renderer := "ANGLE (NVIDIA GeForce RTX 3080 Direct3D11)";
     DeviceDetector.vendor := "Google Inc. (NVIDIA)" |}.

Definition desktopWebGL : DeviceDetector.WebGLCapabilities :=
  {| DeviceDetector.maxTextureSize := JsNum.ofZ 16384;
     DeviceDetector.supportedFormats := ["jpg"; "png"; "webp"; "dxt"] |}.

(** The entry of ["hero"] in [heroRegistered threePaths]. *)
Definition heroConfig : LODManager.ModelConfig :=
  LODManager.newModelConfig "hero" threePaths noPreload
    (after (LODManager.initialize onlyLow) freshManager).

(** ["hero"] registered and shown at ['medium']. *)
Definition heroAtMedium : LODManager.State :=
  LODManager.with_activeModels
    (<["hero" := LODManager.loaded LODManager.Medium heroConfig]>
       (LODManager.activeModels (heroRegistered threePaths)))
    (heroRegistered threePaths).

(** A system that registered ["hero"] with three paths. *)
Definition heroSystem : ModelOptimizationSystem.System :=
  {| ModelOptimizationSystem.lodManager := heroRegistered threePaths;
     ModelOptimizationSystem.isInitialized := true;
     ModelOptimizationSystem.registeredModels :=
       {["hero" := {| ModelOptimizationSystem.reg_paths := threePaths;
                      ModelOptimizationSystem.reg_type := "prop";
                      ModelOptimizationSystem.reg_options := noPreload;
                      ModelOptimizationSystem.registeredAt := 0 |}]} |}.

(** A camera that reports its distance only. *)
Definition farAway : LODManager.CameraData :=
  {| LODManager.cd_distance := Some (JsNum.ofZ 20); LODManager.cd_position := None |}.

End Examples.

(** * Properties *)

(** ** Comparisons of JavaScript numbers *)
Section JsNumFacts.
Import JsNum.

Lemma ltb_leb_false a b : ltb a b = true -> leb b a = false.
Proof.
  destruct a, b; simpl; try discriminate; try reflexivity.
  intros H. now apply negb_true_iff in H.
Qed.

Lemma ltb_defined a b : ltb a b = true -> a <> NaN /\ b <> NaN.
Proof. destruct a, b; simpl; try discriminate; split; discriminate. Qed.

Lemma leb_defined a b : leb a b = true -> a <> NaN /\ b <> NaN.
Proof. destruct a, b; simpl; try discriminate; split; discriminate. Qed.

Lemma leb_false_ltb a b : a <> NaN -> b <> NaN -> leb a b = false -> ltb b a = true.
Proof.
  destruct a, b; simpl; try discriminate; try reflexivity; try congruence.
  intros _ _ H. now rewrite H.
Qed.

Lemma leb_refl a : a <> NaN -> leb a a = true.
Proof.
  destruct a; simpl; try reflexivity; try congruence.
  intros _. apply Qle_bool_iff, Qle_refl.
Qed.
End JsNumFacts.

(** ** The quality decision *)
Section Decision.
Import LODManager.

Lemma determineQuality_high d l :
  determineQuality d l = High <-> JsNum.leb d (near l) = true.
Proof.
  unfold determineQuality. split.
  - destruct (JsNum.leb d (near l)); [reflexivity |].
    destruct (JsNum.leb d (medium l)); discriminate.
  - intros ->. reflexivity.
Qed.

Lemma determineQuality_medium d l :
  near l <> JsNum.NaN ->
  determineQuality d l = Medium <->
  JsNum.ltb (near l) d = true /\ JsNum.leb d (medium l) = true.
Proof.
  intros Hn. unfold determineQuality. split.
  - destruct (JsNum.leb d (near l)) eqn:E1; [discriminate |].
    destruct (JsNum.leb d (medium l)) eqn:E2; [| discriminate].
    intros _. split; [| reflexivity].
    apply leb_false_ltb; [| exact Hn | exact E1].
    apply (leb_defined _ _ E2).
  - intros [H1 H2]. rewrite (ltb_leb_false _ _ H1), H2. reflexivity.
Qed.

Lemma determineQuality_low d l :
  near l <> JsNum.NaN ->
  determineQuality d l = Low <->
  JsNum.leb d (near l) = false /\
  ~ (JsNum.ltb (near l) d = true /\ JsNum.leb d (medium l) = true).
Proof.
  intros Hn. unfold determineQuality. split.
  - destruct (JsNum.leb d (near l)) eqn:E1; [discriminate |].
    destruct (JsNum.leb d (medium l)) eqn:E2; [discriminate |].
    intros _. split; [reflexivity |]. intros [_ H]. discriminate.
  - intros [E1 H]. rewrite E1.
    destruct (JsNum.leb d (medium l)) eqn:E2; [| reflexivity].
    exfalso. apply H. split; [| reflexivity].
    apply leb_false_ltb; [| exact Hn | exact E1].
    apply (leb_defined _ _ E2).
Qed.

(** C3. With thresholds [near < medium < far], [determineQuality] answers
    High exactly when [distance <= near], Medium exactly when
    [near < distance <= medium], and Low exactly in the remaining cases;
    a distance on a threshold gets the higher quality; and with the
    thresholds 3, 8, 15 the distances 1, 5 and 20 give High, Medium and
    Low. *)
Theorem determineQuality_decision_rule (d : JsNum.num) (l : LODDistances) :
  JsNum.ltb (near l) (medium l) = true ->
  JsNum.ltb (medium l) (far l) = true ->
  (determineQuality d l = High <-> JsNum.leb d (near l) = true) /\
  (determineQuality d l = Medium <->
     JsNum.ltb (near l) d = true /\ JsNum.leb d (medium l) = true) /\
  (determineQuality d l = Low <->
     JsNum.leb d (near l) = false /\
     ~ (JsNum.ltb (near l) d = true /\ JsNum.leb d (medium l) = true)) /\
  determineQuality (near l) l = High /\
  determineQuality (medium l) l = Medium /\
  determineQuality (JsNum.ofZ 1) defaultDistances = High /\
  determineQuality (JsNum.ofZ 5) defaultDistances = Medium /\
  determineQuality (JsNum.ofZ 20) defaultDistances = Low.
Proof.
  intros Hnm Hmf.
  destruct (ltb_defined _ _ Hnm) as [Hn Hm].
  split; [apply determineQuality_high |].
  split; [apply determineQuality_medium, Hn |].
  split; [apply determineQuality_low, Hn |].
  split; [apply determineQuality_high, leb_refl, Hn |].
  split; [| repeat split; reflexivity].
  apply determineQuality_medium; [exact Hn |].
  split; [exact Hnm | apply leb_refl, Hm].
Qed.

Lemma determineQuality_decision_rule_witness :
  JsNum.ltb (near defaultDistances) (medium defaultDistances) = true /\
  JsNum.ltb (medium defaultDistances) (far defaultDistances) = true /\
  determineQuality (JsNum.ofZ 8) defaultDistances = Medium.
Proof.
  split; [reflexivity | split; [reflexivity |]].
  assert (Hnm : JsNum.ltb (near defaultDistances) (medium defaultDistances) = true)
    by reflexivity.
  assert (Hmf : JsNum.ltb (medium defaultDistances) (far defaultDistances) = true)
    by reflexivity.
  destruct (determineQuality_decision_rule (JsNum.ofZ 8) defaultDistances Hnm Hmf)
    as (_ & HM & _).
  apply HM. split; reflexivity.
Defined.
End Decision.

(** ** The cache *)
Section CacheFacts.
Import ModelCache.

Lemma has_delete_ne {V} (k k' : string) (m : list (string * V)) :
  k' <> k -> JsMap.has k' (JsMap.delete k m) = JsMap.has k' m.
Proof.
  intros Hne. unfold JsMap.has.
  induction m as [| [k0 v0] m IH]; simpl; [reflexivity |].
  destruct (String.eqb k k0) eqn:E.
  - apply String.eqb_eq in E. subst k0.
    destruct (String.eqb k' k) eqn:E'; [| reflexivity].
    apply String.eqb_eq in E'. contradiction.
  - simpl. destruct (String.eqb k' k0); [reflexivity | exact IH].
Qed.

Lemma in_removeFirst k k' a :
  k' ∈ JsArray.removeFirst k a -> k' ∈ a.
Proof.
  induction a as [| x a IH]; simpl; [tauto |].
  destruct (String.eqb k x); rewrite ?elem_of_cons; tauto.
Qed.

Lemma removeFirst_NoDup k a : NoDup a -> NoDup (JsArray.removeFirst k a).
Proof.
  induction 1 as [| x a Hx Hnd IH]; simpl; [constructor |].
  destruct (String.eqb k x); [exact Hnd |].
  constructor; [| exact IH]. intros Hin. apply Hx. eapply in_removeFirst, Hin.
Qed.

Lemma removeFirst_not_in k a : NoDup a -> k ∉ JsArray.removeFirst k a.
Proof.
  induction 1 as [| x a Hx Hnd IH]; simpl; [apply not_elem_of_nil |].
  destruct (String.eqb k x) eqn:E.
  - apply String.eqb_eq in E. subst x. exact Hx.
  - rewrite elem_of_cons. intros [-> | Hin]; [| tauto].
    rewrite String.eqb_refl in E. discriminate.
Qed.

Lemma loaderCalls_app t1 t2 : loaderCalls (t1 ++ t2) = loaderCalls t1 ++ loaderCalls t2.
Proof.
  induction t1 as [| a t1 IH]; simpl; [reflexivity |].
  destruct a; simpl; rewrite ?IH; reflexivity.
Qed.

Lemma orderOk_drop k e c : orderOk c -> orderOk (drop k e c).
Proof.
  intros [Hnd Hin]. split; simpl.
  - apply removeFirst_NoDup, Hnd.
  - intros k' Hk'. rewrite has_delete_ne.
    + apply Hin. eapply in_removeFirst, Hk'.
    + intros ->. eapply removeFirst_not_in; eauto.
Qed.

Lemma orderOk_clear c : orderOk (with_currentSize 0 (with_accessOrder [] (with_entries [] c))).
Proof. split; simpl; [constructor |]. intros k Hk. inversion Hk. Qed.

Lemma ensureSpace_loop_eq fuel req c :
  ensureSpace_loop fuel req c =
  if needsSpace req c then
    match accessOrder c with
    | [] => Some (tt, with_currentSize 0 (with_accessOrder [] (with_entries [] c)), [WarnReset])
    | _ :: _ =>
        match fuel with
        | O => None
        | S fuel' => (evictLeastUsed ;;; ensureSpace_loop fuel' req) c
        end
    end
  else Some (tt, c, []).
Proof.
  destruct fuel; simpl; unfold Eff.withState;
    destruct (needsSpace req c); try reflexivity;
    destruct (accessOrder c); reflexivity.
Qed.

Lemma evictLeastUsed_head k rest e c :
  accessOrder c = k :: rest ->
  JsMap.get k (entries c) = Some e ->
  evictLeastUsed c = Some (tt, drop k e c, [NotifyEviction k e lru]).
Proof.
  intros Ho He. unfold evictLeastUsed, Eff.withState. rewrite Ho, He. reflexivity.
Qed.

Lemma has_get {V} k (m : list (string * V)) :
  JsMap.has k m = true -> exists v, JsMap.get k m = Some v.
Proof. unfold JsMap.has. destruct (JsMap.get k m); [eauto | discriminate]. Qed.

(** Under [orderOk] the eviction loop ends within the fuel [ensureSpace]
    gives it, invokes no loader and keeps [orderOk]. *)
Lemma ensureSpace_loop_returns fuel : forall req c,
  orderOk c -> (length (accessOrder c) <= fuel)%nat ->
  exists c' tr,
    ensureSpace_loop fuel req c = Some (tt, c', tr) /\
    orderOk c' /\ loaderCalls tr = [] /\ config c' = config c.
Proof.
  induction fuel as [| fuel IH]; intros req c Hok Hlen; rewrite ensureSpace_loop_eq.
  - destruct (needsSpace req c).
    + destruct (accessOrder c) eqn:Ho; [| simpl in Hlen; lia].
      eexists _, _. split; [reflexivity |].
      split; [apply orderOk_clear | split; reflexivity].
    + eexists _, _. split; [reflexivity |]. split; [exact Hok | split; reflexivity].
  - destruct (needsSpace req c).
    + destruct (accessOrder c) as [| k rest] eqn:Ho.
      * eexists _, _. split; [reflexivity |].
        split; [apply orderOk_clear | split; reflexivity].
      * destruct (has_get k (entries c)) as [e He].
        { apply Hok. rewrite Ho. left. }
        assert (Hok' : orderOk (drop k e c)) by (apply orderOk_drop, Hok).
        destruct (IH req (drop k e c) Hok') as (c' & tr & Hrun & Hc' & Htr & Hcfg).
        { simpl. rewrite Ho. simpl. rewrite String.eqb_refl. simpl in Hlen. lia. }
        unfold Eff.bind. rewrite (evictLeastUsed_head k rest e c Ho He), Hrun.
        eexists _, _. split; [reflexivity |].
        split; [exact Hc' | split; [exact Htr | exact Hcfg]].
    + eexists _, _. split; [reflexivity |]. split; [exact Hok | split; reflexivity].
Qed.
Lemma has_set {V} k key (v : V) (m : list (string * V)) :
  JsMap.has k (JsMap.set key v m) = String.eqb k key || JsMap.has k m.
Proof.
  unfold JsMap.has.
  induction m as [| [k0 v0] m IH]; simpl.
  - destruct (String.eqb k key); reflexivity.
  - destruct (String.eqb key k0) eqn:E; simpl.
    + apply String.eqb_eq in E. subst k0.
      destruct (String.eqb k key); reflexivity.
    + destruct (String.eqb k k0); [apply eq_sym, orb_true_r | exact IH].
Qed.

Lemma orderOk_store_touch key e c :
  orderOk c ->
  orderOk (with_accessOrder
             (JsArray.push (JsArray.removeFirst key (accessOrder (store key e c))) key)
             (store key e c)).
Proof.
  intros [Hnd Hin]. split; simpl; unfold JsArray.push.
  - apply NoDup_app. split; [apply removeFirst_NoDup, Hnd |].
    split; [| apply NoDup_singleton].
    intros k Hk Hk'. apply list_elem_of_singleton in Hk'. subst k.
    exact (removeFirst_not_in _ _ Hnd Hk).
  - intros k Hk. rewrite has_set. apply elem_of_app in Hk as [Hk | Hk].
    + rewrite (Hin k (in_removeFirst _ _ _ Hk)). apply orb_true_r.
    + apply list_elem_of_singleton in Hk. subst k. now rewrite String.eqb_refl.
Qed.

(** Under [orderOk], [set] returns, invokes no loader and keeps [orderOk]. *)
Lemma set_returns now key m md c :
  orderOk c ->
  exists c' tr,
    set now key m md c = Some (tt, c', tr) /\
    orderOk c' /\ loaderCalls tr = [] /\ config c' = config c.
Proof.
  intros Hok. unfold set, Eff.withState.
  destruct (tooLarge (estimateModelSize m) c).
  - eexists _, _. split; [reflexivity |]. split; [exact Hok | split; reflexivity].
  - destruct (ensureSpace_loop_returns (length (accessOrder c)) (estimateModelSize m) c Hok)
      as (c1 & tr1 & Hrun & Hok1 & Htr1 & Hcfg1); [lia |].
    unfold Eff.bind at 1. unfold ensureSpace, Eff.withState. rewrite Hrun. simpl.
    eexists _, _. split; [reflexivity |].
    split; [apply orderOk_store_touch, Hok1 |].
    split; [| exact Hcfg1].
    rewrite app_nil_r. exact Htr1.
Qed.

Lemma get_resume_returns now lt key outcome options c :
  orderOk c ->
  exists c' tr,
    get_resume now lt key outcome options c = Some (outcome, c', tr) /\
    orderOk c' /\ loaderCalls tr = [].
Proof.
  intros Hok. destruct outcome as [m | e]; simpl.
  - destruct (set_returns now key m (loadMetadata lt options) c Hok)
      as (c' & tr & Hrun & Hok' & Htr & _).
    unfold Eff.bind. rewrite Hrun. simpl.
    eexists _, _. split; [reflexivity |]. split; [exact Hok' |].
    rewrite loaderCalls_app, Htr. reflexivity.
  - eexists _, _. split; [reflexivity |]. split; [exact Hok | reflexivity].
Qed.

Lemma get_begin_miss now key c :
  has key c = false ->
  get_begin now key c = Some (Miss, count_miss (count_request c), [CallLoader key]).
Proof.
  intros Hmiss. unfold get_begin, Eff.bind, Eff.withState. simpl.
  unfold has, JsMap.has in Hmiss.
  destruct (JsMap.get key (entries c)); [discriminate | reflexivity].
Qed.

(** C8. A model whose estimated size is more than half of [maxSize] is
    not stored: [set] returns with the cache as it was (entries, size total
    and access order), having warned and evicted nothing. *)
Theorem set_rejects_oversized (now : Z) (key : string) (m : Model) (md : Metadata)
    (c : Cache) :
  maxSize (config c) < 2 * estimateModelSize m ->
  exists tr,
    set now key m md c = Some (tt, c, tr) /\
    tr = [WarnTooLarge key (estimateModelSize m)] /\
    evictions tr = [] /\
    loaderCalls tr = [].
Proof.
  intros Hbig. eexists. split; [| repeat split].
  unfold set, Eff.withState, tooLarge.
  destruct (Z.gtb_spec (2 * estimateModelSize m) (maxSize (config c))); [reflexivity | lia].
Qed.

Lemma set_rejects_oversized_witness :
  exists tr,
    set 0 "big" (Untraversable "big") noMetadata
        (create (mkConfig (8 * 1024 * 1024) 50 (8 # 10) 30000))
    = Some (tt, create (mkConfig (8 * 1024 * 1024) 50 (8 # 10) 30000), tr) /\
    tr = [WarnTooLarge "big" (5 * 1024 * 1024)].
Proof.
  destruct (set_rejects_oversized 0 "big" (Untraversable "big") noMetadata
              (create (mkConfig (8 * 1024 * 1024) 50 (8 # 10) 30000)))
    as (tr & Hrun & Htr & _).
  - vm_compute. reflexivity.
  - exists tr. split; [exact Hrun | exact Htr].
Defined.

(** C1, as the code has it. Two calls of [get] for a key that is not
    stored, the second issued while the first awaits its loader, both miss:
    the loader is invoked twice, once by each call, and each caller
    receives what its own loader settles to. *)
Theorem concurrentGets_load_per_call (now lt : Z) (key : string)
    (loader1 loader2 : Result Model) (options : Metadata) (c : Cache) :
  orderOk c ->
  has key c = false ->
  exists c' tr,
    concurrentGets now lt key loader1 loader2 options c
      = Some ((loader1, loader2), c', tr) /\
    loaderCalls tr = [key; key].
Proof.
  intros Hok Hmiss. unfold concurrentGets.
  unfold Eff.bind at 1. rewrite (get_begin_miss now key c Hmiss).
  unfold Eff.bind at 1. rewrite (get_begin_miss now key (count_miss (count_request c)) Hmiss).
  set (c2 := count_miss (count_request (count_miss (count_request c)))).
  assert (Hok2 : orderOk c2) by exact Hok.
  destruct (get_resume_returns now lt key loader1 options c2 Hok2)
    as (c3 & tr3 & Hrun3 & Hok3 & Htr3).
  destruct (get_resume_returns now lt key loader2 options c3 Hok3)
    as (c4 & tr4 & Hrun4 & _ & Htr4).
  unfold Eff.bind, get_finish. rewrite Hrun3, Hrun4. simpl.
  eexists _, _. split; [reflexivity |].
  cbn [loaderCalls]. rewrite !loaderCalls_app, Htr3, Htr4. reflexivity.
Qed.

Lemma concurrentGets_load_per_call_witness :
  exists c' tr,
    concurrentGets 0 0 "k" (Ok Examples.vertex) (Err Examples.offline) noMetadata
      Examples.emptyCache
      = Some ((Ok Examples.vertex, Err Examples.offline), c', tr) /\
    loaderCalls tr = ["k"; "k"].
Proof.
  apply concurrentGets_load_per_call.
  - split; simpl; [constructor |]. intros k Hk. inversion Hk.
  - reflexivity.
Defined.

(** C1 fails: on the empty cache, two concurrent calls for ["k"] invoke the
    loader twice, and the second caller sees its own loader's failure, not
    the model the first call loaded. *)
Lemma concurrentGets_not_deduplicated :
  exists c' tr,
    concurrentGets 0 0 "k" (Ok Examples.vertex) (Err Examples.offline) noMetadata
      Examples.emptyCache
      = Some ((Ok Examples.vertex, Err Examples.offline), c', tr) /\
    length (loaderCalls tr) = 2%nat /\
    length (loaderCalls tr) <> 1%nat /\
    Err Examples.offline <> Ok Examples.vertex.
Proof.
  eexists _, _. split; [vm_compute; reflexivity |].
  split; [reflexivity | split; discriminate].
Qed.

(** C2 fails on a key that is stored again: [set] adds the size to
    [currentSize] a second time while the map replaces the entry. *)
Theorem set_existing_key_counts_size_twice :
  exists c,
    (set 0 "a" Examples.vertex noMetadata ;;; set 1 "a" Examples.vertex noMetadata)
      Examples.emptyCache = Some (tt, c, []) /\
    entryCount c = 1 /\
    liveSize c = 14 /\
    currentSize c = 28.
Proof.
  eexists. split; [vm_compute; reflexivity |]. repeat split.
Qed.

(** The same happens without any direct [set]: two overlapping calls of
    [get] for one key both store what they loaded. *)
Lemma concurrentGets_count_size_twice :
  exists c tr,
    concurrentGets 0 0 "k" (Ok Examples.vertex) (Ok Examples.vertex) noMetadata
      Examples.emptyCache
      = Some ((Ok Examples.vertex, Ok Examples.vertex), c, tr) /\
    entryCount c = 1 /\
    liveSize c = 14 /\
    currentSize c = 28.
Proof.
  eexists _, _. split; [vm_compute; reflexivity |]. repeat split.
Qed.

End CacheFacts.

(** ** The LOD manager *)
Section ManagerFacts.
Import LODManager.
Import ModelCache(Ok, Err).

Lemma unloaded_idem cfg : unloaded (unloaded cfg) = unloaded cfg.
Proof. reflexivity. Qed.

Lemma unloaded_id cfg :
  isLoaded cfg = false -> currentQuality cfg = None -> unloaded cfg = cfg.
Proof. destruct cfg; simpl; intros -> ->; reflexivity. Qed.

Lemma with_activeModels_id st : with_activeModels (activeModels st) st = st.
Proof. destruct st; reflexivity. Qed.

Lemma unloadModel_unknown id st :
  activeModels st !! id = None -> unloadModel id st = Some (tt, st, []).
Proof. intros H. unfold unloadModel, Eff.withState. rewrite H. reflexivity. Qed.

Lemma unloadModel_known id cfg st :
  activeModels st !! id = Some cfg ->
  unloadModel id st =
  Some (tt,
        with_activeModels (<[id := unloaded cfg]> (activeModels st))
          (match element cfg with
           | Some h =>
               with_document (<[h := {| mesh := None; visible := false |}]> (document st)) st
           | None => st
           end),
        []).
Proof.
  intros H. unfold unloadModel, Eff.withState. rewrite H.
  destruct (element cfg); reflexivity.
Qed.

Lemma unloadModel_twice id st :
  (unloadModel id ;;; unloadModel id) st = unloadModel id st.
Proof.
  unfold Eff.bind.
  destruct (activeModels st !! id) as [cfg |] eqn:Hcfg.
  - rewrite (unloadModel_known id cfg st Hcfg).
    erewrite (unloadModel_known id (unloaded cfg)) by apply lookup_insert_eq.
    simpl. destruct (element cfg); simpl; rewrite !insert_insert_eq; reflexivity.
  - rewrite !(unloadModel_unknown id st Hcfg). reflexivity.
Qed.

(** C9. [unloadModel] on an unknown id returns with nothing changed; on a
    registered asset that is not loaded and has no current quality it
    returns with the registry, the configuration, the cache and the
    counters as they were; and a second [unloadModel] right after a first
    changes nothing at all.  It never throws and notifies nobody. *)
Theorem unloadModel_idempotent (id : string) (st : State) :
  (activeModels st !! id = None -> unloadModel id st = Some (tt, st, [])) /\
  (forall cfg,
     activeModels st !! id = Some cfg ->
     isLoaded cfg = false -> currentQuality cfg = None ->
     exists st',
       unloadModel id st = Some (tt, st', []) /\
       activeModels st' = activeModels st /\
       modelCache st' = modelCache st /\
       config st' = config st /\
       stats st' = stats st) /\
  (unloadModel id ;;; unloadModel id) st = unloadModel id st.
Proof.
  split; [apply unloadModel_unknown |].
  split; [| apply unloadModel_twice].
  intros cfg Hcfg Hl Hq.
  rewrite (unloadModel_known id cfg st Hcfg), (unloaded_id cfg Hl Hq).
  eexists. split; [reflexivity |].
  destruct (element cfg); simpl; rewrite (insert_id _ _ _ Hcfg); repeat split.
Qed.

Lemma unloadModel_idempotent_witness :
  unloadModel "ghost" Examples.freshManager = Some (tt, Examples.freshManager, []) /\
  exists st',
    unloadModel "hero" (Examples.heroRegistered Examples.threePaths) = Some (tt, st', []) /\
    activeModels st' = activeModels (Examples.heroRegistered Examples.threePaths).
Proof.
  split.
  - destruct (unloadModel_idempotent "ghost" Examples.freshManager) as (H & _).
    apply H. reflexivity.
  - destruct (unloadModel_idempotent "hero" (Examples.heroRegistered Examples.threePaths))
      as (_ & H & _).
    destruct (H (newModelConfig "hero" Examples.threePaths Examples.noPreload
                   (Examples.after (initialize Examples.onlyLow) Examples.freshManager)))
      as (st' & Hrun & Ham & _).
    + vm_compute. reflexivity.
    + reflexivity.
    + reflexivity.
    + exists st'. split; assumption.
Defined.

Lemma preloadModel_miss_error env id q cfg p e st :
  activeModels st !! id = Some cfg ->
  pathOf cfg q = Some p ->
  ModelCache.has (cacheKey id q) (modelCache st) = false ->
  gltf env p = Err e ->
  preloadModel env id q st =
  Some (Err e, missed st,
        [Cache (ModelCache.CallLoader (cacheKey id q));
         Cache (ModelCache.NotifyError (cacheKey id q) e)]).
Proof.
  intros Hcfg Hp Hmiss Hfail.
  unfold preloadModel, Eff.withState. rewrite Hcfg, Hp, Hfail.
  unfold onCache, Eff.zoom, ModelCache.get, Eff.bind.
  rewrite (get_begin_miss _ _ _ Hmiss). reflexivity.
Qed.

Lemma manager_loaderCalls_app t1 t2 : loaderCalls (t1 ++ t2) = loaderCalls t1 ++ loaderCalls t2.
Proof.
  induction t1 as [| a t1 IH]; simpl; [reflexivity |].
  destruct a as [[] | | | | |]; simpl; rewrite ?IH; reflexivity.
Qed.

Lemma failedQualities_app t1 t2 :
  failedQualities (t1 ++ t2) = failedQualities t1 ++ failedQualities t2.
Proof.
  induction t1 as [| a t1 IH]; simpl; [reflexivity |].
  destruct a; simpl; rewrite ?IH; reflexivity.
Qed.

Lemma qualityChangeEvents_app t1 t2 :
  qualityChangeEvents (t1 ++ t2) = qualityChangeEvents t1 ++ qualityChangeEvents t2.
Proof.
  induction t1 as [| a t1 IH]; simpl; [reflexivity |].
  destruct a; simpl; rewrite ?IH; reflexivity.
Qed.

Lemma loaderCalls_cache tr : loaderCalls (map Cache tr) = ModelCache.loaderCalls tr.
Proof.
  induction tr as [| a tr IH]; simpl; [reflexivity |].
  destruct a; simpl; rewrite ?IH; reflexivity.
Qed.

Lemma failedQualities_cache tr : failedQualities (map Cache tr) = [].
Proof. induction tr as [| a tr IH]; simpl; [reflexivity | exact IH]. Qed.

Lemma qualityChangeEvents_cache tr : qualityChangeEvents (map Cache tr) = [].
Proof. induction tr as [| a tr IH]; simpl; [reflexivity | exact IH]. Qed.

(** A load that misses the cache and whose loader succeeds returns the
    loaded model, having invoked the loader once. *)
Lemma preloadModel_miss_ok env id q cfg p m st :
  activeModels st !! id = Some cfg ->
  pathOf cfg q = Some p ->
  ModelCache.has (cacheKey id q) (modelCache st) = false ->
  gltf env p = Ok m ->
  ModelCache.orderOk (modelCache st) ->
  exists c' tr,
    preloadModel env id q st = Some (Ok m, with_modelCache c' st, tr) /\
    loaderCalls tr = [cacheKey id q] /\
    failedQualities tr = [] /\
    qualityChangeEvents tr = [].
Proof.
  intros Hcfg Hp Hmiss Hload Hok.
  unfold preloadModel, Eff.withState. rewrite Hcfg, Hp, Hload.
  unfold onCache, Eff.zoom, ModelCache.get, Eff.bind.
  rewrite (get_begin_miss _ _ _ Hmiss).
  destruct (get_resume_returns (now env) (loadTime env) (cacheKey id q) (Ok m)
              {| ModelCache.md_quality := Some (qualityName q);
                 ModelCache.md_loadTime := None |}
              (ModelCache.count_miss (ModelCache.count_request (modelCache st))) Hok)
    as (c' & tr & Hrun & _ & Htr).
  unfold ModelCache.get_finish. rewrite Hrun.
  eexists _, _. split; [reflexivity |].
  change (ModelCache.CallLoader (cacheKey id q) :: tr)
    with ([ModelCache.CallLoader (cacheKey id q)] ++ tr).
  rewrite map_app, manager_loaderCalls_app, failedQualities_app, qualityChangeEvents_app.
  rewrite !loaderCalls_cache, !failedQualities_cache, !qualityChangeEvents_cache, Htr.
  repeat split.
Qed.

(** C10. When the asset has no path for the target quality,
    [changeModelQuality] returns at once: the state is as it was and
    nothing is invoked or notified.  So when the asset has a ['high'] path
    and no ['medium'] path and the ['high'] load fails, the fallback ends
    there: the loader was asked for ['high'] only, the asset's entry and the
    document are as they were and no [qualityChange] is notified, whether
    or not a ['low'] path exists. *)
Theorem changeModelQuality_without_path (env : Env) (id : string) (cfg : ModelConfig)
    (st : State) :
  activeModels st !! id = Some cfg ->
  (forall q, pathOf cfg q = None -> changeModelQuality env id q st = Some (tt, st, [])) /\
  (forall p e,
     pathOf cfg High = Some p ->
     pathOf cfg Medium = None ->
     ModelCache.has (cacheKey id High) (modelCache st) = false ->
     gltf env p = Err e ->
     exists tr,
       changeModelQuality env id High st = Some (tt, missed st, tr) /\
       loaderCalls tr = [cacheKey id High] /\
       failedQualities tr = [High] /\
       qualityChangeEvents tr = []).
Proof.
  intros Hcfg. split.
  - intros q Hq. unfold changeModelQuality. simpl. unfold Eff.withState.
    rewrite Hcfg, Hq. reflexivity.
  - intros p e Hp HnoM Hmiss Hfail.
    unfold changeModelQuality. simpl. unfold Eff.withState at 1.
    rewrite Hcfg, Hp. unfold Eff.bind at 1.
    rewrite (preloadModel_miss_error env id High cfg p e st Hcfg Hp Hmiss Hfail).
    unfold Eff.bind, Eff.withState. simpl. rewrite Hcfg, HnoM. simpl.
    eexists. split; [reflexivity |]. repeat split.
Qed.

Lemma changeModelQuality_without_path_witness :
  changeModelQuality Examples.onlyLow "hero" Medium
    (Examples.heroRegistered Examples.highAndLow)
  = Some (tt, Examples.heroRegistered Examples.highAndLow, []) /\
  exists tr,
    changeModelQuality Examples.onlyLow "hero" High
      (Examples.heroRegistered Examples.highAndLow)
    = Some (tt, missed (Examples.heroRegistered Examples.highAndLow), tr) /\
    loaderCalls tr = ["hero_high"].
Proof.
  assert (Hcfg : activeModels (Examples.heroRegistered Examples.highAndLow) !! "hero"
                 = Some (newModelConfig "hero" Examples.highAndLow Examples.noPreload
                           (Examples.after (initialize Examples.onlyLow)
                              Examples.freshManager)))
    by (vm_compute; reflexivity).
  destruct (changeModelQuality_without_path Examples.onlyLow "hero" _ _ Hcfg) as [H1 H2].
  split.
  - apply H1. vm_compute. reflexivity.
  - destruct (H2 "high.glb" Examples.offline) as (tr & Hrun & Hcalls & _);
      try (vm_compute; reflexivity).
    exists tr. split; assumption.
Defined.

(** C5, as the code has it. [registerModel] with no path at all is
    accepted: the promise is fulfilled, the asset is stored unloaded and
    with no current quality, nothing is preloaded, and the [modelLoad]
    subscribers are notified. *)
Theorem registerModel_accepts_no_paths (env : Env) (id : string) (options : Options)
    (st : State) :
  exists st1 st',
    initialize env st = Some (tt, st1, []) /\
    registerModel env id ∅ options st
      = Some (Ok tt, st', [NotifyModelLoad id (newModelConfig id ∅ options st1)]) /\
    activeModels st' !! id = Some (newModelConfig id ∅ options st1) /\
    currentQuality (newModelConfig id ∅ options st1) = None /\
    isLoaded (newModelConfig id ∅ options st1) = false /\
    modelCache st' = modelCache st1.
Proof.
  assert (Hinit : exists st1, initialize env st = Some (tt, st1, [])).
  { unfold initialize, Eff.withState. destruct (isInitialized st); eexists; reflexivity. }
  destruct Hinit as [st1 Hinit]. exists st1.
  unfold registerModel. unfold Eff.bind at 1. rewrite Hinit.
  unfold Eff.withState, Eff.bind. simpl.
  assert (Hlow : pathOf (newModelConfig id ∅ options st1) Low = None).
  { unfold pathOf. simpl. rewrite lookup_empty. reflexivity. }
  rewrite Hlow.
  destruct (opt_preload options) as [[] |]; simpl;
    (eexists; split; [reflexivity |]; split; [reflexivity |];
     split; [simpl; apply lookup_insert_eq | repeat split]).
Qed.

(** C5 fails: registering ["hero"] with an empty path object does not
    fail; the manager stores the asset. *)
Lemma registerModel_no_paths_is_stored :
  exists st' tr,
    registerModel Examples.onlyLow "hero" ∅ noOptions Examples.freshManager
      = Some (Ok tt, st', tr) /\
    Examples.freshManager.(activeModels) !! "hero" = None /\
    is_Some (activeModels st' !! "hero").
Proof.
  eexists _, _. split; [reflexivity |].
  split; [reflexivity |]. simpl. rewrite lookup_insert_eq. eexists. reflexivity.
Qed.

(** One activation of [changeModelQuality]. *)
Lemma changeModelQuality_fuel_eq env fuel id q st :
  changeModelQuality_fuel env fuel id q st =
  match activeModels st !! id with
  | None => Some (tt, st, [])
  | Some cfg =>
      match pathOf cfg q with
      | None => Some (tt, st, [])
      | Some _ =>
          (r <- preloadModel env id q ;;
           match r with
           | ModelCache.Ok m =>
               match element cfg with
               | Some handle => applyModelToElement handle m q
               | None => Eff.ret tt
               end ;;;
               Eff.modify (fun st =>
                 with_activeModels (<[id := loaded q cfg]> (activeModels st)) st) ;;;
               Eff.modify count_qualityChange ;;;
               Eff.emit (NotifyQualityChange id (currentQuality cfg) q m)
           | ModelCache.Err e =>
               Eff.emit (LogQualityError id q e) ;;;
               match q, fuel with
               | High, S fuel' => changeModelQuality_fuel env fuel' id Medium
               | Medium, S fuel' => changeModelQuality_fuel env fuel' id Low
               | Low, _ => Eff.ret tt
               | _, O => Eff.spin
               end
           end) st
      end
  end.
Proof.
  destruct fuel; simpl; unfold Eff.withState;
    destruct (activeModels st !! id) as [cfg |]; try reflexivity;
    destruct (pathOf cfg q); reflexivity.
Qed.

Lemma bind_ext {S E A B} (m : Eff.M S E A) (f g : A -> Eff.M S E B) s :
  (forall a s', f a s' = g a s') -> Eff.bind m f s = Eff.bind m g s.
Proof.
  intros H. unfold Eff.bind. destruct (m s) as [[[a s1] t1] |]; [| reflexivity].
  now rewrite H.
Qed.

(** What follows a failed load in [changeModelQuality]. *)
Lemma changeModelQuality_fuel_fails env fuel id q cfg p e st :
  activeModels st !! id = Some cfg ->
  pathOf cfg q = Some p ->
  ModelCache.has (cacheKey id q) (modelCache st) = false ->
  gltf env p = Err e ->
  changeModelQuality_fuel env fuel id q st =
  match
    match q, fuel with
    | High, S fuel' => changeModelQuality_fuel env fuel' id Medium (missed st)
    | Medium, S fuel' => changeModelQuality_fuel env fuel' id Low (missed st)
    | Low, _ => Some (tt, missed st, [])
    | _, O => None
    end
  with
  | Some (u, st', tr) =>
      Some (u, st',
            [Cache (ModelCache.CallLoader (cacheKey id q));
             Cache (ModelCache.NotifyError (cacheKey id q) e);
             LogQualityError id q e] ++ tr)
  | None => None
  end.
Proof.
  intros Hcfg Hp Hmiss Hfail.
  destruct fuel; simpl; unfold Eff.withState; rewrite Hcfg, Hp;
    unfold Eff.bind at 1;
    rewrite (preloadModel_miss_error env id q cfg p e st Hcfg Hp Hmiss Hfail);
    unfold Eff.bind; simpl; destruct q; simpl; try reflexivity;
    match goal with
    | |- context [changeModelQuality_fuel ?e ?f ?i ?t ?s] =>
        destruct (changeModelQuality_fuel e f i t s) as [[[[] ?] ?] |]; reflexivity
    end.
Qed.

(** A load that succeeds makes the quality current. *)
Lemma changeModelQuality_fuel_loads env fuel id q cfg p m st :
  activeModels st !! id = Some cfg ->
  pathOf cfg q = Some p ->
  ModelCache.has (cacheKey id q) (modelCache st) = false ->
  gltf env p = Ok m ->
  ModelCache.orderOk (modelCache st) ->
  exists st' tr,
    changeModelQuality_fuel env fuel id q st = Some (tt, st', tr) /\
    activeModels st' = <[id := loaded q cfg]> (activeModels st) /\
    loaderCalls tr = [cacheKey id q] /\
    failedQualities tr = [] /\
    qualityChangeEvents tr = [(currentQuality cfg, q)].
Proof.
  intros Hcfg Hp Hmiss Hload Hok.
  destruct (preloadModel_miss_ok env id q cfg p m st Hcfg Hp Hmiss Hload Hok)
    as (c' & tr & Hrun & Hcalls & Hfails & Hchanges).
  rewrite changeModelQuality_fuel_eq, Hcfg, Hp. unfold Eff.bind at 1. rewrite Hrun.
  destruct (element cfg) as [h |]; [destruct m |]; unfold Eff.bind; simpl;
    (eexists _, _; split; [reflexivity |]; split; [reflexivity |]);
    rewrite manager_loaderCalls_app, failedQualities_app, qualityChangeEvents_app,
      Hcalls, Hfails, Hchanges; repeat split.
Qed.

(** C4. For a registered asset with a path for each quality, none of them
    cached, whose loader fails for ['high'] and for ['medium']:
    [changeModelQuality] to ['high'] asks the loader once for each quality
    down the chain.  If the ['low'] load succeeds the asset ends loaded with
    current quality ['low'], after two failures and one [qualityChange].
    If it fails as well the call returns after that third failure, with the
    registry and the document as they were and nothing more attempted. *)
Theorem changeModelQuality_fallback_chain (env : Env) (id : string) (cfg : ModelConfig)
    (pH pM pL : string) (eH eM : ModelCache.JsError) (st : State) :
  activeModels st !! id = Some cfg ->
  pathOf cfg High = Some pH ->
  pathOf cfg Medium = Some pM ->
  pathOf cfg Low = Some pL ->
  (forall q, ModelCache.has (cacheKey id q) (modelCache st) = false) ->
  ModelCache.orderOk (modelCache st) ->
  gltf env pH = Err eH ->
  gltf env pM = Err eM ->
  (forall m,
     gltf env pL = Ok m ->
     exists st' tr,
       changeModelQuality env id High st = Some (tt, st', tr) /\
       activeModels st' !! id = Some (loaded Low cfg) /\
       currentQuality (loaded Low cfg) = Some Low /\
       loaderCalls tr = [cacheKey id High; cacheKey id Medium; cacheKey id Low] /\
       failedQualities tr = [High; Medium] /\
       qualityChangeEvents tr = [(currentQuality cfg, Low)]) /\
  (forall eL,
     gltf env pL = Err eL ->
     exists tr,
       changeModelQuality env id High st = Some (tt, missed (missed (missed st)), tr) /\
       loaderCalls tr = [cacheKey id High; cacheKey id Medium; cacheKey id Low] /\
       failedQualities tr = [High; Medium; Low] /\
       qualityChangeEvents tr = []).
Proof.
  intros Hcfg HpH HpM HpL Hcold Hok HeH HeM.
  unfold changeModelQuality.
  rewrite (changeModelQuality_fuel_fails env 2 id High cfg pH eH st
             Hcfg HpH (Hcold High) HeH).
  rewrite (changeModelQuality_fuel_fails env 1 id Medium cfg pM eM (missed st)
             Hcfg HpM (Hcold Medium) HeM).
  split.
  - intros m HeL.
    destruct (changeModelQuality_fuel_loads env 0 id Low cfg pL m (missed (missed st))
                Hcfg HpL (Hcold Low) HeL Hok)
      as (st' & tr & Hrun & Ham & Hcalls & Hfails & Hchanges).
    rewrite Hrun. eexists _, _. split; [reflexivity |].
    split; [rewrite Ham; apply lookup_insert_eq |].
    split; [reflexivity |].
    cbn [app loaderCalls failedQualities qualityChangeEvents].
    rewrite Hcalls, Hfails, Hchanges. repeat split.
  - intros eL HeL.
    rewrite (changeModelQuality_fuel_fails env 0 id Low cfg pL eL (missed (missed st))
               Hcfg HpL (Hcold Low) HeL).
    eexists. split; [reflexivity |]. repeat split.
Qed.

Lemma changeModelQuality_fallback_chain_witness :
  exists st' tr,
    changeModelQuality Examples.onlyLow "hero" High
      (Examples.heroRegistered Examples.threePaths) = Some (tt, st', tr) /\
    (exists cfg', activeModels st' !! "hero" = Some cfg' /\
                  currentQuality cfg' = Some Low) /\
    loaderCalls tr = ["hero_high"; "hero_medium"; "hero_low"].
Proof.
  assert (Hcfg : activeModels (Examples.heroRegistered Examples.threePaths) !! "hero"
                 = Some (newModelConfig "hero" Examples.threePaths Examples.noPreload
                           (Examples.after (initialize Examples.onlyLow)
                              Examples.freshManager)))
    by (vm_compute; reflexivity).
  destruct (changeModelQuality_fallback_chain Examples.onlyLow "hero" _
              "high.glb" "medium.glb" "low.glb" Examples.offline Examples.offline
              (Examples.heroRegistered Examples.threePaths) Hcfg)
    as [Hgood _]; try (vm_compute; reflexivity).
  - split; simpl; [constructor |]. intros k Hk. inversion Hk.
  - destruct (Hgood Examples.vertex) as (st' & tr & Hrun & Ham & Hq & Hcalls & _);
      [reflexivity |].
    exists st', tr. split; [exact Hrun |]. split; [| exact Hcalls].
    eexists. split; [exact Ham | exact Hq].
Defined.

End ManagerFacts.

(** ** The monitor's snapshots *)
Section MonitorFacts.
Import PerformanceMonitor.

Lemma lookup_write_ne r r' o s :
  r <> r' -> objects (write r' o s) !! r = objects s !! r.
Proof. intros H. simpl. apply lookup_insert_ne. congruence. Qed.

Lemma observe_ext pm s s' m :
  readMetrics (currentMetrics pm) s = Some m ->
  objects s' !! currentMetrics pm = objects s !! currentMetrics pm ->
  objects s' !! memoryUsage m = objects s !! memoryUsage m ->
  observe pm s' = observe pm s.
Proof.
  intros Hm Hcm Hmu. unfold observe, readMetrics, readMemory in *.
  rewrite Hcm. destruct (objects s !! currentMetrics pm) as [[m0 | u0] |]; try discriminate.
  injection Hm as ->. rewrite Hmu. reflexivity.
Qed.

(** Assignments to the snapshot's own properties write the snapshot only. *)
Lemma mutateAll_topLevel snap mus : forall s,
  forallb topLevel mus = true ->
  is_Some (readMetrics snap s) ->
  exists s',
    mutateAll snap mus s = Some s' /\
    forall r, r <> snap -> objects s' !! r = objects s !! r.
Proof.
  induction mus as [| mu mus IH]; intros s Htop [m Hm]; simpl.
  - eexists. split; [reflexivity |]. reflexivity.
  - simpl in Htop. apply andb_true_iff in Htop as [Hmu Hrest].
    unfold mutate. rewrite Hm.
    destruct mu as [f v | r | f v]; try discriminate.
    + destruct (IH (write snap (MetricsObject (setField f v m)) s) Hrest) as (s' & Hrun & Hsame).
      { unfold readMetrics. simpl. rewrite lookup_insert_eq. eexists. reflexivity. }
      exists s'. split; [exact Hrun |].
      intros r Hr. rewrite (Hsame r Hr). apply lookup_write_ne, Hr.
    + destruct (IH (write snap (MetricsObject (setMemoryRef r m)) s) Hrest) as (s' & Hrun & Hsame).
      { unfold readMetrics. simpl. rewrite lookup_insert_eq. eexists. reflexivity. }
      exists s'. split; [exact Hrun |].
      intros r0 Hr. rewrite (Hsame r0 Hr). apply lookup_write_ne, Hr.
Qed.

(** C7, as the code has it. The snapshot, from [getCurrentMetrics] or in
    a notification, is a copy of the metrics object one level deep:
    whatever assignments its holder makes to the snapshot's own properties,
    [memoryUsage] included, the monitor reads its metrics and its memory
    usage as before. *)
Theorem getCurrentMetrics_snapshot_top_level (pm : Monitor) (s : Store)
    (mus : list Mutation) :
  wellFormed pm s ->
  forallb topLevel mus = true ->
  exists snapshot s1 s2,
    getCurrentMetrics pm s = Some (snapshot, s1) /\
    notificationMetrics pm s = Some (snapshot, s1) /\
    mutateAll snapshot mus s1 = Some s2 /\
    observe pm s1 = observe pm s /\
    observe pm s2 = observe pm s.
Proof.
  intros (Halloc & m & u & Hm & Hu) Htop.
  unfold notificationMetrics, getCurrentMetrics, spread. rewrite Hm.
  assert (Hcm : currentMetrics pm <> next s).
  { unfold readMetrics in Hm.
    destruct (objects s !! currentMetrics pm) as [o |] eqn:E; [| discriminate].
    specialize (Halloc _ _ E). lia. }
  assert (Hmu : memoryUsage m <> next s).
  { unfold readMemory in Hu.
    destruct (objects s !! memoryUsage m) as [o |] eqn:E; [| discriminate].
    specialize (Halloc _ _ E). lia. }
  set (s1 := snd (alloc (MetricsObject m) s)).
  destruct (mutateAll_topLevel (next s) mus s1 Htop) as (s2 & Hrun & Hsame).
  { unfold readMetrics, s1. simpl. rewrite lookup_insert_eq. eexists. reflexivity. }
  exists (next s), s1, s2. split; [reflexivity |]. split; [reflexivity |].
  split; [exact Hrun |].
  assert (H1 : observe pm s1 = observe pm s).
  { apply (observe_ext pm s s1 m Hm); unfold s1; simpl; apply lookup_insert_ne; congruence. }
  split; [exact H1 |].
  rewrite <- H1. apply (observe_ext pm s1 s2 m).
  - unfold readMetrics, s1. simpl. rewrite lookup_insert_ne by congruence. exact Hm.
  - apply Hsame, Hcm.
  - apply Hsame, Hmu.
Qed.

Lemma monitor_wellFormed : wellFormed Examples.monitor Examples.monitorStore.
Proof.
  split.
  - intros r o. unfold Examples.monitorStore. simpl.
    intros H. apply lookup_insert_Some in H as [[<- _] | [_ H]]; [lia |].
    apply lookup_insert_Some in H as [[<- _] | [_ H]]; [lia |].
    rewrite lookup_empty in H. discriminate.
  - eexists _, _. split; reflexivity.
Qed.

Lemma getCurrentMetrics_snapshot_top_level_witness :
  exists snapshot s1 s2,
    getCurrentMetrics Examples.monitor Examples.monitorStore = Some (snapshot, s1) /\
    mutateAll snapshot [SetField f_fps (JsNum.ofZ 999); SetMemoryUsage snapshot] s1 = Some s2 /\
    observe Examples.monitor s2 = observe Examples.monitor Examples.monitorStore.
Proof.
  destruct (getCurrentMetrics_snapshot_top_level Examples.monitor Examples.monitorStore
              [SetField f_fps (JsNum.ofZ 999); SetMemoryUsage 3%positive]
              monitor_wellFormed)
    as (snapshot & s1 & s2 & Hsnap & _ & Hrun & _ & Hobs); [reflexivity |].
  assert (Hthree : snapshot = 3%positive).
  { vm_compute in Hsnap. injection Hsnap as <- _. reflexivity. }
  subst snapshot.
  exists 3%positive, s1, s2. split; [exact Hsnap |]. split; [exact Hrun | exact Hobs].
Defined.

(** C7 fails below the top level: the snapshot's [memoryUsage] is the
    monitor's own object, and writing [percentage] through the snapshot
    changes what the monitor reads. *)
Lemma getCurrentMetrics_snapshot_shares_memoryUsage :
  exists snapshot s1 s2 m u,
    getCurrentMetrics Examples.monitor Examples.monitorStore = Some (snapshot, s1) /\
    mutate snapshot (SetNested f_percentage (JsNum.ofZ 99)) s1 = Some s2 /\
    observe Examples.monitor s1 = Some (m, u) /\
    percentage u = JsNum.ofZ 0 /\
    observe Examples.monitor s2
      = Some (m, mkMemoryUsage (used u) (total u) (JsNum.ofZ 99)) /\
    observe Examples.monitor s2 <> observe Examples.monitor s1.
Proof.
  eexists _, _, _, _, _.
  split; [vm_compute; reflexivity |].
  split; [vm_compute; reflexivity |].
  split; [vm_compute; reflexivity |].
  split; [reflexivity |].
  split; [vm_compute; reflexivity |].
  vm_compute. discriminate.
Qed.

End MonitorFacts.

(** ** Sorting by access count *)
Section SortFacts.
Context {A : Type} (f : A -> Z).

Lemma insertSorted_perm x l : ModelCache.insertSorted (ModelCache.leBy f) x l ≡ₚ x :: l.
Proof.
  induction l as [| y l IH]; simpl; [reflexivity |].
  destruct (ModelCache.leBy f x y); [reflexivity |].
  rewrite IH. apply Permutation_swap.
Qed.

Lemma stableSort_perm l : ModelCache.stableSort (ModelCache.leBy f) l ≡ₚ l.
Proof.
  induction l as [| x l IH]; simpl; [reflexivity |].
  rewrite insertSorted_perm. now rewrite IH.
Qed.

Lemma insertSorted_sorted x l :
  StronglySorted (ModelCache.ascending f) l ->
  StronglySorted (ModelCache.ascending f) (ModelCache.insertSorted (ModelCache.leBy f) x l).
Proof.
  induction 1 as [| y l Hs IH Hy]; simpl.
  - repeat constructor.
  - unfold ModelCache.leBy at 1. destruct (Z.leb_spec (f x) (f y)) as [Hxy | Hyx].
    + constructor; [constructor; assumption |].
      constructor; [exact Hxy |].
      eapply Forall_impl; [exact Hy |]. unfold ModelCache.ascending. intros z Hz. lia.
    + constructor; [exact IH |].
      rewrite insertSorted_perm. constructor; [unfold ModelCache.ascending; lia | exact Hy].
Qed.

Lemma stableSort_sorted l :
  StronglySorted (ModelCache.ascending f) (ModelCache.stableSort (ModelCache.leBy f) l).
Proof.
  induction l as [| x l IH]; simpl; [constructor |].
  apply insertSorted_sorted, IH.
Qed.

(** In a sorted list whatever comes early is no larger than what comes late. *)
Lemma sorted_take_drop l : StronglySorted (ModelCache.ascending f) l ->
  forall n a b, a ∈ take n l -> b ∈ drop n l -> f a <= f b.
Proof.
  induction 1 as [| x l Hs IH Hx]; intros n a b Ha Hb.
  - destruct n; inversion Ha.
  - destruct n as [| n]; simpl in *; [inversion Ha |].
    apply elem_of_cons in Ha as [-> | Ha].
    + rewrite Forall_forall in Hx. apply Hx.
      eapply (subseteq_drop n l), Hb.
    + eapply IH; eassumption.
Qed.
End SortFacts.

(** ** The memory cleanup *)
Section CleanupFacts.
Import LODManager.
Context {V : Type}.
Implicit Types m : list (string * V).

Lemma has_keys k m : JsMap.has k m = true <-> k ∈ JsMap.keys m.
Proof.
  unfold JsMap.has, JsMap.keys.
  induction m as [| [k0 v0] m IH]; simpl.
  - split; [discriminate | inversion 1].
  - rewrite elem_of_cons. destruct (String.eqb_spec k k0) as [-> | Hne].
    + split; [now left | reflexivity].
    + rewrite IH. simpl. tauto.
Qed.

Lemma get_elem k v m : JsMap.get k m = Some v -> (k, v) ∈ m.
Proof.
  induction m as [| [k0 v0] m IH]; simpl; [discriminate |].
  destruct (String.eqb_spec k k0) as [-> | Hne].
  - intros [= ->]. left.
  - intros H. right. apply IH, H.
Qed.

Lemma elem_get k v m : NoDup (JsMap.keys m) -> (k, v) ∈ m -> JsMap.get k m = Some v.
Proof.
  unfold JsMap.keys.
  induction m as [| [k0 v0] m IH]; simpl; intros Hnd Hin; [inversion Hin |].
  apply NoDup_cons in Hnd as [Hk0 Hnd].
  apply elem_of_cons in Hin as [[= -> ->] | Hin].
  - now rewrite String.eqb_refl.
  - destruct (String.eqb_spec k k0) as [-> | Hne]; [| apply IH; assumption].
    exfalso. apply Hk0.
    exact (list_elem_of_fmap_2' fst m (k0, v) k0 Hin eq_refl).
Qed.

Lemma keys_delete k k' m : k' ∈ JsMap.keys (JsMap.delete k m) -> k' ∈ JsMap.keys m.
Proof.
  unfold JsMap.keys.
  induction m as [| [k0 v0] m IH]; simpl; [tauto |].
  destruct (String.eqb k k0); simpl; rewrite !elem_of_cons; tauto.
Qed.

Lemma NoDup_delete k m : NoDup (JsMap.keys m) -> NoDup (JsMap.keys (JsMap.delete k m)).
Proof.
  unfold JsMap.keys.
  induction m as [| [k0 v0] m IH]; simpl; intros Hnd; [constructor |].
  apply NoDup_cons in Hnd as [Hk0 Hnd].
  destruct (String.eqb k k0); [exact Hnd |]. simpl.
  apply NoDup_cons. split; [| apply IH, Hnd].
  intros Hin. apply Hk0. eapply keys_delete, Hin.
Qed.

Lemma has_delete_eq k m : NoDup (JsMap.keys m) -> JsMap.has k (JsMap.delete k m) = false.
Proof.
  intros Hnd. destruct (JsMap.has k (JsMap.delete k m)) eqn:E; [| reflexivity].
  exfalso. apply has_keys in E. revert Hnd E. unfold JsMap.keys.
  induction m as [| [k0 v0] m IH]; simpl; intros Hnd E; [inversion E |].
  apply NoDup_cons in Hnd as [Hk0 Hnd].
  destruct (String.eqb_spec k k0) as [-> | Hne]; [contradiction |].
  simpl in E. apply elem_of_cons in E as [-> | E]; [congruence | auto].
Qed.

Lemma delete_absent k m : JsMap.get k m = None -> JsMap.delete k m = m.
Proof.
  induction m as [| [k0 v0] m IH]; simpl; [reflexivity |].
  destruct (String.eqb k k0); [discriminate |]. intros H. now rewrite IH.
Qed.

Lemma has_deleteKeys ks : forall m k,
  NoDup (JsMap.keys m) ->
  JsMap.has k (JsMap.deleteKeys ks m) = true <-> JsMap.has k m = true /\ k ∉ ks.
Proof.
  induction ks as [| k0 ks IH]; intros m k Hnd; simpl.
  - split; [intros H; split; [exact H | inversion 1] | tauto].
  - rewrite (IH _ k (NoDup_delete k0 m Hnd)).
    rewrite not_elem_of_cons.
    destruct (String.eqb_spec k k0) as [-> | Hne].
    + rewrite (has_delete_eq k0 m Hnd). split; [intros [H _]; discriminate | tauto].
    + rewrite (has_delete_ne k0 k m Hne). tauto.
Qed.
End CleanupFacts.

Section CleanupRun.
Import LODManager.

Lemma cache_delete_entries k c :
  exists b c' tr,
    ModelCache.delete k c = Some (b, c', tr) /\
    ModelCache.entries c' = JsMap.delete k (ModelCache.entries c).
Proof.
  unfold ModelCache.delete, Eff.withState.
  destruct (JsMap.get k (ModelCache.entries c)) as [e |] eqn:E.
  - eexists _, _, _. split; reflexivity.
  - eexists _, _, _. split; [reflexivity |]. now rewrite delete_absent.
Qed.

Lemma deleteRows_run rows : forall st,
  exists c' tr,
    Eff.forEach
      (fun row => onCache (ModelCache.delete (ModelCache.row_key row)) ;;; Eff.ret tt)
      rows st
    = Some (tt, with_modelCache c' st, tr) /\
    ModelCache.entries c'
    = JsMap.deleteKeys (map ModelCache.row_key rows) (ModelCache.entries (modelCache st)).
Proof.
  induction rows as [| row rows IH]; intros st; simpl.
  - exists (modelCache st), []. split; [| reflexivity]. destruct st; reflexivity.
  - destruct (cache_delete_entries (ModelCache.row_key row) (modelCache st))
      as (b & c1 & tr1 & Hrun1 & Hes1).
    destruct (IH (with_modelCache c1 st)) as (c2 & tr2 & Hrun2 & Hes2).
    unfold Eff.bind at 1 2. unfold onCache at 1, Eff.zoom. rewrite Hrun1. simpl.
    rewrite Hrun2. eexists _, _. split; [reflexivity |].
    rewrite Hes2. simpl. rewrite Hes1. reflexivity.
Qed.

Lemma quarterCeil_small x : (x <= 5)%nat -> (quarterCeil x <= 2)%nat /\ (quarterCeil x <= x)%nat.
Proof.
  intros H. do 6 (destruct x as [| x]; [vm_compute; lia |]). lia.
Qed.

Lemma keys_of_rows q (l : list (string * ModelCache.CacheEntry)) :
  map ModelCache.row_key (take q (map ModelCache.usageRow l)) = map fst (take q l).
Proof.
  revert q. induction l as [| x l IH]; intros [| q]; simpl; try reflexivity.
  now rewrite IH.
Qed.

(** The victims are the first [ceil (min 5 n / 4)] keys in ascending order
    of access count. *)
Lemma cleanupVictims_sorted c :
  cleanupVictims c =
  map fst (take (quarterCeil (min 5 (length (ModelCache.entries c))))
             (ModelCache.stableSort (ModelCache.leBy ModelCache.byCount)
                (ModelCache.entries c))).
Proof.
  unfold cleanupVictims, ModelCache.getStats, ModelCache.leastUsed,
    ModelCache.getLeastUsedEntries.
  set (sorted := ModelCache.stableSort _ (ModelCache.entries c)).
  assert (Hlen : length sorted = length (ModelCache.entries c))
    by apply Permutation_length, (stableSort_perm ModelCache.byCount).
  rewrite length_map, length_take, Hlen.
  rewrite keys_of_rows, take_take.
  f_equal. f_equal.
  destruct (quarterCeil_small (min 5 (length (ModelCache.entries c)))); lia.
Qed.

(** C6, as the code has it. When the memory percentage exceeds 80 the
    cleanup deletes, of the at most five entries that [getStats] lists as
    least used, the first quarter rounded up: one entry, or two when five
    are listed.  They are entries accessed the fewest times, no entry that
    stays was accessed fewer times than one that goes, and every other
    entry stays. *)
Theorem memoryCleanupStep_removes_least_accessed (percentage : JsNum.num) (st : State) :
  JsNum.ltb (JsNum.ofZ 80) percentage = true ->
  NoDup (JsMap.keys (ModelCache.entries (modelCache st))) ->
  exists c' tr,
    memoryCleanupStep percentage st = Some (tt, with_modelCache c' st, tr) /\
    length (cleanupVictims (modelCache st))
      = quarterCeil (min 5 (length (ModelCache.entries (modelCache st)))) /\
    (forall k, ModelCache.has k c' = true <->
               ModelCache.has k (modelCache st) = true /\ k ∉ cleanupVictims (modelCache st)) /\
    (forall k, k ∈ cleanupVictims (modelCache st) -> ModelCache.has k (modelCache st) = true) /\
    (forall k e k' e',
       k ∈ cleanupVictims (modelCache st) ->
       k' ∉ cleanupVictims (modelCache st) ->
       JsMap.get k (ModelCache.entries (modelCache st)) = Some e ->
       JsMap.get k' (ModelCache.entries (modelCache st)) = Some e' ->
       ModelCache.accessCount e <= ModelCache.accessCount e').
Proof.
  intros Hpct Hnd. unfold memoryCleanupStep. rewrite Hpct.
  unfold performMemoryCleanup, Eff.withState.
  destruct (deleteRows_run
              (take (quarterCeil (length (ModelCache.leastUsed (ModelCache.getStats (modelCache st)))))
                 (ModelCache.leastUsed (ModelCache.getStats (modelCache st)))) st)
    as (c' & tr & Hrun & Hes).
  exists c', tr. split; [exact Hrun |].
  fold (cleanupVictims (modelCache st)) in Hes.
  set (es := ModelCache.entries (modelCache st)) in *.
  set (sorted := ModelCache.stableSort (ModelCache.leBy ModelCache.byCount) es).
  set (q := quarterCeil (min 5 (length es))).
  assert (Hv : cleanupVictims (modelCache st) = map fst (take q sorted))
    by apply cleanupVictims_sorted.
  assert (Hperm : sorted ≡ₚ es) by apply (stableSort_perm ModelCache.byCount).
  assert (Hin : forall k, k ∈ map fst (take q sorted) -> exists e, (k, e) ∈ take q sorted).
  { intros k Hk. apply list_elem_of_fmap in Hk as ([k0 e] & -> & Hk). eauto. }
  rewrite Hv. split; [| split; [| split]].
  - rewrite length_map, length_take.
    rewrite (Permutation_length Hperm).
    destruct (quarterCeil_small (min 5 (length es))); unfold q; lia.
  - intros k. unfold ModelCache.has. rewrite Hes, Hv. apply has_deleteKeys, Hnd.
  - intros k Hk. destruct (Hin k Hk) as [e He].
    unfold ModelCache.has. apply has_keys.
    apply (list_elem_of_fmap_2' fst es (k, e) k); [| reflexivity].
    rewrite <- Hperm. eapply (subseteq_take q sorted), He.
  - intros k e k' e' Hk Hk' Hget Hget'.
    destruct (Hin k Hk) as [e0 He0].
    assert (e0 = e) as ->.
    { assert (Hg : JsMap.get k es = Some e0).
      { apply elem_get; [exact Hnd |]. rewrite <- Hperm.
        eapply (subseteq_take q sorted), He0. }
      congruence. }
    assert (Hrest : (k', e') ∈ drop q sorted).
    { assert (H : (k', e') ∈ take q sorted ++ drop q sorted).
      { rewrite take_drop, Hperm. apply get_elem, Hget'. }
      apply elem_of_app in H as [H | H]; [| exact H].
      exfalso. apply Hk'.
      exact (list_elem_of_fmap_2' fst (take q sorted) (k', e') k' H eq_refl). }
    exact (sorted_take_drop ModelCache.byCount sorted (stableSort_sorted ModelCache.byCount es) q
             (k, e) (k', e') He0 Hrest).
Qed.

Lemma memoryCleanupStep_removes_least_accessed_witness :
  exists c' tr,
    memoryCleanupStep (JsNum.ofZ 90) Examples.busyManager
      = Some (tt, with_modelCache c' Examples.busyManager, tr) /\
    length (cleanupVictims (modelCache Examples.busyManager)) = 1%nat.
Proof.
  destruct (memoryCleanupStep_removes_least_accessed (JsNum.ofZ 90) Examples.busyManager)
    as (c' & tr & Hrun & Hlen & _).
  - reflexivity.
  - vm_compute. apply NoDup_cons. split; [| apply NoDup_singleton].
    intros H. apply list_elem_of_singleton in H. discriminate.
  - exists c', tr. split; [exact Hrun | exact Hlen].
Defined.

(** C6 fails: with ["B"] the least recently used of two entries and ["A"]
    the one accessed less often, the least recently used quarter is ["B"],
    and the cleanup deletes ["A"] and keeps ["B"]. *)
Lemma memoryCleanupStep_spares_least_recent :
  exists st' tr,
    memoryCleanupStep (JsNum.ofZ 90) Examples.busyManager = Some (tt, st', tr) /\
    ModelCache.accessOrder (modelCache Examples.busyManager) = ["B"; "A"] /\
    take (quarterCeil 2) (ModelCache.accessOrder (modelCache Examples.busyManager)) = ["B"] /\
    ModelCache.has "B" (modelCache st') = true /\
    ModelCache.has "A" (modelCache st') = false /\
    loaderCalls tr = [].
Proof.
  eexists _, _. split; [vm_compute; reflexivity |]. repeat split.
Qed.

End CleanupRun.

(** ** The cache invariant, for keys stored once *)
Section InvariantFacts.
Import ModelCache.

Lemma sumZ_app l1 l2 : sumZ (l1 ++ l2) = sumZ l1 + sumZ l2.
Proof. unfold sumZ. induction l1 as [| x l1 IH]; simpl; [reflexivity | lia]. Qed.

Lemma sumZ_nonneg l : Forall (fun z => 0 <= z) l -> 0 <= sumZ l.
Proof. unfold sumZ. induction 1; simpl; lia. Qed.

Lemma traverseSize_nonneg : forall o, 0 <= traverseSize o.
Proof.
  fix IH 1. intros [g ms cs]. simpl.
  assert (Hg : 0 <= match g with Some g' => geometrySize g' | None => 0 end).
  { destruct g as [[p n u i] |]; [| lia]. unfold geometrySize, countBytes. simpl.
    destruct p, n, u, i; lia. }
  assert (Hm : 0 <= materialsSize ms).
  { unfold materialsSize. apply sumZ_nonneg, Forall_map, Forall_forall. intros mat _.
    apply sumZ_nonneg, Forall_map, Forall_forall. intros [w h] _.
    unfold textureSize, dimension. simpl.
    destruct w as [w |], h as [h |];
      repeat match goal with |- context [(?n =? 0)%N] => destruct (n =? 0)%N end; lia. }
  assert (Hc : 0 <= (fix children (l : list Object3D) : Z :=
                       match l with
                       | [] => 0
                       | c :: l' => traverseSize c + children l'
                       end) cs).
  { induction cs as [| c cs IHcs]; [lia |]. specialize (IH c). lia. }
  lia.
Qed.

Lemma estimateModelSize_nonneg m : 0 <= estimateModelSize m.
Proof.
  destruct m as [u root | u]; simpl; [| lia].
  unfold withOverhead. pose proof (traverseSize_nonneg root).
  apply Z.div_pos; lia.
Qed.

Lemma liveSize_delete k e es :
  JsMap.get k es = Some e ->
  sumZ (map sizeOf (JsMap.delete k es)) = sumZ (map sizeOf es) - size e.
Proof.
  unfold sumZ, sizeOf.
  induction es as [| [k0 e0] es IH]; simpl; [discriminate |].
  destruct (String.eqb k k0).
  - intros [= ->]. lia.
  - intros H. simpl. rewrite (IH H). lia.
Qed.

Lemma liveSize_set_fresh k e es :
  JsMap.get k es = None ->
  sumZ (map sizeOf (JsMap.set k e es)) = sumZ (map sizeOf es) + size e.
Proof.
  unfold sumZ, sizeOf.
  induction es as [| [k0 e0] es IH]; simpl; [lia |].
  destruct (String.eqb k k0); [discriminate |].
  intros H. simpl. rewrite (IH H). lia.
Qed.

Lemma liveSize_update now k es :
  map sizeOf (JsMap.update (touch now) k es) = map sizeOf es.
Proof.
  induction es as [| [k0 e0] es IH]; simpl; [reflexivity |].
  destruct (String.eqb k k0); simpl; [reflexivity | now rewrite IH].
Qed.

Lemma keys_update {V} (g : V -> V) k (es : list (string * V)) :
  JsMap.keys (JsMap.update g k es) = JsMap.keys es.
Proof.
  unfold JsMap.keys.
  induction es as [| [k0 e0] es IH]; simpl; [reflexivity |].
  destruct (String.eqb k k0); simpl; [reflexivity | now rewrite IH].
Qed.

Lemma keys_set_fresh {V} k (v : V) (es : list (string * V)) :
  JsMap.get k es = None -> JsMap.keys (JsMap.set k v es) = JsMap.keys es ++ [k].
Proof.
  unfold JsMap.keys.
  induction es as [| [k0 e0] es IH]; simpl; [reflexivity |].
  destruct (String.eqb k k0); [discriminate |].
  intros H. simpl. now rewrite (IH H).
Qed.

Lemma length_delete {V} k (v : V) (es : list (string * V)) :
  JsMap.get k es = Some v -> S (length (JsMap.delete k es)) = length es.
Proof.
  induction es as [| [k0 e0] es IH]; simpl; [discriminate |].
  destruct (String.eqb k k0); [reflexivity |].
  intros H. simpl. now rewrite (IH H).
Qed.

Lemma Forall_delete {V} (P : string * V -> Prop) k (es : list (string * V)) :
  Forall P es -> Forall P (JsMap.delete k es).
Proof.
  induction 1 as [| [k0 e0] es Hx Hes IH]; simpl; [constructor |].
  destruct (String.eqb k k0); [exact Hes | constructor; assumption].
Qed.

Lemma has_get_none {V} k (es : list (string * V)) :
  JsMap.has k es = false <-> JsMap.get k es = None.
Proof. unfold JsMap.has. destruct (JsMap.get k es); split; congruence. Qed.

Lemma elem_removeFirst_ne k k' a :
  k' <> k -> k' ∈ a -> k' ∈ JsArray.removeFirst k a.
Proof.
  intros Hne. induction a as [| x a IH]; simpl; [tauto |].
  rewrite elem_of_cons. destruct (String.eqb_spec k x) as [-> | Hkx].
  - intros [-> | H]; [contradiction | exact H].
  - rewrite elem_of_cons. tauto.
Qed.
End InvariantFacts.

Section InvariantRun.
Import ModelCache.
Variable cfg : Config.
Hypothesis Hentries : 1 <= maxEntries cfg.
Hypothesis Hsize : 0 <= maxSize cfg.

Lemma invariant_create : invariant cfg (create cfg).
Proof.
  split; [reflexivity |]. split; [| split; simpl; unfold entryCount, JsMap.size; simpl; lia].
  split; [split; simpl; [constructor | inversion 1] |].
  split; [constructor |].
  split; [intros k; discriminate |].
  split; [constructor | reflexivity].
Qed.

Lemma invariant_cleared c :
  config c = cfg ->
  invariant cfg (with_currentSize 0 (with_accessOrder [] (with_entries [] c))).
Proof.
  intros Hc. split; [exact Hc |].
  split; [| split; simpl; unfold entryCount, JsMap.size; simpl; rewrite Hc; lia].
  split; [apply orderOk_clear |].
  split; [constructor |].
  split; [intros k; discriminate |].
  split; [constructor | reflexivity].
Qed.

Lemma invariant_drop k e c :
  invariant cfg c ->
  JsMap.get k (entries c) = Some e ->
  invariant cfg (drop k e c).
Proof.
  intros (Hc & (Hok & Hnd & Hcov & Hpos & Hsum) & (Hcount & Hmax)) Hget.
  assert (He : 0 <= size e).
  { rewrite Forall_forall in Hpos. exact (Hpos (k, e) (get_elem k e _ Hget)). }
  split; [exact Hc |]. split; [split; [| split; [| split; [| split]]] | split].
  - apply orderOk_drop, Hok.
  - apply NoDup_delete, Hnd.
  - simpl. intros k' Hk'.
    destruct (String.eqb_spec k' k) as [-> | Hne].
    + rewrite (has_delete_eq k _ Hnd) in Hk'. discriminate.
    + apply elem_removeFirst_ne; [exact Hne |].
      apply Hcov. now rewrite <- (has_delete_ne k k' _ Hne).
  - apply Forall_delete, Hpos.
  - unfold liveSize. simpl. rewrite (liveSize_delete k e _ Hget).
    unfold liveSize in Hsum. lia.
  - unfold entryCount, JsMap.size in *. simpl.
    pose proof (length_delete k e _ Hget). lia.
  - simpl. lia.
Qed.

Lemma needsSpace_false req c :
  needsSpace req c = false ->
  currentSize c + req <= maxSize (config c) /\ entryCount c < maxEntries (config c).
Proof.
  unfold needsSpace, entryCount. intros H. apply orb_false_iff in H as [H1 H2].
  split.
  - destruct (Z.gtb_spec (currentSize c + req) (maxSize (config c))); [discriminate | lia].
  - destruct (Z.geb_spec (JsMap.size (entries c)) (maxEntries (config c)));
      [discriminate | lia].
Qed.

(** The eviction loop keeps the invariant and leaves room for the entry. *)
Lemma ensureSpace_loop_invariant fuel : forall req c,
  invariant cfg c ->
  0 <= req -> 2 * req <= maxSize cfg ->
  (length (accessOrder c) <= fuel)%nat ->
  exists c' tr,
    ensureSpace_loop fuel req c = Some (tt, c', tr) /\
    invariant cfg c' /\
    currentSize c' + req <= maxSize cfg /\
    entryCount c' < maxEntries cfg /\
    (forall k, has k c' = true -> has k c = true).
Proof.
  induction fuel as [| fuel IH]; intros req c Hinv Hreq Hhalf Hlen;
    rewrite ensureSpace_loop_eq;
    destruct (needsSpace req c) eqn:Hneed.
  - destruct (accessOrder c) eqn:Ho; [| simpl in Hlen; lia].
    eexists _, _. split; [reflexivity |].
    split; [apply invariant_cleared, Hinv |].
    simpl. unfold entryCount, JsMap.size. simpl.
    split; [lia | split; [lia | discriminate]].
  - destruct (needsSpace_false req c Hneed) as [H1 H2].
    destruct Hinv as (Hc & Hrest). rewrite Hc in H1, H2.
    eexists _, _. split; [reflexivity |].
    split; [exact (conj Hc Hrest) | auto].
  - destruct (accessOrder c) as [| k rest] eqn:Ho.
    + eexists _, _. split; [reflexivity |].
      split; [apply invariant_cleared, Hinv |].
      simpl. unfold entryCount, JsMap.size. simpl.
      split; [lia | split; [lia | discriminate]].
    + assert (Hok : orderOk c) by apply Hinv.
      destruct (has_get k (entries c)) as [e He].
      { apply Hok. rewrite Ho. left. }
      destruct (IH req (drop k e c) (invariant_drop k e c Hinv He) Hreq Hhalf)
        as (c' & tr & Hrun & Hinv' & Hroom & Hcount & Hsub).
      { simpl. rewrite Ho. simpl. rewrite String.eqb_refl. simpl in Hlen. lia. }
      unfold Eff.bind. rewrite (evictLeastUsed_head k rest e c Ho He), Hrun.
      eexists _, _. split; [reflexivity |].
      split; [exact Hinv' |]. split; [exact Hroom |]. split; [exact Hcount |].
      intros k' Hk'. specialize (Hsub k' Hk'). unfold has in *. simpl in Hsub.
      apply has_keys. apply has_keys in Hsub. eapply keys_delete, Hsub.
  - destruct (needsSpace_false req c Hneed) as [H1 H2].
    destruct Hinv as (Hc & Hrest). rewrite Hc in H1, H2.
    eexists _, _. split; [reflexivity |].
    split; [exact (conj Hc Hrest) | auto].
Qed.
End InvariantRun.

Section InvariantOps.
Import ModelCache.
Variable cfg : Config.
Hypothesis Hentries : 1 <= maxEntries cfg.
Hypothesis Hsize : 0 <= maxSize cfg.

Lemma invariant_stored key e c :
  invariant cfg c ->
  has key c = false ->
  0 <= size e ->
  currentSize c + size e <= maxSize cfg ->
  entryCount c < maxEntries cfg ->
  invariant cfg
    (with_accessOrder
       (JsArray.push (JsArray.removeFirst key (accessOrder (store key e c))) key)
       (store key e c)).
Proof.
  intros (Hc & (Hok & Hnd & Hcov & Hpos & Hsum) & _) Hfresh He Hroom Hcount.
  apply has_get_none in Hfresh.
  split; [exact Hc |]. split; [split; [| split; [| split; [| split]]] | split].
  - apply orderOk_store_touch, Hok.
  - simpl. rewrite (keys_set_fresh key e _ Hfresh).
    apply NoDup_app. split; [exact Hnd |]. split; [| apply NoDup_singleton].
    intros k Hk Hk'. apply list_elem_of_singleton in Hk'. subst k.
    apply has_keys in Hk. apply has_get_none in Hfresh. congruence.
  - simpl. intros k Hk. rewrite has_set in Hk. unfold JsArray.push.
    apply elem_of_app. destruct (String.eqb k key) eqn:Ek.
    + right. apply String.eqb_eq in Ek. rewrite Ek. left.
    + left. apply String.eqb_neq in Ek.
      apply elem_removeFirst_ne; [exact Ek |]. apply Hcov. exact Hk.
  - simpl. assert (Hset : JsMap.set key e (entries c) = entries c ++ [(key, e)]).
    { clear -Hfresh. induction (entries c) as [| [k0 e0] es IH]; simpl in *; [reflexivity |].
      destruct (String.eqb key k0); [discriminate |]. now rewrite (IH Hfresh). }
    rewrite Hset. apply Forall_app. split; [exact Hpos |]. constructor; [exact He | constructor].
  - unfold liveSize. simpl. rewrite (liveSize_set_fresh key e _ Hfresh).
    unfold liveSize in Hsum. lia.
  - unfold entryCount, JsMap.size in *. simpl.
    assert (Hlen : length (JsMap.set key e (entries c)) = S (length (entries c))).
    { clear -Hfresh. induction (entries c) as [| [k0 e0] es IH]; simpl in *; [reflexivity |].
      destruct (String.eqb key k0); [discriminate |]. simpl. now rewrite (IH Hfresh). }
    rewrite Hlen, Hc. lia.
  - simpl. rewrite Hc. lia.
Qed.

Lemma set_invariant now key m md c c' tr :
  invariant cfg c ->
  has key c = false ->
  set now key m md c = Some (tt, c', tr) ->
  invariant cfg c'.
Proof.
  intros Hinv Hfresh. unfold set, Eff.withState.
  destruct (tooLarge (estimateModelSize m) c) eqn:Hbig.
  - intros [= <- _]. exact Hinv.
  - assert (Hhalf : 2 * estimateModelSize m <= maxSize cfg).
    { unfold tooLarge in Hbig. destruct Hinv as (Hc & _). rewrite Hc in Hbig.
      destruct (Z.gtb_spec (2 * estimateModelSize m) (maxSize cfg)); [discriminate | lia]. }
    destruct (ensureSpace_loop_invariant cfg Hentries Hsize (length (accessOrder c))
                (estimateModelSize m) c Hinv (estimateModelSize_nonneg m) Hhalf)
      as (c1 & tr1 & Hrun & Hinv1 & Hroom & Hcount & Hsub); [lia |].
    unfold Eff.bind at 1. unfold ensureSpace, Eff.withState. rewrite Hrun. simpl.
    intros [= <- _].
    apply invariant_stored; try assumption.
    + destruct (has key c1) eqn:E; [| reflexivity].
      rewrite (Hsub key E) in Hfresh. discriminate.
    + simpl. apply estimateModelSize_nonneg.
Qed.

Lemma delete_invariant key c b c' tr :
  invariant cfg c -> delete key c = Some (b, c', tr) -> invariant cfg c'.
Proof.
  intros Hinv. unfold delete, Eff.withState.
  destruct (JsMap.get key (entries c)) as [e |] eqn:E.
  - intros [= _ <- _]. apply invariant_drop; assumption.
  - intros [= _ <- _]. exact Hinv.
Qed.

Lemma evictLeastUsed_invariant c c' tr :
  invariant cfg c -> evictLeastUsed c = Some (tt, c', tr) -> invariant cfg c'.
Proof.
  intros Hinv. unfold evictLeastUsed, Eff.withState.
  destruct (accessOrder c) as [| k rest]; [intros [= <- _]; exact Hinv |].
  destruct (JsMap.get k (entries c)) as [e |] eqn:E.
  - intros [= <- _]. apply invariant_drop; assumption.
  - intros [= <- _]. exact Hinv.
Qed.

Lemma Forall_update now k es :
  Forall (fun ke => 0 <= sizeOf ke) es ->
  Forall (fun ke => 0 <= sizeOf ke) (JsMap.update (touch now) k es).
Proof.
  induction 1 as [| [k0 e0] es Hx Hes IH]; simpl; [constructor |].
  destruct (String.eqb k k0); constructor; assumption.
Qed.

Lemma has_update {V} (g : V -> V) k k' (es : list (string * V)) :
  JsMap.has k' (JsMap.update g k es) = JsMap.has k' es.
Proof.
  destruct (JsMap.has k' es) eqn:E.
  - apply has_keys. rewrite keys_update. apply has_keys, E.
  - destruct (JsMap.has k' (JsMap.update g k es)) eqn:E'; [| reflexivity].
    apply has_keys in E'. rewrite keys_update in E'. apply has_keys in E'. congruence.
Qed.

Lemma invariant_touched now key c :
  invariant cfg c ->
  has key c = true ->
  invariant cfg
    (with_accessOrder (JsArray.push (JsArray.removeFirst key (accessOrder c)) key)
       (with_entries (JsMap.update (touch now) key (entries c)) c)).
Proof.
  intros (Hc & ((Hnd0 & Hin) & Hnd & Hcov & Hpos & Hsum) & (Hcount & Hmax)) Hhit.
  split; [exact Hc |]. split; [split; [| split; [| split; [| split]]] | split].
  - split; simpl; unfold JsArray.push.
    + apply NoDup_app. split; [apply removeFirst_NoDup, Hnd0 |].
      split; [| apply NoDup_singleton].
      intros k Hk Hk'. apply list_elem_of_singleton in Hk'. subst k.
      exact (removeFirst_not_in _ _ Hnd0 Hk).
    + intros k Hk. rewrite has_update. apply elem_of_app in Hk as [Hk | Hk].
      * apply Hin. eapply in_removeFirst, Hk.
      * apply list_elem_of_singleton in Hk. subst k. exact Hhit.
  - simpl. rewrite keys_update. exact Hnd.
  - simpl. intros k Hk. rewrite has_update in Hk. unfold JsArray.push.
    apply elem_of_app. destruct (String.eqb k key) eqn:Ek.
    + right. apply String.eqb_eq in Ek. rewrite Ek. left.
    + left. apply String.eqb_neq in Ek.
      apply elem_removeFirst_ne; [exact Ek |]. apply Hcov, Hk.
  - simpl. apply Forall_update, Hpos.
  - unfold liveSize. simpl. rewrite liveSize_update. exact Hsum.
  - unfold entryCount, JsMap.size in *. simpl.
    assert (Hlen : length (JsMap.update (touch now) key (entries c)) = length (entries c)).
    { rewrite <- (length_map fst), <- (length_map fst (entries c)).
      f_equal. apply (keys_update (touch now)). }
    rewrite Hlen. exact Hcount.
  - exact Hmax.
Qed.

Lemma get_invariant now lt key loader options c r c' tr :
  invariant cfg c ->
  get now lt key loader options c = Some (r, c', tr) ->
  invariant cfg c'.
Proof.
  intros Hinv. unfold get, get_begin, Eff.bind at 1 2, Eff.withState. simpl.
  destruct (JsMap.get key (entries c)) as [e |] eqn:E.
  - simpl. intros [= _ <- _].
    apply (invariant_touched now key (count_hit (count_request c))); [exact Hinv |].
    unfold has, JsMap.has. simpl. now rewrite E.
  - simpl. unfold get_resume. destruct loader as [m | err].
    + unfold Eff.bind.
      destruct (set now key m (loadMetadata lt options) (count_miss (count_request c)))
        as [[[[] c1] tr1] |] eqn:Hset; [| discriminate].
      simpl. intros [= _ <- _].
      eapply (set_invariant now key m _ (count_miss (count_request c))); [exact Hinv | | exact Hset].
      apply has_get_none. exact E.
    + simpl. intros [= _ <- _]. exact Hinv.
Qed.

Lemma deleteEach_invariant keys : forall c c' tr,
  invariant cfg c ->
  Eff.forEach (fun key => delete key ;;; Eff.ret tt) keys c = Some (tt, c', tr) ->
  invariant cfg c'.
Proof.
  induction keys as [| k keys IH]; intros c c' tr Hinv; simpl.
  - intros [= <- _]. exact Hinv.
  - unfold Eff.bind at 1 2.
    destruct (delete k c) as [[[b c1] tr1] |] eqn:Hdel; [| discriminate]. simpl.
    destruct (Eff.forEach _ keys c1) as [[[[] c2] tr2] |] eqn:Hrest; [| discriminate].
    intros [= <- _]. eapply IH; [| exact Hrest]. eapply delete_invariant; eassumption.
Qed.

Lemma performMaintenance_invariant now c c' tr :
  invariant cfg c -> performMaintenance now c = Some (tt, c', tr) -> invariant cfg c'.
Proof.
  intros Hinv. unfold performMaintenance, Eff.withState. unfold Eff.bind at 1.
  destruct (Eff.forEach _ _ c) as [[[[] c1] tr1] |] eqn:Hdel; [| discriminate].
  pose proof (deleteEach_invariant _ _ _ _ Hinv Hdel) as Hinv1.
  destruct (nearLimit c1).
  - destruct (evictLeastUsed c1) as [[[[] c2] tr2] |] eqn:Hev; [| discriminate].
    intros [= <- _]. eapply evictLeastUsed_invariant; eassumption.
  - intros [= <- _]. exact Hinv1.
Qed.

(** As long as no key is stored a second time, the size total is the sum of
    the sizes of the entries and both budgets hold, whatever the calls. *)
Theorem reachable_invariant c :
  reachable cfg c ->
  config c = cfg /\
  currentSize c = liveSize c /\
  entryCount c <= maxEntries cfg /\
  currentSize c <= maxSize cfg.
Proof.
  intros Hreach.
  assert (Hinv : invariant cfg c).
  { induction Hreach.
    - apply invariant_create; assumption.
    - eapply get_invariant; eassumption.
    - eapply set_invariant; eassumption.
    - eapply delete_invariant; eassumption.
    - eapply evictLeastUsed_invariant; eassumption.
    - eapply performMaintenance_invariant; eassumption.
    - match goal with H : clear _ = Some _ |- _ => injection H as <- _ end.
      apply invariant_cleared; [assumption | assumption | apply IHHreach]. }
  destruct Hinv as (Hc & (_ & _ & _ & _ & Hsum) & (Hcount & Hmax)).
  rewrite Hc in Hcount, Hmax. auto.
Qed.
End InvariantOps.

(** ** The fuel of the two loops *)
Section FuelFacts.
Import LODManager.

(** When the head of the access order is not stored, [evictLeastUsed]
    removes nothing and the loop of [ensureSpace] cannot end. *)
Lemma ensureSpace_loop_stale_head req c k rest :
  ModelCache.needsSpace req c = true ->
  ModelCache.accessOrder c = k :: rest ->
  JsMap.get k (ModelCache.entries c) = None ->
  forall fuel, ModelCache.ensureSpace_loop fuel req c = None.
Proof.
  intros Hneed Ho Hstale fuel.
  induction fuel as [| fuel IH]; rewrite ensureSpace_loop_eq, Hneed, Ho; [reflexivity |].
  unfold Eff.bind, ModelCache.evictLeastUsed, Eff.withState.
  rewrite Ho, Hstale. simpl. rewrite IH. reflexivity.
Qed.

(** More fuel does not change what the loop of [ensureSpace] returns. *)
Lemma ensureSpace_loop_more_fuel fuel : forall req c r,
  ModelCache.ensureSpace_loop fuel req c = Some r ->
  ModelCache.ensureSpace_loop (S fuel) req c = Some r.
Proof.
  induction fuel as [| fuel IH]; intros req c r;
    rewrite (ensureSpace_loop_eq (S _)), ensureSpace_loop_eq;
    destruct (ModelCache.needsSpace req c); try (intros H; exact H);
    destruct (ModelCache.accessOrder c); try (intros H; exact H).
  - discriminate.
  - unfold Eff.bind.
    destruct (ModelCache.evictLeastUsed c) as [[[[] c1] tr1] |]; [| discriminate].
    destruct (ModelCache.ensureSpace_loop fuel req c1) as [r1 |] eqn:E; [| discriminate].
    rewrite (IH req c1 r1 E). intros H. exact H.
Qed.

Lemma changeModelQuality_fuel_low env n m id st :
  changeModelQuality_fuel env n id Low st = changeModelQuality_fuel env m id Low st.
Proof. destruct n, m; reflexivity. Qed.

Lemma changeModelQuality_fuel_medium env n m id st :
  changeModelQuality_fuel env (S n) id Medium st
  = changeModelQuality_fuel env (S m) id Medium st.
Proof.
  rewrite !changeModelQuality_fuel_eq.
  destruct (activeModels st !! id) as [cfg |]; [| reflexivity].
  destruct (pathOf cfg Medium); [| reflexivity].
  apply bind_ext. intros [mo | e] st1; [reflexivity |].
  apply bind_ext. intros _ st2. apply changeModelQuality_fuel_low.
Qed.

Lemma changeModelQuality_fuel_high env n m id st :
  changeModelQuality_fuel env (S (S n)) id High st
  = changeModelQuality_fuel env (S (S m)) id High st.
Proof.
  rewrite !changeModelQuality_fuel_eq.
  destruct (activeModels st !! id) as [cfg |]; [| reflexivity].
  destruct (pathOf cfg High); [| reflexivity].
  apply bind_ext. intros [mo | e] st1; [reflexivity |].
  apply bind_ext. intros _ st2. apply changeModelQuality_fuel_medium.
Qed.

(** Two nested calls are all [changeModelQuality] ever makes: with more
    fuel it does the same. *)
Lemma changeModelQuality_fuel_enough env n id q st :
  changeModelQuality_fuel env (2 + n) id q st = changeModelQuality env id q st.
Proof.
  unfold changeModelQuality. destruct q.
  - apply changeModelQuality_fuel_low.
  - apply (changeModelQuality_fuel_medium env (S n) 1).
  - apply (changeModelQuality_fuel_high env n 0).
Qed.
End FuelFacts.

(** * Further properties of the cache *)
Section CacheLookups.
Context {V : Type}.
Implicit Types m : list (string * V).

Lemma get_set_eq k (v : V) m : JsMap.get k (JsMap.set k v m) = Some v.
Proof.
  induction m as [| [k0 v0] m IH]; simpl.
  - now rewrite String.eqb_refl.
  - destruct (String.eqb k k0) eqn:E; simpl; rewrite E; [reflexivity | exact IH].
Qed.

Lemma get_set_ne k k' (v : V) m :
  k' <> k -> JsMap.get k' (JsMap.set k v m) = JsMap.get k' m.
Proof.
  intros Hne. induction m as [| [k0 v0] m IH]; simpl.
  - apply String.eqb_neq in Hne. now rewrite Hne.
  - destruct (String.eqb k k0) eqn:E; simpl.
    + apply String.eqb_eq in E. subst k0.
      apply String.eqb_neq in Hne. now rewrite Hne.
    + destruct (String.eqb k' k0); [reflexivity | exact IH].
Qed.

Lemma get_delete_ne k k' m :
  k' <> k -> JsMap.get k' (JsMap.delete k m) = JsMap.get k' m.
Proof.
  intros Hne. induction m as [| [k0 v0] m IH]; simpl; [reflexivity |].
  destruct (String.eqb k k0) eqn:E; simpl.
  - apply String.eqb_eq in E. subst k0.
    apply String.eqb_neq in Hne. now rewrite Hne.
  - destruct (String.eqb k' k0); [reflexivity | exact IH].
Qed.


Lemma get_update (g : V -> V) k k' m :
  JsMap.get k' (JsMap.update g k m) =
  if String.eqb k' k then g <$> JsMap.get k m else JsMap.get k' m.
Proof.
  induction m as [| [k0 v0] m IH]; simpl.
  - destruct (String.eqb k' k); reflexivity.
  - destruct (String.eqb k k0) eqn:E; simpl.
    + apply String.eqb_eq in E. subst k0.
      destruct (String.eqb k' k); reflexivity.
    + destruct (String.eqb k' k0) eqn:E'.
      * apply String.eqb_eq in E'. subst k0.
        rewrite String.eqb_sym in E. rewrite E. reflexivity.
      * exact IH.
Qed.

End CacheLookups.

Section CacheExtras.
Import ModelCache.

Lemma get_hit_run now lt key loader options c e :
  JsMap.get key (entries c) = Some e ->
  exists c',
    get now lt key loader options c = Some (Ok (model e), c', []) /\
    JsMap.get key (entries c') = Some (touch now e) /\
    (forall k, k <> key -> JsMap.get k (entries c') = JsMap.get k (entries c)) /\
    accessOrder c' = JsArray.removeFirst key (accessOrder c) ++ [key] /\
    currentSize c' = currentSize c /\
    config c' = config c /\
    totalRequests c' = totalRequests c + 1 /\
    cacheHits c' = cacheHits c + 1 /\
    cacheMisses c' = cacheMisses c.
Proof.
  intros He. unfold get, get_begin, Eff.bind at 1 2, Eff.withState. simpl.
  rewrite He. simpl. eexists. split; [reflexivity |]. simpl.
  split; [rewrite get_update, String.eqb_refl, He; reflexivity |].
  split; [| repeat split].
  intros k Hk. rewrite get_update. apply String.eqb_neq in Hk. now rewrite Hk.
Qed.

(** A hit answers from the cache alone: the stored model comes back, the
    loader is not invoked and nobody is notified; the entry is stamped and
    counted, the key moves to the recent end of the access order, and every
    other entry, the size total and the configuration stay as they were. *)
Theorem get_hit_returns_stored (now lt : Z) (key : string) (loader : Result Model)
    (options : Metadata) (c : Cache) (e : CacheEntry) :
  JsMap.get key (entries c) = Some e ->
  exists c',
    get now lt key loader options c = Some (Ok (model e), c', []) /\
    JsMap.get key (entries c') = Some (touch now e) /\
    (forall k, k <> key -> JsMap.get k (entries c') = JsMap.get k (entries c)) /\
    accessOrder c' = JsArray.removeFirst key (accessOrder c) ++ [key] /\
    currentSize c' = currentSize c /\
    config c' = config c /\
    totalRequests c' = totalRequests c + 1 /\
    cacheHits c' = cacheHits c + 1 /\
    cacheMisses c' = cacheMisses c.
Proof.
  intros He. unfold get, get_begin, Eff.bind at 1 2, Eff.withState. simpl.
  rewrite He. simpl. eexists. split; [reflexivity |]. simpl.
  split; [rewrite get_update, String.eqb_refl, He; reflexivity |].
  split; [| repeat split].
  intros k Hk. rewrite get_update. apply String.eqb_neq in Hk. now rewrite Hk.
Qed.

Lemma get_hit_returns_stored_witness :
  exists c',
    get 5 0 "A" (Err Examples.offline) noMetadata Examples.usedCache
      = Some (Ok Examples.vertex, c', []) /\
    accessOrder c' = ["B"; "A"].
Proof.
  assert (He : exists e, JsMap.get "A" (entries Examples.usedCache) = Some e /\
                         model e = Examples.vertex)
    by (eexists; split; [vm_compute; reflexivity | reflexivity]).
  destruct He as (e & He & Hm).
  destruct (get_hit_returns_stored 5 0 "A" (Err Examples.offline) noMetadata
              Examples.usedCache e He) as (c' & Hrun & _ & _ & Hord & _).
  exists c'. rewrite <- Hm. split; [exact Hrun |]. rewrite Hord. reflexivity.
Defined.

(** [set] stores the entry under the key whenever the model is not too
    large. *)
Lemma set_stores now key m md c :
  orderOk c ->
  2 * estimateModelSize m <= maxSize (config c) ->
  exists c' tr,
    set now key m md c = Some (tt, c', tr) /\
    JsMap.get key (entries c') = Some (newEntry now m (estimateModelSize m) md) /\
    orderOk c' /\ loaderCalls tr = [].
Proof.
  intros Hok Hfit. unfold set, Eff.withState, tooLarge.
  destruct (Z.gtb_spec (2 * estimateModelSize m) (maxSize (config c))); [lia |].
  destruct (ensureSpace_loop_returns (length (accessOrder c)) (estimateModelSize m) c Hok)
    as (c1 & tr1 & Hrun & Hok1 & Htr1 & _); [lia |].
  unfold Eff.bind at 1. unfold ensureSpace, Eff.withState. rewrite Hrun. simpl.
  eexists _, _. split; [reflexivity |]. simpl.
  split; [apply get_set_eq |].
  split; [apply orderOk_store_touch, Hok1 |].
  rewrite app_nil_r. exact Htr1.
Qed.

(** A miss whose load succeeds stores the model: the loader is invoked
    once, and from then on a request for the key is a hit that returns that
    model without the loader. *)
Theorem get_miss_then_hit (now lt : Z) (key : string) (m : Model) (options : Metadata)
    (c : Cache) :
  orderOk c ->
  has key c = false ->
  2 * estimateModelSize m <= maxSize (config c) ->
  exists c1 tr1,
    get now lt key (Ok m) options c = Some (Ok m, c1, tr1) /\
    loaderCalls tr1 = [key] /\
    has key c1 = true /\
    forall now' lt' loader' options', exists c2,
      get now' lt' key loader' options' c1 = Some (Ok m, c2, []).
Proof.
  intros Hok Hmiss Hfit. unfold get. unfold Eff.bind at 1.
  rewrite (get_begin_miss now key c Hmiss). unfold get_finish, get_resume.
  destruct (set_stores now key m (loadMetadata lt options) (count_miss (count_request c))
              Hok Hfit) as (c1 & tr & Hrun & Hget & _ & Htr).
  unfold Eff.bind. rewrite Hrun. simpl.
  eexists _, _. split; [reflexivity |].
  split; [cbn [loaderCalls]; rewrite loaderCalls_app, Htr; reflexivity |].
  split; [unfold has, JsMap.has; now rewrite Hget |].
  intros now' lt' loader' options'.
  destruct (get_hit_run now' lt' key loader' options' c1 _ Hget)
    as (c2 & Hhit & _).
  exists c2. exact Hhit.
Qed.

Lemma get_miss_then_hit_witness :
  exists c1 tr1 c2,
    get 0 7 "k" (Ok Examples.vertex) noMetadata Examples.emptyCache
      = Some (Ok Examples.vertex, c1, tr1) /\
    get 1 0 "k" (Err Examples.offline) noMetadata c1 = Some (Ok Examples.vertex, c2, []).
Proof.
  destruct (get_miss_then_hit 0 7 "k" Examples.vertex noMetadata Examples.emptyCache)
    as (c1 & tr1 & Hrun & _ & _ & Hhit).
  - split; simpl; [constructor |]. intros k Hk. inversion Hk.
  - reflexivity.
  - vm_compute. discriminate.
  - destruct (Hhit 1 0 (Err Examples.offline) noMetadata) as [c2 H2].
    exists c1, tr1, c2. split; assumption.
Defined.



(** [delete] of a key that is not stored changes nothing and reports
    [false].  For a stored key it reports [true], notifies the [eviction]
    subscribers with reason [manual], takes the entry's size off the total
    and the key off the access order, and leaves every other entry alone;
    the key is then no longer stored. *)
Theorem delete_removes_only_key (key : string) (c : Cache) :
  (JsMap.get key (entries c) = None -> delete key c = Some (false, c, [])) /\
  (forall e,
     JsMap.get key (entries c) = Some e ->
     NoDup (JsMap.keys (entries c)) ->
     exists c',
       delete key c = Some (true, c', [NotifyEviction key e manual]) /\
       has key c' = false /\
       (forall k, k <> key -> JsMap.get k (entries c') = JsMap.get k (entries c)) /\
       currentSize c' = currentSize c - size e /\
       accessOrder c' = JsArray.removeFirst key (accessOrder c)).
Proof.
  split.
  - intros H. unfold delete, Eff.withState. rewrite H. reflexivity.
  - intros e He Hnd. unfold delete, Eff.withState. rewrite He.
    eexists. split; [reflexivity |]. simpl.
    split; [apply has_delete_eq, Hnd |].
    split; [| split; reflexivity].
    intros k Hk. apply get_delete_ne, Hk.
Qed.

Lemma delete_removes_only_key_witness :
  delete "C" Examples.usedCache = Some (false, Examples.usedCache, []) /\
  exists e c',
    delete "A" Examples.usedCache = Some (true, c', [NotifyEviction "A" e manual]) /\
    has "A" c' = false /\ has "B" c' = true.
Proof.
  destruct (delete_removes_only_key "C" Examples.usedCache) as [Habsent _].
  split; [apply Habsent; reflexivity |].
  assert (He : exists e, JsMap.get "A" (entries Examples.usedCache) = Some e)
    by (eexists; vm_compute; reflexivity).
  destruct He as (e & He).
  destruct (delete_removes_only_key "A" Examples.usedCache) as [_ Hpresent].
  destruct (Hpresent e He) as (c' & Hrun & Hgone & Hkeep & _).
  - vm_compute. apply NoDup_cons. split; [| apply NoDup_singleton].
    intros H. apply list_elem_of_singleton in H. discriminate.
  - exists e, c'. split; [exact Hrun |]. split; [exact Hgone |].
    unfold has, JsMap.has. rewrite (Hkeep "B") by discriminate. reflexivity.
Defined.

End CacheExtras.

Section CacheEviction.
Import ModelCache.





End CacheEviction.

Section CacheRoom.
Import ModelCache.



(** A cache that calls which do not overlap lead to, with [set] called
    only for keys that are not stored, keeps its configuration, has a size
    total equal to the sum of the sizes of its entries, and stays within
    both budgets. *)
Theorem reachable_cache_invariant (cfg : Config) (c : Cache) :
  1 <= maxEntries cfg ->
  0 <= maxSize cfg ->
  reachable cfg c ->
  config c = cfg /\
  currentSize c = liveSize c /\
  entryCount c <= maxEntries cfg /\
  currentSize c <= maxSize cfg /\
  NoDup (JsMap.keys (entries c)) /\
  orderOk c /\
  (forall k, has k c = true -> k ∈ accessOrder c).
Proof.
  intros Hentries Hsize Hreach.
  assert (Hinv : invariant cfg c).
  { induction Hreach.
    - apply invariant_create; assumption.
    - eapply get_invariant; eassumption.
    - eapply set_invariant; eassumption.
    - eapply delete_invariant; eassumption.
    - eapply evictLeastUsed_invariant; eassumption.
    - eapply performMaintenance_invariant; eassumption.
    - match goal with H : clear _ = Some _ |- _ => injection H as <- _ end.
      apply invariant_cleared; [assumption | assumption | apply IHHreach]. }
  destruct Hinv as (Hc & (Hok & Hnd & Hcov & _ & Hsum) & (Hcount & Hmax)).
  rewrite Hc in Hcount, Hmax. auto 10.
Qed.

Lemma reachable_cache_invariant_witness :
  currentSize Examples.oneEntry = liveSize Examples.oneEntry /\
  entryCount Examples.oneEntry <= 50.
Proof.
  destruct (reachable_cache_invariant defaultConfig Examples.oneEntry)
    as (_ & Hsum & Hcount & _).
  - vm_compute. discriminate.
  - vm_compute. discriminate.
  - eapply (reach_set defaultConfig 0 "A" Examples.vertex noMetadata Examples.emptyCache).
    + apply reach_create.
    + reflexivity.
    + vm_compute. reflexivity.
  - split; [exact Hsum | exact Hcount].
Defined.

End CacheRoom.

Section CacheMaintenance.
Import ModelCache.





End CacheMaintenance.


Section SortOrders.
Context {A : Type}.

Lemma insertSorted_ext (le1 le2 : A -> A -> bool) x l :
  (forall a b, le1 a b = le2 a b) ->
  ModelCache.insertSorted le1 x l = ModelCache.insertSorted le2 x l.
Proof.
  intros Hext. induction l as [| y l IH]; simpl; [reflexivity |].
  now rewrite Hext, IH.
Qed.

Lemma stableSort_ext (le1 le2 : A -> A -> bool) l :
  (forall a b, le1 a b = le2 a b) ->
  ModelCache.stableSort le1 l = ModelCache.stableSort le2 l.
Proof.
  intros Hext. induction l as [| x l IH]; simpl; [reflexivity |].
  rewrite IH. apply insertSorted_ext, Hext.
Qed.

Lemma StronglySorted_take (R : A -> A -> Prop) l :
  StronglySorted R l -> forall n, StronglySorted R (take n l).
Proof.
  induction 1 as [| x l Hs IH Hx]; intros [| n]; simpl; try constructor.
  - apply IH.
  - apply Forall_take, Hx.
Qed.

Lemma StronglySorted_fmap {B} (g : A -> B) (R : B -> B -> Prop) l :
  StronglySorted (fun a b => R (g a) (g b)) l -> StronglySorted R (map g l).
Proof.
  induction 1 as [| x l Hs IH Hx]; simpl; constructor; [exact IH |].
  apply Forall_fmap. exact Hx.
Qed.

Lemma StronglySorted_weaken (R1 R2 : A -> A -> Prop) l :
  (forall a b, R1 a b -> R2 a b) -> StronglySorted R1 l -> StronglySorted R2 l.
Proof.
  intros Himp. induction 1 as [| x l Hs IH Hx]; constructor; [exact IH |].
  eapply Forall_impl; [exact Hx | apply Himp].
Qed.

(** The first [n] elements of the list sorted by [f], and what they leave. *)
Lemma stableSort_split (f : A -> Z) (n : nat) l :
  let sorted := ModelCache.stableSort (ModelCache.leBy f) l in
  l ≡ₚ take n sorted ++ drop n sorted /\
  length (take n sorted) = Nat.min n (length l) /\
  StronglySorted (ModelCache.ascending f) (take n sorted) /\
  forall a b, a ∈ take n sorted -> b ∈ drop n sorted -> f a <= f b.
Proof.
  intros sorted. split; [| split; [| split]].
  - rewrite take_drop. symmetry. apply stableSort_perm.
  - rewrite length_take. f_equal. apply Permutation_length, stableSort_perm.
  - apply StronglySorted_take, stableSort_sorted.
  - apply sorted_take_drop, stableSort_sorted.
Qed.
End SortOrders.

Section CacheRanking.
Import ModelCache.

Lemma mostUsed_order (l : list (string * CacheEntry)) :
  stableSort (fun a b => leBy byCount b a) l
  = stableSort (leBy (fun ke => - byCount ke)) l.
Proof.
  apply stableSort_ext. intros a b. unfold leBy.
  destruct (Z.leb_spec (byCount b) (byCount a)), (Z.leb_spec (- byCount a) (- byCount b));
    try reflexivity; lia.
Qed.

(** [getLeastUsedEntries n] lists [min n size] entries of the cache, each
    with its key and its own access count, in ascending order of access
    count; every entry it leaves out has been read at least as often as
    every entry it lists. *)
Theorem getLeastUsedEntries_least (n : nat) (c : Cache) :
  exists listed others,
    entries c ≡ₚ listed ++ others /\
    getLeastUsedEntries n c = map usageRow listed /\
    length (getLeastUsedEntries n c) = Nat.min n (length (entries c)) /\
    StronglySorted (fun r1 r2 => row_accessCount r1 <= row_accessCount r2)
      (getLeastUsedEntries n c) /\
    forall a b, a ∈ listed -> b ∈ others ->
                accessCount (snd a) <= accessCount (snd b).
Proof.
  destruct (stableSort_split byCount n (entries c)) as (Hperm & Hlen & Hsorted & Hle).
  eexists _, _. split; [exact Hperm |]. split; [reflexivity |].
  split; [unfold getLeastUsedEntries; now rewrite length_map |].
  split; [| exact Hle].
  apply StronglySorted_fmap. exact Hsorted.
Qed.

(** [getMostUsedEntries n] lists [min n size] entries of the cache, each
    with its key and its own access count, in descending order of access
    count; every entry it leaves out has been read at most as often as
    every entry it lists. *)
Theorem getMostUsedEntries_most (n : nat) (c : Cache) :
  exists listed others,
    entries c ≡ₚ listed ++ others /\
    getMostUsedEntries n c = map usageRow listed /\
    length (getMostUsedEntries n c) = Nat.min n (length (entries c)) /\
    StronglySorted (fun r1 r2 => row_accessCount r2 <= row_accessCount r1)
      (getMostUsedEntries n c) /\
    forall a b, a ∈ listed -> b ∈ others ->
                accessCount (snd b) <= accessCount (snd a).
Proof.
  destruct (stableSort_split (fun ke => - byCount ke) n (entries c))
    as (Hperm & Hlen & Hsorted & Hle).
  unfold getMostUsedEntries. rewrite mostUsed_order.
  eexists _, _. split; [exact Hperm |]. split; [reflexivity |].
  split; [now rewrite length_map |].
  split.
  - apply StronglySorted_fmap.
    eapply StronglySorted_weaken; [| exact Hsorted].
    intros a b. unfold ascending, usageRow, byCount. simpl. lia.
  - intros a b Ha Hb. specialize (Hle a b Ha Hb). unfold byCount in Hle. lia.
Qed.

End CacheRanking.

Section CacheTotal.
Import ModelCache.

(** An uninterrupted [get] on a cache whose access order is in step with
    its entries returns, with what is stored or with what the loader gave,
    and leaves the access order in step. *)
Lemma get_returns now lt key loader options c :
  orderOk c ->
  exists r c' tr,
    get now lt key loader options c = Some (r, c', tr) /\
    orderOk c' /\
    (r = loader /\ loaderCalls tr = [key] \/
     exists e, JsMap.get key (entries c) = Some e /\ r = Ok (model e) /\ tr = []).
Proof.
  intros Hok. destruct (JsMap.get key (entries c)) as [e |] eqn:He.
  - destruct (get_hit_run now lt key loader options c e He)
      as (c' & Hrun & Hkey & Hothers & Hord & _).
    exists (Ok (model e)), c', []. split; [exact Hrun |]. split; [| right; eauto].
    destruct Hok as [Hnd Hin]. split.
    + rewrite Hord. apply NoDup_app. split; [apply removeFirst_NoDup, Hnd |].
      split; [| apply NoDup_singleton].
      intros k Hk Hk'. apply list_elem_of_singleton in Hk'. subst k.
      exact (removeFirst_not_in _ _ Hnd Hk).
    + intros k Hk. rewrite Hord in Hk. unfold JsMap.has.
      destruct (String.eqb k key) eqn:Ek.
      * apply String.eqb_eq in Ek. subst k. now rewrite Hkey.
      * apply String.eqb_neq in Ek. rewrite (Hothers k Ek).
        apply elem_of_app in Hk as [Hk | Hk].
        -- apply in_removeFirst in Hk. apply Hin in Hk. exact Hk.
        -- apply list_elem_of_singleton in Hk. contradiction.
  - assert (Hmiss : has key c = false) by (apply has_get_none, He).
    destruct (get_resume_returns now lt key loader options
                (count_miss (count_request c)) Hok) as (c' & tr & Hrun & Hok' & Htr).
    unfold get, Eff.bind. rewrite (get_begin_miss _ _ _ Hmiss). unfold get_finish.
    rewrite Hrun. eexists _, _, _. split; [reflexivity |]. split; [exact Hok' |].
    left. split; [reflexivity |]. simpl. now rewrite Htr.
Qed.
End CacheTotal.

Section ManagerOutcomes.
Import LODManager.

Lemma with_modelCache_same st : with_modelCache (modelCache st) st = st.
Proof. destruct st; reflexivity. Qed.

Lemma preloadModel_returns env id q st :
  ModelCache.orderOk (modelCache st) ->
  exists r c' tr,
    preloadModel env id q st = Some (r, with_modelCache c' st, tr) /\
    ModelCache.orderOk c' /\
    failedQualities tr = [] /\
    qualityChangeEvents tr = [] /\
    (forall m, r = ModelCache.Ok m ->
       exists cfg, activeModels st !! id = Some cfg /\ is_Some (pathOf cfg q)) /\
    (loaderCalls tr = [] \/ loaderCalls tr = [cacheKey id q]) /\
    (forall a, a ∈ tr -> exists b, a = Cache b).
Proof.
  intros Hok. unfold preloadModel, Eff.withState.
  destruct (activeModels st !! id) as [cfg |] eqn:Hcfg.
  - destruct (pathOf cfg q) as [p |] eqn:Hp.
    + destruct (get_returns (now env) (loadTime env) (cacheKey id q) (gltf env p)
                  {| ModelCache.md_quality := Some (qualityName q);
                     ModelCache.md_loadTime := None |} (modelCache st) Hok)
        as (r & c' & tr & Hrun & Hok' & Hres).
      unfold onCache, Eff.zoom. rewrite Hrun.
      eexists _, _, _. split; [reflexivity |]. split; [exact Hok' |].
      rewrite failedQualities_cache, qualityChangeEvents_cache, loaderCalls_cache.
      split; [reflexivity |]. split; [reflexivity |]. split; [intros m _; eauto |].
      split.
      * destruct Hres as [[_ Htr] | (e & _ & _ & ->)]; [right; exact Htr | now left].
      * intros a Ha. apply list_elem_of_fmap in Ha as (b & -> & _). eauto.
    + exists (ModelCache.Err (notFound id q)), (modelCache st), [].
      rewrite with_modelCache_same. split; [reflexivity |]. split; [exact Hok |].
      split; [reflexivity |]. split; [reflexivity |]. split; [discriminate |].
      split; [now left | intros a Ha; inversion Ha].
  - exists (ModelCache.Err (notFound id q)), (modelCache st), [].
    rewrite with_modelCache_same. split; [reflexivity |]. split; [exact Hok |].
    split; [reflexivity |]. split; [reflexivity |]. split; [discriminate |].
    split; [now left | intros a Ha; inversion Ha].
Qed.

End ManagerOutcomes.

Section ManagerChanges.
Import LODManager.

Lemma changeModelQuality_fuel_outcome env fuel : forall id q st,
  (qualityLevel (Some q) <= S fuel)%nat ->
  ModelCache.orderOk (modelCache st) ->
  exists st' tr,
    changeModelQuality_fuel env fuel id q st = Some (tt, st', tr) /\
    ModelCache.orderOk (modelCache st') /\
    config st' = config st /\
    isInitialized st' = isInitialized st /\
    isOptimizing st' = isOptimizing st /\
    (leavesAsIs st st' tr \/
     exists q', (qualityLevel (Some q') <= qualityLevel (Some q))%nat /\
                loadsAt id q' st st' tr).
Proof.
  induction fuel as [| fuel IH]; intros id q st Hfuel Hok;
    rewrite changeModelQuality_fuel_eq.
  all: destruct (activeModels st !! id) as [cfg |] eqn:Hcfg;
    [| exists st, []; split; [reflexivity |]; split; [exact Hok |]; do 3 (split; [reflexivity |]); left; repeat split].
  all: destruct (pathOf cfg q) as [p |] eqn:Hp;
    [| exists st, []; split; [reflexivity |]; split; [exact Hok |]; do 3 (split; [reflexivity |]); left; repeat split].
  all: destruct (preloadModel_returns env id q st Hok)
         as (r & c' & tr & Hrun & Hok' & Hfail & Hchg & _).
  all: unfold Eff.bind at 1; rewrite Hrun.
  all: destruct r as [m | e].
  all: try (destruct (element cfg) as [h |] eqn:Hel; [destruct m |]; unfold Eff.bind; simpl;
    (eexists _, _; split; [reflexivity |]; split; [exact Hok' |];
     split; [reflexivity |]; split; [reflexivity |]; split; [reflexivity |];
     right; exists q; split; [lia |]; exists cfg;
     split; [exact Hcfg |]; split; [rewrite Hp; eauto |];
     split; [reflexivity |]; split;
     [intros h' Hne; simpl; try reflexivity; apply lookup_insert_ne; congruence |];
     split; [reflexivity |];
     rewrite qualityChangeEvents_app, Hchg; reflexivity)).
  - (* out of fuel: only Low is admitted *)
    destruct q; simpl in Hfuel; try lia.
    unfold Eff.bind. simpl. eexists _, _. split; [reflexivity |].
    split; [exact Hok' |]. repeat (split; [reflexivity |]).
    left. repeat split. rewrite qualityChangeEvents_app, Hchg. reflexivity.
  - destruct q.
    + unfold Eff.bind. simpl. eexists _, _. split; [reflexivity |].
      split; [exact Hok' |]. repeat (split; [reflexivity |]).
      left. repeat split. rewrite qualityChangeEvents_app, Hchg. reflexivity.
    + destruct (IH id Low (with_modelCache c' st)) as (st' & tr' & Hrun' & Hok'' & Hc & Hi & Ho & Hout);
        [simpl; lia | exact Hok' |].
      unfold Eff.bind. simpl. rewrite Hrun'. eexists _, _. split; [reflexivity |].
      split; [exact Hok'' |]. split; [exact Hc |]. split; [exact Hi |]. split; [exact Ho |].
      destruct Hout as [(Ha & Hd & Hs & He) | (q' & Hq' & cfg' & H1 & H2 & H3 & H4 & H5 & H6)].
      * left. repeat split; try assumption.
        rewrite qualityChangeEvents_app, Hchg. simpl. exact He.
      * right. exists q'. split; [simpl in *; lia |]. exists cfg'.
        repeat split; try assumption.
        rewrite qualityChangeEvents_app, Hchg. simpl. exact H6.
    + destruct (IH id Medium (with_modelCache c' st)) as (st' & tr' & Hrun' & Hok'' & Hc & Hi & Ho & Hout);
        [simpl in *; lia | exact Hok' |].
      unfold Eff.bind. simpl. rewrite Hrun'. eexists _, _. split; [reflexivity |].
      split; [exact Hok'' |]. split; [exact Hc |]. split; [exact Hi |]. split; [exact Ho |].
      destruct Hout as [(Ha & Hd & Hs & He) | (q' & Hq' & cfg' & H1 & H2 & H3 & H4 & H5 & H6)].
      * left. repeat split; try assumption.
        rewrite qualityChangeEvents_app, Hchg. simpl. exact He.
      * right. exists q'. split; [simpl in *; lia |]. exists cfg'.
        repeat split; try assumption.
        rewrite qualityChangeEvents_app, Hchg. simpl. exact H6.
Qed.

End ManagerChanges.

Section ManagerQuality.
Import LODManager.

(** [changeModelQuality] always completes: its promise is fulfilled
    whatever the loader does.  It leaves the models, the elements and the
    counters as they were, or it takes the requested model to the target
    quality or one below it, with one [qualityChange] notification; no
    other model changes. *)
Theorem changeModelQuality_outcome (env : Env) (id : string) (q : Quality) (st : State) :
  ModelCache.orderOk (modelCache st) ->
  exists st' tr,
    changeModelQuality env id q st = Some (tt, st', tr) /\
    ModelCache.orderOk (modelCache st') /\
    config st' = config st /\
    isInitialized st' = isInitialized st /\
    isOptimizing st' = isOptimizing st /\
    (leavesAsIs st st' tr \/
     exists q', (qualityLevel (Some q') <= qualityLevel (Some q))%nat /\
                loadsAt id q' st st' tr).
Proof.
  intros Hok. apply changeModelQuality_fuel_outcome; [| exact Hok].
  destruct q; simpl; lia.
Qed.

Lemma changeModelQuality_outcome_witness :
  exists st' tr,
    changeModelQuality Examples.onlyLow "hero" High
      (Examples.heroRegistered Examples.threePaths) = Some (tt, st', tr) /\
    isOptimizing st' = false.
Proof.
  destruct (changeModelQuality_outcome Examples.onlyLow "hero" High
              (Examples.heroRegistered Examples.threePaths))
    as (st' & tr & Hrun & _ & _ & _ & Hopt & _).
  - split; simpl; [constructor |]. intros k Hk. inversion Hk.
  - exists st', tr. split; [exact Hrun | exact Hopt].
Defined.

Lemma notRaised_refl st : notRaised st st.
Proof.
  intros id. destruct (activeModels st !! id) as [cfg |] eqn:E; [| reflexivity].
  exists cfg. split; [reflexivity |]. split; [lia | reflexivity].
Qed.

Lemma notRaised_trans st1 st2 st3 :
  notRaised st1 st2 -> notRaised st2 st3 -> notRaised st1 st3.
Proof.
  intros H12 H23 id. specialize (H12 id). specialize (H23 id).
  destruct (activeModels st1 !! id) as [cfg |].
  - destruct H12 as (cfg2 & E2 & Hle2 & Hsame2). rewrite E2 in H23.
    destruct H23 as (cfg3 & E3 & Hle3 & Hsame3). exists cfg3.
    split; [exact E3 |]. split; [lia |]. intros Hlow.
    specialize (Hsame2 Hlow). subst cfg2. apply Hsame3, Hlow.
  - rewrite H12 in H23. exact H23.
Qed.

Lemma reduceQuality_step env id st :
  ModelCache.orderOk (modelCache st) ->
  exists st' tr,
    reduceQuality env id st = Some (tt, st', tr) /\
    ModelCache.orderOk (modelCache st') /\
    notRaised st st' /\
    (forall id', id' <> id -> activeModels st' !! id' = activeModels st !! id').
Proof.
  intros Hok. unfold reduceQuality, Eff.withState.
  assert (Hstay : exists st' tr,
            Some (tt, st, @nil Action) = Some (tt, st', tr) /\
            ModelCache.orderOk (modelCache st') /\ notRaised st st' /\
            (forall id', id' <> id -> activeModels st' !! id' = activeModels st !! id')).
  { exists st, []. split; [reflexivity |]. split; [exact Hok |].
    split; [apply notRaised_refl | reflexivity]. }
  assert (Hgo : forall cfg q, activeModels st !! id = Some cfg ->
            (qualityLevel (Some q) < qualityLevel (currentQuality cfg))%nat ->
            exists st' tr,
              changeModelQuality env id q st = Some (tt, st', tr) /\
              ModelCache.orderOk (modelCache st') /\ notRaised st st' /\
              (forall id', id' <> id -> activeModels st' !! id' = activeModels st !! id')).
  { intros cfg q Hcfg Hlt.
    assert (Hfuel : (qualityLevel (Some q) <= 3)%nat) by (destruct q; simpl; lia).
    destruct (changeModelQuality_fuel_outcome env 2 id q st Hfuel Hok)
      as (st' & tr & Hrun & Hok' & _ & _ & _ & Hout).
    exists st', tr. split; [exact Hrun |]. split; [exact Hok' |].
    destruct Hout as [(Ha & _) | (q' & Hq' & cfg0 & Hcfg0 & _ & Ha & _)].
    - split; [| intros id' _; now rewrite Ha].
      intros id'. rewrite Ha. apply notRaised_refl.
    - rewrite Hcfg in Hcfg0. injection Hcfg0 as <-.
      split; [| intros id' Hne; rewrite Ha; apply lookup_insert_ne; congruence].
      intros id'. destruct (decide (id' = id)) as [-> | Hne].
      + rewrite Hcfg, Ha, lookup_insert_eq. eexists. split; [reflexivity |].
        split; [simpl in *; lia | intros Hlow; destruct q; simpl in *; lia].
      + rewrite Ha, lookup_insert_ne by congruence.
        destruct (activeModels st !! id') as [cfg' |]; [| reflexivity].
        exists cfg'. split; [reflexivity |]. split; [lia | reflexivity]. }
  destruct (activeModels st !! id) as [cfg |] eqn:Hcfg; [| exact Hstay].
  destruct (currentQuality cfg) as [[] |] eqn:Hq; try exact Hstay.
  - apply (Hgo cfg Low eq_refl). rewrite Hq. simpl. lia.
  - apply (Hgo cfg Medium eq_refl). rewrite Hq. simpl. lia.
Qed.

Lemma reduceAllModelQuality_run env ids st :
  ModelCache.orderOk (modelCache st) ->
  exists st' tr,
    reduceAllModelQuality env ids st = Some (tt, st', tr) /\
    ModelCache.orderOk (modelCache st') /\
    notRaised st st' /\
    (forall id, id ∉ ids -> activeModels st' !! id = activeModels st !! id).
Proof.
  revert st. unfold reduceAllModelQuality.
  induction ids as [| id ids IH]; intros st Hok; simpl.
  - exists st, []. split; [reflexivity |]. split; [exact Hok |].
    split; [apply notRaised_refl | reflexivity].
  - destruct (reduceQuality_step env id st Hok) as (st1 & tr1 & Hrun1 & Hok1 & Hnr1 & Hfr1).
    destruct (IH st1 Hok1) as (st2 & tr2 & Hrun2 & Hok2 & Hnr2 & Hfr2).
    unfold Eff.bind. rewrite Hrun1, Hrun2. eexists _, _. split; [reflexivity |].
    split; [exact Hok2 |]. split; [eapply notRaised_trans; eassumption |].
    intros id' Hout. apply not_elem_of_cons in Hout as [Hne Hout].
    rewrite (Hfr2 id' Hout). apply Hfr1, Hne.
Qed.

(** [reduceAllModelQuality], run to its end without interruption, always
    completes and never raises a model: every registered model ends at its
    level of detail or below, a model at ['low'] or unloaded is left as it
    was, as is every model the loop does not visit, and no model is added
    or removed. *)
Theorem reduceAllModelQuality_never_raises (env : Env) (ids : list string) (st : State) :
  ModelCache.orderOk (modelCache st) ->
  exists st' tr,
    reduceAllModelQuality env ids st = Some (tt, st', tr) /\
    ModelCache.orderOk (modelCache st') /\
    notRaised st st' /\
    (forall id, id ∉ ids -> activeModels st' !! id = activeModels st !! id).
Proof.
  revert st. unfold reduceAllModelQuality.
  induction ids as [| id ids IH]; intros st Hok; simpl.
  - exists st, []. split; [reflexivity |]. split; [exact Hok |].
    split; [apply notRaised_refl | reflexivity].
  - destruct (reduceQuality_step env id st Hok) as (st1 & tr1 & Hrun1 & Hok1 & Hnr1 & Hfr1).
    destruct (IH st1 Hok1) as (st2 & tr2 & Hrun2 & Hok2 & Hnr2 & Hfr2).
    unfold Eff.bind. rewrite Hrun1, Hrun2. eexists _, _. split; [reflexivity |].
    split; [exact Hok2 |]. split; [eapply notRaised_trans; eassumption |].
    intros id' Hout. apply not_elem_of_cons in Hout as [Hne Hout].
    rewrite (Hfr2 id' Hout). apply Hfr1, Hne.
Qed.

End ManagerQuality.

Lemma reduceAllModelQuality_never_raises_witness :
  exists st' tr,
    LODManager.reduceAllModelQuality Examples.onlyLow ["hero"]
      (Examples.heroRegistered Examples.threePaths) = Some (tt, st', tr) /\
    LODManager.notRaised (Examples.heroRegistered Examples.threePaths) st'.
Proof.
  destruct (reduceAllModelQuality_never_raises Examples.onlyLow ["hero"]
              (Examples.heroRegistered Examples.threePaths))
    as (st' & tr & Hrun & _ & Hnr & _).
  - split; simpl; [constructor |]. intros k Hk. inversion Hk.
  - exists st', tr. split; [exact Hrun | exact Hnr].
Defined.

Section ManagerUnload.
Import LODManager.

Lemma threeTenthsCeil_le n : (threeTenthsCeil n <= n)%nat.
Proof.
  unfold threeTenthsCeil. apply Nat.lt_succ_r.
  apply Nat.Div0.div_lt_upper_bound. lia.
Qed.

Lemma elem_of_entriesOf ids st ic :
  ic ∈ entriesOf ids st <-> fst ic ∈ ids /\ activeModels st !! fst ic = Some (snd ic).
Proof.
  unfold entriesOf. rewrite list_elem_of_omap. split.
  - intros (id & Hid & Hic). destruct (activeModels st !! id) as [cfg |] eqn:E;
      [| discriminate]. injection Hic as <-. simpl. auto.
  - intros [Hid Hic]. exists (fst ic). split; [exact Hid |]. rewrite Hic.
    destruct ic; reflexivity.
Qed.

Lemma entriesOf_keys ids st : map fst (entriesOf ids st) `sublist_of` ids.
Proof.
  unfold entriesOf. induction ids as [| id ids IH]; simpl; [constructor |].
  destruct (activeModels st !! id) as [cfg |]; simpl.
  - apply sublist_skip, IH.
  - apply sublist_cons, IH.
Qed.

Lemma loadedByPriority_spec ids st :
  NoDup ids ->
  NoDup (map fst (loadedByPriority ids st)) /\
  forall ic, ic ∈ loadedByPriority ids st <->
             fst ic ∈ ids /\ activeModels st !! fst ic = Some (snd ic) /\
             isLoaded (snd ic) = true.
Proof.
  intros Hnd. unfold loadedByPriority. split.
  - rewrite stableSort_perm. eapply sublist_NoDup; [exact Hnd |].
    etransitivity; [| apply entriesOf_keys].
    apply fmap_sublist, sublist_filter.
  - intros ic. rewrite stableSort_perm, list_elem_of_filter, elem_of_entriesOf.
    rewrite Is_true_true. tauto.
Qed.

Lemma unloadEach_run (l : list (string * ModelConfig)) : forall st,
  NoDup (map fst l) ->
  (forall ic, ic ∈ l -> activeModels st !! fst ic = Some (snd ic)) ->
  exists st',
    Eff.forEach (fun ic => unloadModel (fst ic)) l st = Some (tt, st', []) /\
    modelCache st' = modelCache st /\
    stats st' = stats st /\
    (forall ic, ic ∈ l -> activeModels st' !! fst ic = Some (unloaded (snd ic))) /\
    (forall id, id ∉ map fst l -> activeModels st' !! id = activeModels st !! id) /\
    (forall h, document st' !! h =
               if decide (Some h ∈ map (fun ic => element (snd ic)) l)
               then Some {| mesh := None; visible := false |}
               else document st !! h).
Proof.
  induction l as [| [id cfg] l IH]; intros st Hnd Hreg; cbn [Eff.forEach map fst snd].
  - exists st. split; [reflexivity |]. split; [reflexivity |]. split; [reflexivity |].
    split; [intros ic Hic; inversion Hic |]. split; [reflexivity |].
    intros h. rewrite decide_False; [reflexivity | intros H; inversion H].
  - cbn [map fst] in Hnd. apply NoDup_cons in Hnd as [Hid Hnd].
    assert (Hcfg : activeModels st !! id = Some cfg) by (apply (Hreg (id, cfg)); left).
    pose proof (unloadModel_known id cfg st Hcfg) as Hrun1.
    set (st1 := with_activeModels (<[id := unloaded cfg]> (activeModels st))
                  (match element cfg with
                   | Some h =>
                       with_document
                         (<[h := {| mesh := None; visible := false |}]> (document st)) st
                   | None => st
                   end)) in *.
    destruct (IH st1 Hnd) as (st' & Hrun & Hcache & Hstats & Hvict & Hrest & Hdoc).
    { intros ic Hic. unfold st1. simpl. rewrite lookup_insert_ne.
      - destruct (element cfg); apply Hreg; right; exact Hic.
      - intros ->. apply Hid. apply list_elem_of_fmap. exists ic. auto. }
    unfold Eff.bind. rewrite Hrun1, Hrun. exists st'. split; [reflexivity |].
    split; [rewrite Hcache; unfold st1; destruct (element cfg); reflexivity |].
    split; [rewrite Hstats; unfold st1; destruct (element cfg); reflexivity |].
    split; [| split].
    + intros ic Hic. apply elem_of_cons in Hic as [-> | Hic]; [| apply Hvict, Hic].
      simpl. rewrite (Hrest id Hid). unfold st1. simpl. apply lookup_insert_eq.
    + intros id' Hout. apply not_elem_of_cons in Hout as [Hne Hout].
      rewrite (Hrest id' Hout). unfold st1. simpl. rewrite lookup_insert_ne by congruence.
      destruct (element cfg); reflexivity.
    + intros h. rewrite Hdoc.
      destruct (decide (Some h ∈ map (fun ic => element (snd ic)) l)) as [Hin | Hout].
      * rewrite decide_True; [reflexivity | right; exact Hin].
      * unfold st1. simpl. destruct (element cfg) as [h0 |] eqn:Hel; simpl.
        -- destruct (decide (h0 = h)) as [-> | Hne].
           ++ rewrite decide_True by left. apply lookup_insert_eq.
           ++ rewrite decide_False; [apply lookup_insert_ne, Hne |].
              intros H. apply elem_of_cons in H as [H | H]; [congruence | contradiction].
        -- rewrite decide_False; [reflexivity |].
           intros H. apply elem_of_cons in H as [H | H]; [congruence | contradiction].
Qed.

(** [reduceActiveModels] unloads the first three tenths, rounded up, of
    the loaded models in ascending order of priority, never reading past
    the end of that list: each of them is marked unloaded and its element
    is hidden and loses its mesh, no other model and no other element
    changes, the cache is not touched, and no model it spares has a lower
    priority than one it unloads. *)
Theorem reduceActiveModels_unloads_lowest_priority (ids : list string) (st : State) :
  NoDup ids ->
  let ranked := loadedByPriority ids st in
  let toUnload := threeTenthsCeil (length ranked) in
  exists st',
    reduceActiveModels ids st = Some (tt, st', []) /\
    (toUnload <= length ranked)%nat /\
    length (take toUnload ranked) = toUnload /\
    (forall ic, ic ∈ ranked <->
                fst ic ∈ ids /\ activeModels st !! fst ic = Some (snd ic) /\
                isLoaded (snd ic) = true) /\
    (forall ic, ic ∈ take toUnload ranked ->
                activeModels st' !! fst ic = Some (unloaded (snd ic))) /\
    (forall id, id ∉ map fst (take toUnload ranked) ->
                activeModels st' !! id = activeModels st !! id) /\
    (forall v o, v ∈ take toUnload ranked -> o ∈ drop toUnload ranked ->
                 priority (snd v) <= priority (snd o)) /\
    (forall h, document st' !! h =
               if decide (Some h ∈ map (fun ic => element (snd ic)) (take toUnload ranked))
               then Some {| mesh := None; visible := false |}
               else document st !! h) /\
    modelCache st' = modelCache st.
Proof.
  intros Hnd ranked toUnload.
  destruct (loadedByPriority_spec ids st Hnd) as [Hkeys Hranked].
  fold ranked in Hkeys, Hranked.
  destruct (unloadEach_run (take toUnload ranked) st)
    as (st' & Hrun & Hcache & _ & Hvict & Hrest & Hdoc).
  { eapply sublist_NoDup; [exact Hkeys |]. apply fmap_sublist, sublist_take. }
  { intros ic Hic. apply Hranked. eapply subseteq_take, Hic. }
  exists st'. split; [exact Hrun |].
  split; [apply threeTenthsCeil_le |].
  split; [apply length_take_le, threeTenthsCeil_le |].
  split; [exact Hranked |]. split; [exact Hvict |]. split; [exact Hrest |].
  split; [| split; [exact Hdoc | exact Hcache]].
  intros v o Hv Ho.
  exact (sorted_take_drop byPriority ranked (stableSort_sorted byPriority _) toUnload v o Hv Ho).
Qed.

End ManagerUnload.

Lemma reduceActiveModels_unloads_lowest_priority_witness :
  exists st',
    LODManager.reduceActiveModels ["hero"]
      (Examples.after (LODManager.changeModelQuality Examples.onlyLow "hero" LODManager.Low)
         (Examples.heroRegistered Examples.threePaths)) = Some (tt, st', []) /\
    (exists cfg, LODManager.activeModels st' !! "hero" = Some (LODManager.unloaded cfg)) /\
    LODManager.document st' !! "hero"
    = Some {| LODManager.mesh := None; LODManager.visible := false |}.
Proof.
  destruct (reduceActiveModels_unloads_lowest_priority ["hero"]
              (Examples.after
                 (LODManager.changeModelQuality Examples.onlyLow "hero" LODManager.Low)
                 (Examples.heroRegistered Examples.threePaths)))
    as (st' & Hrun & _ & _ & _ & Hvict & _ & _ & Hdoc & _).
  - apply NoDup_singleton.
  - exists st'. split; [exact Hrun |]. split.
    + eexists. eapply (Hvict ("hero", _)). vm_compute. left.
    + rewrite Hdoc. vm_compute. reflexivity.
Defined.

Section ManagerRegistration.
Import LODManager.

Lemma initialize_returns env st :
  ModelCache.orderOk (modelCache st) ->
  exists st1,
    initialize env st = Some (tt, st1, []) /\
    ModelCache.orderOk (modelCache st1) /\
    activeModels st1 = activeModels st /\
    document st1 = document st /\
    stats st1 = stats st /\
    isInitialized st1 = true /\
    (isInitialized st = true -> st1 = st).
Proof.
  intros Hok. unfold initialize, Eff.withState.
  destruct (isInitialized st) eqn:Hinit.
  - exists st. repeat (split; [reflexivity || assumption |]). reflexivity.
  - eexists. split; [reflexivity |]. split; [exact Hok |].
    repeat (split; [reflexivity |]). discriminate.
Qed.

(** [registerModel] is always fulfilled, whatever the loader does: it
    initialises the manager if need be and puts a fresh, unloaded entry
    under the id, replacing the one that was there; it does not touch any
    element and it loads nothing but the ['low'] asset, at most once, and
    only when preloading is on and a ['low'] path is given.  A failed
    preload is warned about and nothing more.  The [modelLoad]
    notification comes last. *)
Theorem registerModel_always_fulfilled (env : Env) (id : string)
    (modelPaths : gmap string string) (options : Options) (st : State) :
  ModelCache.orderOk (modelCache st) ->
  exists st1 st' pre,
    initialize env st = Some (tt, st1, []) /\
    registerModel env id modelPaths options st
    = Some (ModelCache.Ok tt, st',
            pre ++ [NotifyModelLoad id (newModelConfig id modelPaths options st1)]) /\
    activeModels st'
    = <[id := newModelConfig id modelPaths options st1]> (activeModels st) /\
    currentQuality (newModelConfig id modelPaths options st1) = None /\
    isLoaded (newModelConfig id modelPaths options st1) = false /\
    document st' = document st /\
    isInitialized st' = true /\
    modelsRegistered (stats st') = modelsRegistered (stats st) + 1 /\
    ModelCache.orderOk (modelCache st') /\
    (forall a, a ∈ pre -> (exists b, a = Cache b) \/ exists e, a = WarnPreload id e) /\
    (loaderCalls pre = [] \/ loaderCalls pre = [cacheKey id Low]) /\
    (preload (newModelConfig id modelPaths options st1) = false \/
     pathOf (newModelConfig id modelPaths options st1) Low = None ->
     pre = [] /\ modelCache st' = modelCache st1).
Proof.
  intros Hok.
  destruct (initialize_returns env st Hok)
    as (st1 & Hinit & Hok1 & Ham1 & Hdoc1 & Hstats1 & Hflag1 & _).
  exists st1.
  cut (exists st' pre,
         registerModel env id modelPaths options st
         = Some (ModelCache.Ok tt, st',
                 pre ++ [NotifyModelLoad id (newModelConfig id modelPaths options st1)]) /\
         activeModels st'
         = <[id := newModelConfig id modelPaths options st1]> (activeModels st) /\
         currentQuality (newModelConfig id modelPaths options st1) = None /\
         isLoaded (newModelConfig id modelPaths options st1) = false /\
         document st' = document st /\
         isInitialized st' = true /\
         modelsRegistered (stats st') = modelsRegistered (stats st) + 1 /\
         ModelCache.orderOk (modelCache st') /\
         (forall a, a ∈ pre -> (exists b, a = Cache b) \/ exists e, a = WarnPreload id e) /\
         (loaderCalls pre = [] \/ loaderCalls pre = [cacheKey id Low]) /\
         (preload (newModelConfig id modelPaths options st1) = false \/
          pathOf (newModelConfig id modelPaths options st1) Low = None ->
          pre = [] /\ modelCache st' = modelCache st1)).
  { intros (st' & pre & H). exists st', pre. split; [exact Hinit | exact H]. }
  unfold registerModel. unfold Eff.bind at 1. rewrite Hinit.
  unfold Eff.withState. unfold Eff.bind at 1 2. simpl.
  set (cfg := newModelConfig id modelPaths options st1).
  set (st2 := count_registered
                (with_activeModels (<[id := cfg]> (activeModels st1)) st1)).
  assert (Hskip : exists st' pre,
            Some (ModelCache.Ok tt, st2, [NotifyModelLoad id cfg])
            = Some (ModelCache.Ok tt, st', pre ++ [NotifyModelLoad id cfg]) /\
            activeModels st' = <[id := cfg]> (activeModels st) /\
            currentQuality cfg = None /\ isLoaded cfg = false /\
            document st' = document st /\ isInitialized st' = true /\
            modelsRegistered (stats st') = modelsRegistered (stats st) + 1 /\
            ModelCache.orderOk (modelCache st') /\
            (forall a, a ∈ pre -> (exists b, a = Cache b) \/ exists e, a = WarnPreload id e) /\
            (loaderCalls pre = [] \/ loaderCalls pre = [cacheKey id Low]) /\
            (preload cfg = false \/ pathOf cfg Low = None ->
             pre = [] /\ modelCache st' = modelCache st1)).
  { exists st2, []. split; [reflexivity |]. unfold st2. simpl.
    rewrite Ham1, Hdoc1, Hstats1. repeat (split; [reflexivity || assumption |]).
    split; [intros a Ha; inversion Ha |]. split; [now left |]. intros _. now split. }
  change (default true (opt_preload options)) with (preload cfg) in *.
  destruct (preload cfg) eqn:Hpre; [| unfold Eff.bind; simpl; exact Hskip].
  destruct (pathOf cfg Low) as [p |] eqn:Hp; [| unfold Eff.bind; simpl; exact Hskip].
  clear Hskip.
  destruct (preloadModel_returns env id Low st2 Hok1)
    as (r & c' & tr & Hrun & Hok' & _ & _ & _ & Hcalls & Hcache).
  unfold Eff.bind. rewrite Hrun.
  destruct r as [m | e]; simpl.
  - exists (with_modelCache c' st2), tr. rewrite app_nil_r. split; [reflexivity |].
    unfold st2. simpl. rewrite Ham1, Hdoc1, Hstats1.
    repeat (split; [reflexivity || assumption |]).
    split; [intros a Ha; left; apply Hcache, Ha |]. split; [exact Hcalls |].
    intros [H | H]; discriminate.
  - exists (with_modelCache c' st2), (tr ++ [WarnPreload id e]).
    split; [now rewrite <- app_assoc |].
    unfold st2. simpl. rewrite Ham1, Hdoc1, Hstats1.
    repeat (split; [reflexivity || assumption |]).
    split; [| split].
    + intros a Ha. apply elem_of_app in Ha as [Ha | Ha]; [left; apply Hcache, Ha |].
      apply list_elem_of_singleton in Ha. right. eauto.
    + rewrite manager_loaderCalls_app. simpl. rewrite app_nil_r. exact Hcalls.
    + intros [H | H]; discriminate.
Qed.

Lemma registerModel_always_fulfilled_witness :
  exists st' tr,
    registerModel Examples.onlyLow "hero" Examples.threePaths noOptions Examples.freshManager
    = Some (ModelCache.Ok tt, st', tr) /\
    isInitialized st' = true.
Proof.
  destruct (registerModel_always_fulfilled Examples.onlyLow "hero" Examples.threePaths
              noOptions Examples.freshManager)
    as (st1 & st' & pre & _ & Hrun & _ & _ & _ & _ & Hflag & _).
  - split; simpl; [constructor |]. intros k Hk. inversion Hk.
  - exists st'. eexists. split; [exact Hrun | exact Hflag].
Defined.

End ManagerRegistration.

Section MonitorRecommendations.
Import PerformanceMonitor.

Lemma newSet_from_spec l : forall acc,
  NoDup acc ->
  NoDup (fold_left setAdd l acc) /\
  forall r, r ∈ fold_left setAdd l acc <-> r ∈ acc \/ r ∈ l.
Proof.
  induction l as [| x l IH]; intros acc Hnd; simpl.
  - split; [exact Hnd |]. intros r. rewrite elem_of_nil. tauto.
  - unfold setAdd at 2 4. destruct (decide (x ∈ acc)) as [Hin | Hout].
    + destruct (IH acc Hnd) as [Hnd' Hmem]. split; [exact Hnd' |].
      intros r. rewrite Hmem, elem_of_cons. split; [tauto |].
      intros [H | [-> | H]]; auto.
    + destruct (IH (acc ++ [x])) as [Hnd' Hmem].
      { apply NoDup_app. split; [exact Hnd |]. split; [| apply NoDup_singleton].
        intros y Hy Hy'. apply list_elem_of_singleton in Hy'. subst y. contradiction. }
      split; [exact Hnd' |].
      intros r. rewrite Hmem, elem_of_app, list_elem_of_singleton, elem_of_cons. tauto.
Qed.

Lemma generateRecommendations_spec found :
  NoDup (generateRecommendations found) /\
  forall r, r ∈ generateRecommendations found <->
            exists i, i ∈ found /\ r ∈ recommend i.
Proof.
  unfold generateRecommendations, newSet.
  destruct (newSet_from_spec (flat_map recommend found) [] (NoDup_nil_2)) as [Hnd Hmem].
  split; [exact Hnd |]. intros r. rewrite Hmem, elem_of_nil.
  setoid_rewrite list_elem_of_In. rewrite in_flat_map. tauto.
Qed.

Lemma recommend_cases i r :
  r ∈ recommend i <->
  match r with
  | reduce_model_quality | reduce_active_models =>
      type i = low_fps /\ severity i = sev_critical
  | optimize_lod_distances => type i = low_fps /\ severity i = sev_high
  | clear_cache => type i = high_memory /\ True
  | unload_distant_models => type i = high_memory /\ severity i = sev_critical
  | reduce_draw_calls | optimize_materials => type i = slow_render /\ True
  end.
Proof.
  destruct i as [t sv d]. unfold recommend. simpl.
  destruct t, sv, r; simpl;
    (split;
     [ intros H;
       repeat (apply elem_of_cons in H as [H | H]; [try discriminate |]);
       try (inversion H; fail); split; reflexivity
     | intros [H1 H2]; try discriminate; repeat constructor ]).
Qed.

(** [generateRecommendations] returns no recommendation twice, and
    returns each one exactly for the issues that call for it: the two
    model reductions for a critical [low_fps], new LOD distances for a
    high one and nothing for a [low_fps] of medium or low severity;
    [clear_cache] for any [high_memory], with [unload_distant_models]
    when it is critical; the two render recommendations for a
    [slow_render]. *)
Theorem generateRecommendations_distinct_and_exact (found : list Issue) :
  let recs := generateRecommendations found in
  let any t := exists i, i ∈ found /\ type i = t in
  let anyAt t sv := exists i, i ∈ found /\ type i = t /\ severity i = sv in
  NoDup recs /\
  (reduce_model_quality ∈ recs <-> anyAt low_fps sev_critical) /\
  (reduce_active_models ∈ recs <-> anyAt low_fps sev_critical) /\
  (optimize_lod_distances ∈ recs <-> anyAt low_fps sev_high) /\
  (clear_cache ∈ recs <-> any high_memory) /\
  (unload_distant_models ∈ recs <-> anyAt high_memory sev_critical) /\
  (reduce_draw_calls ∈ recs <-> any slow_render) /\
  (optimize_materials ∈ recs <-> any slow_render).
Proof.
  intros recs any anyAt. destruct (generateRecommendations_spec found) as [Hnd Hmem].
  split; [exact Hnd |].
  unfold recs, any, anyAt. rewrite !Hmem. setoid_rewrite recommend_cases.
  repeat split; try (intros (i & Hi & Ht & Hs); exists i; auto);
    intros (i & Hi & Ht); exists i; auto.
Qed.

End MonitorRecommendations.

Section MonitorWindow.
Import PerformanceMonitor.

Lemma pushSample_window size h x :
  (length h <= Z.to_nat size)%nat ->
  pushSample size h x = drop (length (h ++ [x]) - Z.to_nat size) (h ++ [x]) /\
  (length (pushSample size h x) <= Z.to_nat size)%nat.
Proof.
  intros Hlen. unfold pushSample. rewrite length_app. simpl.
  destruct (Z.gtb_spec (Z.of_nat (length h + 1)) size) as [Hgt | Hle].
  - assert (Heq : (length h + 1 - Z.to_nat size = 1)%nat) by lia.
    rewrite Heq. split; [destruct (h ++ [x]); reflexivity |].
    destruct (h ++ [x]) eqn:E; simpl; [lia |].
    apply (f_equal length) in E. rewrite length_app in E. simpl in E. lia.
  - assert (Heq : (length h + 1 - Z.to_nat size = 0)%nat) by lia.
    rewrite Heq. split; [reflexivity |]. rewrite ?length_app. simpl. lia.
Qed.

Lemma pushSamples_window size xs : forall h,
  (length h <= Z.to_nat size)%nat ->
  fold_left (pushSample size) xs h
  = drop (length (h ++ xs) - Z.to_nat size) (h ++ xs) /\
  (length (fold_left (pushSample size) xs h) <= Z.to_nat size)%nat.
Proof.
  induction xs as [| x xs IH]; intros h Hlen; simpl.
  - rewrite app_nil_r. replace (length h - Z.to_nat size)%nat with 0%nat by lia.
    split; [reflexivity | exact Hlen].
  - destruct (pushSample_window size h x Hlen) as [Hpush Hlen1].
    destruct (IH _ Hlen1) as [Hfold Hlen2]. split; [| exact Hlen2].
    rewrite Hfold, Hpush.
    rewrite length_app, length_drop, !length_app. simpl.
    replace (h ++ x :: xs) with ((h ++ [x]) ++ xs) by (rewrite <- app_assoc; reflexivity).
    assert (Hk : (length h + 1 - Z.to_nat size <= length (h ++ [x]))%nat)
      by (rewrite length_app; simpl; lia).
    rewrite <- (drop_app_le (h ++ [x]) xs _ Hk), drop_drop. f_equal. lia.
Qed.

End MonitorWindow.

Section MonitorSamples.
Import PerformanceMonitor.

Lemma setField_again f v1 v2 m : setField f v2 (setField f v1 m) = setField f v2 m.
Proof. destruct f, m; reflexivity. Qed.

Lemma addFPSSample_run ar x w m :
  readMetrics (currentMetrics (monitor (self w))) (heap w) = Some m ->
  let i' := with_fpsHistory
              (pushSample (sampleSize (config (self w))) (fpsHistory (self w)) x) (self w) in
  addFPSSample ar x w
  = Some (tt,
          {| self := i';
             heap := write (currentMetrics (monitor (self w)))
                       (MetricsObject (setField f_fps (calculateAverageFPS ar i') m))
                       (heap w) |},
          []).
Proof.
  intros Hm i'. unfold addFPSSample, setMetric.
  unfold Eff.bind, Eff.modify, Eff.withState, readMetrics in *. simpl.
  destruct (objects (heap w) !! currentMetrics (monitor (self w))) as [[m0 | u0] |];
    try discriminate.
  injection Hm as ->. reflexivity.
Qed.

Lemma addFPSSamples_run ar samples : forall w m,
  readMetrics (currentMetrics (monitor (self w))) (heap w) = Some m ->
  exists w',
    Eff.forEach (addFPSSample ar) samples w = Some (tt, w', []) /\
    fpsHistory (self w')
    = fold_left (pushSample (sampleSize (config (self w)))) samples (fpsHistory (self w)) /\
    config (self w') = config (self w) /\
    monitor (self w') = monitor (self w) /\
    readMetrics (currentMetrics (monitor (self w'))) (heap w')
    = Some (match samples with
            | [] => m
            | _ => setField f_fps (calculateAverageFPS ar (self w')) m
            end) /\
    (forall r, r <> currentMetrics (monitor (self w)) ->
               objects (heap w') !! r = objects (heap w) !! r).
Proof.
  induction samples as [| x xs IH]; intros w m Hm; cbn [Eff.forEach fold_left].
  - exists w. repeat (split; [reflexivity || assumption |]). reflexivity.
  - pose proof (addFPSSample_run ar x w m Hm) as Hrun1. cbv zeta in Hrun1.
    set (w1 := {| self := _; heap := _ |}) in Hrun1.
    destruct (IH w1 (setField f_fps (calculateAverageFPS ar (self w1)) m))
      as (w' & Hrun & Hh & Hc & Hpm & Hread & Hframe).
    { unfold readMetrics, w1. simpl. rewrite lookup_insert_eq. reflexivity. }
    unfold Eff.bind. rewrite Hrun1, Hrun. exists w'. split; [reflexivity |].
    split; [exact Hh |]. split; [exact Hc |]. split; [exact Hpm |]. split.
    + rewrite Hread. destruct xs; [| now rewrite setField_again].
      simpl in Hrun. injection Hrun as <-. reflexivity.
    + intros r Hr. rewrite (Hframe r Hr). unfold w1. simpl.
      apply lookup_insert_ne. congruence.
Qed.

(** A run of [addFPSSample] calls keeps the latest [sampleSize] samples,
    oldest first, and no more: the history is the end of the old history
    followed by the new samples.  The [fps] metric is then the average
    [calculateAverageFPS] takes of exactly that history; the other metrics
    and every other object are as they were. *)
Theorem addFPSSample_keeps_latest (ar : Arith) (samples : list JsNum.num)
    (w : Running) (m : Metrics) :
  readMetrics (currentMetrics (monitor (self w))) (heap w) = Some m ->
  (length (fpsHistory (self w)) <= Z.to_nat (sampleSize (config (self w))))%nat ->
  samples <> [] ->
  let all := fpsHistory (self w) ++ samples in
  exists w',
    Eff.forEach (addFPSSample ar) samples w = Some (tt, w', []) /\
    fpsHistory (self w')
    = drop (length all - Z.to_nat (sampleSize (config (self w)))) all /\
    (length (fpsHistory (self w')) <= Z.to_nat (sampleSize (config (self w))))%nat /\
    readMetrics (currentMetrics (monitor (self w'))) (heap w')
    = Some (setField f_fps (calculateAverageFPS ar (self w')) m) /\
    (forall r, r <> currentMetrics (monitor (self w)) ->
               objects (heap w') !! r = objects (heap w) !! r).
Proof.
  intros Hm Hlen Hne all.
  destruct (addFPSSamples_run ar samples w m Hm) as (w' & Hrun & Hh & _ & _ & Hread & Hframe).
  destruct (pushSamples_window (sampleSize (config (self w))) samples _ Hlen) as [Hwin Hlen'].
  exists w'. split; [exact Hrun |]. rewrite Hh.
  split; [exact Hwin |]. split; [exact Hlen' |]. split; [| exact Hframe].
  rewrite Hread. destruct samples; [contradiction | reflexivity].
Qed.

End MonitorSamples.

Section MonitorChecks.
Import PerformanceMonitor.

Lemma wellFormed_observe pm s :
  wellFormed pm s ->
  exists m u, observe pm s = Some (m, u) /\
              readMetrics (currentMetrics pm) s = Some m /\
              readMemory (memoryUsage m) s = Some u /\
              (currentMetrics pm < next s)%positive /\
              (memoryUsage m < next s)%positive /\
              currentMetrics pm <> memoryUsage m.
Proof.
  intros (Halloc & m & u & Hm & Hu). exists m, u. unfold observe. rewrite Hm, Hu.
  split; [reflexivity |]. split; [reflexivity |]. split; [reflexivity |].
  unfold readMetrics, readMemory in *.
  destruct (objects s !! currentMetrics pm) as [o1 |] eqn:E1; [| discriminate].
  destruct (objects s !! memoryUsage m) as [o2 |] eqn:E2; [| discriminate].
  split; [eapply Halloc, E1 |]. split; [eapply Halloc, E2 |].
  intros Heq. rewrite Heq, E2 in E1. injection E1 as <-.
  destruct o2; discriminate.
Qed.

Lemma wellFormed_alloc pm s o :
  wellFormed pm s ->
  wellFormed pm (snd (alloc o s)) /\
  observe pm (snd (alloc o s)) = observe pm s.
Proof.
  intros Hwf. destruct (wellFormed_observe pm s Hwf) as (m & u & Hobs & Hm & Hu & Hcm & Hmu & _).
  assert (Hobs' : observe pm (snd (alloc o s)) = observe pm s).
  { apply (observe_ext pm s _ m Hm); simpl; apply lookup_insert_ne; lia. }
  split; [| exact Hobs']. destruct Hwf as [Halloc _]. split.
  - intros r o' H. simpl in *. apply lookup_insert_Some in H as [[<- _] | [_ H]]; [lia |].
    specialize (Halloc _ _ H). lia.
  - exists m, u. unfold readMetrics, readMemory in *. simpl.
    rewrite !lookup_insert_ne by lia. auto.
Qed.

Lemma wellFormed_write pm s m m' :
  wellFormed pm s ->
  readMetrics (currentMetrics pm) s = Some m ->
  memoryUsage m' = memoryUsage m ->
  wellFormed pm (write (currentMetrics pm) (MetricsObject m') s).
Proof.
  intros Hwf Hm Hsame.
  destruct (wellFormed_observe pm s Hwf) as (m0 & u & _ & Hm0 & Hu & Hcm & _ & Hne).
  rewrite Hm in Hm0. injection Hm0 as <-. destruct Hwf as [Halloc _]. split.
  - intros r o H. simpl in *. apply lookup_insert_Some in H as [[<- _] | [_ H]]; [exact Hcm |].
    eapply Halloc, H.
  - exists m', u. unfold readMetrics, readMemory in *. simpl.
    rewrite lookup_insert_eq. split; [reflexivity |].
    rewrite Hsame, lookup_insert_ne by exact Hne. exact Hu.
Qed.

Lemma ltb_above a b x :
  (a <= b) -> JsNum.ltb (JsNum.ofZ b) x = true -> JsNum.ltb (JsNum.ofZ a) x = true.
Proof.
  intros Hab. destruct x as [q | | |]; simpl; try (intros; assumption || reflexivity).
  rewrite !negb_true_iff. intros Hb.
  destruct (Qle_bool q (inject_Z a)) eqn:Ha; [| reflexivity].
  apply Qle_bool_iff in Ha.
  assert (Hq : Qle_bool q (inject_Z b) = true).
  { apply Qle_bool_iff. eapply Qle_trans; [exact Ha |]. rewrite <- Zle_Qle. exact Hab. }
  congruence.
Qed.

Lemma detectIssues_memory ar cfg m u sev :
  (exists i, i ∈ detectIssues ar cfg m u /\ type i = high_memory /\ sev (severity i)) <->
  JsNum.ltb (JsNum.ofZ 80) (percentage u) = true /\
  sev (calculateMemorySeverity (percentage u)).
Proof.
  unfold detectIssues. split.
  - intros (i & Hi & Ht & Hs). rewrite !elem_of_app in Hi.
    destruct Hi as [Hi | [Hi | Hi]].
    + destruct (JsNum.ltb (fps m) _); [| inversion Hi].
      apply list_elem_of_singleton in Hi. subst i. discriminate.
    + destruct (JsNum.ltb (JsNum.ofZ 80) (percentage u)); [| inversion Hi].
      apply list_elem_of_singleton in Hi. subst i. auto.
    + destruct (JsNum.ltb (JsNum.ofZ 33) (renderTime m)); [| inversion Hi].
      apply list_elem_of_singleton in Hi. subst i. discriminate.
  - intros [Hp Hs]. rewrite Hp. eexists. split.
    + rewrite !elem_of_app. right. left. left.
    + auto.
Qed.

Lemma detectIssues_render ar cfg m u :
  (exists i, i ∈ detectIssues ar cfg m u /\ type i = slow_render /\ True) <->
  JsNum.ltb (JsNum.ofZ 33) (renderTime m) = true.
Proof.
  unfold detectIssues. split.
  - intros (i & Hi & Ht & _). rewrite !elem_of_app in Hi.
    destruct Hi as [Hi | [Hi | Hi]].
    + destruct (JsNum.ltb (fps m) _); [| inversion Hi].
      apply list_elem_of_singleton in Hi. subst i. discriminate.
    + destruct (JsNum.ltb (JsNum.ofZ 80) (percentage u)); [| inversion Hi].
      apply list_elem_of_singleton in Hi. subst i. discriminate.
    + destruct (JsNum.ltb (JsNum.ofZ 33) (renderTime m)); [reflexivity | inversion Hi].
  - intros Hp. rewrite Hp. eexists. split.
    + rewrite !elem_of_app. right. right. left.
    + auto.
Qed.

Lemma checkPerformanceIssues_run ar now w :
  wellFormed (monitor (self w)) (heap w) ->
  exists m u w' tr,
    observe (monitor (self w)) (heap w) = Some (m, u) /\
    checkPerformanceIssues ar now w = Some (tt, w', tr) /\
    wellFormed (monitor (self w')) (heap w') /\
    observe (monitor (self w')) (heap w') = Some (m, u) /\
    currentMetrics (monitor (self w')) = currentMetrics (monitor (self w)) /\
    with_monitor (monitor (self w)) (self w') = self w /\
    frameRequests tr = 0%nat /\
    (detectIssues ar (config (self w)) m u = [] ->
     consecutiveIssues (monitor (self w')) = 0 /\ tr = [] /\ heap w' = heap w) /\
    (detectIssues ar (config (self w)) m u <> [] ->
     consecutiveIssues (monitor (self w')) = consecutiveIssues (monitor (self w)) + 1 /\
     tr = [Notify {| timestamp := now;
                     issues := detectIssues ar (config (self w)) m u;
                     consecutiveCount := consecutiveIssues (monitor (self w)) + 1;
                     metrics := next (heap w);
                     recommendations :=
                       generateRecommendations (detectIssues ar (config (self w)) m u) |}] /\
     objects (heap w) !! next (heap w) = None /\
     readMetrics (next (heap w)) (heap w') = Some m).
Proof.
  intros Hwf.
  destruct (wellFormed_observe _ _ Hwf) as (m & u & Hobs & Hm & Hu & Hcm & Hmu & Hne).
  exists m, u. unfold checkPerformanceIssues, Eff.withState. rewrite Hobs.
  destruct (detectIssues ar (config (self w)) m u) as [| i found] eqn:Hfound.
  - eexists _, _. split; [reflexivity |]. split; [reflexivity |].
    destruct w as [[pm cfg fh mh rh im lf fc mt] s]. simpl in *.
    split; [exact Hwf |]. split; [exact Hobs |]. split; [reflexivity |].
    split; [destruct pm; reflexivity |]. split; [reflexivity |].
    split; [auto | intros H; contradiction].
  - unfold Eff.bind, Eff.modify, notifyPerformanceIssues, Eff.withState.
    unfold notificationMetrics, spread.
    destruct w as [[pm cfg fh mh rh im lf fc mt] s]. simpl in *. rewrite Hm. simpl.
    destruct (wellFormed_alloc pm s (MetricsObject m) Hwf) as [Hwf' Hobs'].
    eexists _, _. split; [reflexivity |]. split; [reflexivity |]. simpl.
    split; [exact Hwf' |]. split; [rewrite <- Hobs; exact Hobs' |].
    split; [reflexivity |]. split; [destruct pm; reflexivity |]. split; [reflexivity |].
    split; [discriminate |]. intros _. split; [reflexivity |]. split; [reflexivity |].
    split.
    + destruct Hwf as [Halloc _]. destruct (objects s !! next s) as [o |] eqn:E; [| reflexivity].
      specialize (Halloc _ _ E). lia.
    + unfold readMetrics. simpl. rewrite lookup_insert_eq. reflexivity.
Qed.

(** [checkPerformanceIssues] on a monitor whose metrics objects are in
    place: a check that finds nothing resets the count of consecutive
    issues and notifies nobody; a check that finds an issue adds one to
    the count, however high it is, and sends one notification with the
    issues, the new count, a fresh snapshot of the metrics and the
    recommendations.  The metrics are not changed.  A [high_memory] issue
    is found exactly when the memory percentage is above 80 and a
    [slow_render] one exactly when the render time is above 33;
    [clear_cache] is recommended exactly above 80 per cent and
    [unload_distant_models] exactly above 95. *)
Theorem checkPerformanceIssues_notifies (ar : Arith) (now : Z) (w : Running) :
  wellFormed (monitor (self w)) (heap w) ->
  exists m u w' tr,
    observe (monitor (self w)) (heap w) = Some (m, u) /\
    checkPerformanceIssues ar now w = Some (tt, w', tr) /\
    observe (monitor (self w')) (heap w') = Some (m, u) /\
    let found := detectIssues ar (config (self w)) m u in
    (found = [] ->
     consecutiveIssues (monitor (self w')) = 0 /\ tr = [] /\ heap w' = heap w) /\
    (found <> [] ->
     consecutiveIssues (monitor (self w')) = consecutiveIssues (monitor (self w)) + 1 /\
     tr = [Notify {| timestamp := now;
                     issues := found;
                     consecutiveCount := consecutiveIssues (monitor (self w)) + 1;
                     metrics := next (heap w);
                     recommendations := generateRecommendations found |}] /\
     objects (heap w) !! next (heap w) = None /\
     readMetrics (next (heap w)) (heap w') = Some m) /\
    ((exists i, i ∈ found /\ type i = high_memory) <->
     JsNum.ltb (JsNum.ofZ 80) (percentage u) = true) /\
    ((exists i, i ∈ found /\ type i = slow_render) <->
     JsNum.ltb (JsNum.ofZ 33) (renderTime m) = true) /\
    (clear_cache ∈ generateRecommendations found <->
     JsNum.ltb (JsNum.ofZ 80) (percentage u) = true) /\
    (unload_distant_models ∈ generateRecommendations found <->
     JsNum.ltb (JsNum.ofZ 95) (percentage u) = true).
Proof.
  intros Hwf.
  destruct (checkPerformanceIssues_run ar now w Hwf)
    as (m & u & w' & tr & Hobs & Hrun & _ & Hobs' & _ & _ & _ & Hnone & Hsome).
  exists m, u, w', tr. split; [exact Hobs |]. split; [exact Hrun |].
  split; [exact Hobs' |]. intros found. split; [exact Hnone |]. split; [exact Hsome |].
  destruct (generateRecommendations_spec found) as [_ Hrecs].
  assert (Hclear : clear_cache ∈ generateRecommendations found <->
                   exists i, i ∈ found /\ type i = high_memory /\ True).
  { rewrite Hrecs. setoid_rewrite recommend_cases. reflexivity. }
  assert (Hunload : unload_distant_models ∈ generateRecommendations found <->
                    exists i, i ∈ found /\ type i = high_memory /\
                              sev_critical = severity i).
  { rewrite Hrecs. setoid_rewrite recommend_cases.
    split; intros (i & Hi & Ht & Hs); exists i; auto. }
  pose proof (detectIssues_memory ar (config (self w)) m u (fun _ => True)) as Hmem.
  pose proof (detectIssues_memory ar (config (self w)) m u (eq sev_critical)) as Hcrit.
  pose proof (detectIssues_render ar (config (self w)) m u) as Hrender.
  fold found in Hmem, Hcrit, Hrender.
  split; [| split; [| split]].
  - split.
    + intros (i & Hi & Ht). apply Hmem. eauto.
    + intros Hp. destruct Hmem as [_ Hmem]. destruct (Hmem (conj Hp I)) as (i & Hi & Ht & _).
      eauto.
  - split.
    + intros (i & Hi & Ht). apply Hrender. eauto.
    + intros Hp. destruct Hrender as [_ Hr]. destruct (Hr Hp) as (i & Hi & Ht & _). eauto.
  - rewrite Hclear, Hmem. tauto.
  - rewrite Hunload, Hcrit. unfold calculateMemorySeverity. split.
    + intros [_ Hs]. destruct (JsNum.ltb (JsNum.ofZ 95) (percentage u)); [reflexivity |].
      destruct (JsNum.ltb (JsNum.ofZ 90) (percentage u)); [discriminate |].
      destruct (JsNum.ltb (JsNum.ofZ 85) (percentage u)); discriminate.
    + intros Hp. rewrite Hp. split; [| reflexivity].
      apply (ltb_above 80 95); [lia | exact Hp].
Qed.

End MonitorChecks.

Lemma idleMonitor_wellFormed :
  PerformanceMonitor.wellFormed
    (PerformanceMonitor.monitor (PerformanceMonitor.self Examples.idleMonitor))
    (PerformanceMonitor.heap Examples.idleMonitor).
Proof. exact monitor_wellFormed. Qed.

Lemma checkPerformanceIssues_notifies_witness :
  exists w' tr,
    PerformanceMonitor.checkPerformanceIssues Examples.exact 0 Examples.idleMonitor
    = Some (tt, w', tr) /\
    PerformanceMonitor.consecutiveIssues
      (PerformanceMonitor.monitor (PerformanceMonitor.self w')) = 1 /\
    length tr = 1%nat.
Proof.
  destruct (checkPerformanceIssues_notifies Examples.exact 0 Examples.idleMonitor
              idleMonitor_wellFormed)
    as (m & u & w' & tr & Hobs & Hrun & _ & _ & Hsome & _).
  vm_compute in Hobs. injection Hobs as <- <-.
  destruct Hsome as (Hcount & Htr & _); [vm_compute; discriminate |].
  exists w', tr. split; [exact Hrun |]. split; [exact Hcount |]. rewrite Htr. reflexivity.
Defined.

Lemma addFPSSample_keeps_latest_witness :
  exists w',
    Eff.forEach (PerformanceMonitor.addFPSSample Examples.exact)
      [JsNum.ofZ 30; JsNum.ofZ 60] Examples.idleMonitor = Some (tt, w', []) /\
    PerformanceMonitor.fpsHistory (PerformanceMonitor.self w') = [JsNum.ofZ 30; JsNum.ofZ 60].
Proof.
  destruct (addFPSSample_keeps_latest Examples.exact [JsNum.ofZ 30; JsNum.ofZ 60]
              Examples.idleMonitor
              (PerformanceMonitor.mkMetrics PerformanceMonitor.zero 1%positive
                 PerformanceMonitor.zero PerformanceMonitor.zero PerformanceMonitor.zero
                 PerformanceMonitor.zero))
    as (w' & Hrun & Hh & _).
  - reflexivity.
  - vm_compute. lia.
  - discriminate.
  - exists w'. split; [exact Hrun |]. rewrite Hh. reflexivity.
Defined.

Section MonitorMemory.
Import PerformanceMonitor.

(** Writes through a snapshot that keeps its [memoryUsage] property go to
    the snapshot and to the memory object it points to, and nowhere else. *)
Lemma mutateAll_confined snap old mus : forall s m u,
  (forall r, SetMemoryUsage r ∉ mus) ->
  readMetrics snap s = Some m ->
  memoryUsage m = old ->
  readMemory old s = Some u ->
  snap <> old ->
  exists s',
    mutateAll snap mus s = Some s' /\
    forall r, r <> snap -> r <> old -> objects s' !! r = objects s !! r.
Proof.
  induction mus as [| mu mus IH]; intros s m u Hno Hm Hold Hu Hne; simpl.
  - exists s. split; reflexivity.
  - assert (Hno' : forall r, SetMemoryUsage r ∉ mus).
    { intros r H. apply (Hno r). right. exact H. }
    unfold mutate. rewrite Hm. destruct mu as [f v | r | f v].
    + destruct (IH (write snap (MetricsObject (setField f v m)) s) (setField f v m) u Hno')
        as (s' & Hrun & Hsame).
      * unfold readMetrics. simpl. rewrite lookup_insert_eq. reflexivity.
      * destruct f; exact Hold.
      * unfold readMemory in *. simpl. rewrite lookup_insert_ne by exact Hne. exact Hu.
      * exact Hne.
      * exists s'. split; [exact Hrun |]. intros r0 H1 H2. rewrite (Hsame r0 H1 H2).
        apply lookup_write_ne, H1.
    + exfalso. apply (Hno r). left.
    + rewrite Hold, Hu.
      destruct (IH (write old (MemoryObject (setMemoryField f v u)) s) m
                  (setMemoryField f v u) Hno') as (s' & Hrun & Hsame).
      * unfold readMetrics in *. simpl. rewrite lookup_insert_ne by congruence. exact Hm.
      * exact Hold.
      * unfold readMemory. simpl. rewrite lookup_insert_eq. reflexivity.
      * exact Hne.
      * exists s'. split; [exact Hrun |]. intros r0 H1 H2. rewrite (Hsame r0 H1 H2).
        apply lookup_write_ne, H2.
Qed.

(** [updateMemoryMetrics] gives the monitor a new [memoryUsage] object
    and leaves the old one to the snapshots that hold it: a snapshot taken
    before still shows the usage of its time, and from then on no
    assignment to its properties or to those of its [memoryUsage] changes
    what the monitor reads.  The other metrics are not changed. *)
Theorem updateMemoryMetrics_detaches_snapshot (ar : Arith) (source : MemorySource)
    (w : Running) (mus : list Mutation) :
  wellFormed (monitor (self w)) (heap w) ->
  (forall r, SetMemoryUsage r ∉ mus) ->
  exists snapshot s1 w2 s3 m u m2 u2,
    observe (monitor (self w)) (heap w) = Some (m, u) /\
    getCurrentMetrics (monitor (self w)) (heap w) = Some (snapshot, s1) /\
    updateMemoryMetrics ar source (with_heap s1 w) = Some (tt, w2, []) /\
    monitor (self w2) = monitor (self w) /\
    observe (monitor (self w2)) (heap w2) = Some (m2, u2) /\
    m2 = setMemoryRef (memoryUsage m2) m /\
    memoryUsage m2 <> memoryUsage m /\
    (forall a b, source = HeapInfo a b -> used u2 = a /\ total u2 = b) /\
    readMetrics snapshot (heap w2) = Some m /\
    readMemory (memoryUsage m) (heap w2) = Some u /\
    mutateAll snapshot mus (heap w2) = Some s3 /\
    observe (monitor (self w2)) s3 = Some (m2, u2).
Proof.
  intros Hwf Hno.
  destruct (wellFormed_observe _ _ Hwf) as (m & u & Hobs & Hm & Hu & Hcm & Hmu & Hne).
  destruct w as [[pm cfg fh mh rh im lf fc mt] s]. simpl in *.
  unfold getCurrentMetrics, spread. rewrite Hm.
  set (snap := next s).
  set (s1 := snd (alloc (MetricsObject m) s)).
  assert (Hm1 : readMetrics (currentMetrics pm) s1 = Some m).
  { unfold readMetrics in *. unfold s1. simpl. rewrite lookup_insert_ne by lia. exact Hm. }
  set (w := {| self := mkInstance pm cfg fh mh rh im lf fc mt; heap := s |}).
  set (info := match source with
               | HeapInfo a b => (a, b)
               | NoHeapInfo entities => estimateMemoryUsage entities
               end).
  set (pct := if JsNum.ltb zero (snd info)
              then fmul ar (fdiv ar (fst info) (snd info)) (JsNum.ofZ 100)
              else zero).
  set (u2 := {| used := fst info; total := snd info; percentage := fround ar pct |}).
  set (mu' := Pos.succ (next s)).
  set (s2 := write (currentMetrics pm) (MetricsObject (setMemoryRef mu' m))
               (snd (alloc (MemoryObject u2) s1))).
  assert (Hrun2 : exists i2,
            updateMemoryMetrics ar source (with_heap s1 w)
            = Some (tt, {| self := i2; heap := s2 |}, []) /\ monitor i2 = pm).
  { unfold updateMemoryMetrics, Eff.withState.
    cbn [self heap monitor with_heap w]. rewrite Hm1.
    eexists. split; reflexivity. }
  destruct Hrun2 as (i2 & Hrun2 & Hpm2).
  assert (Hm2 : readMetrics (currentMetrics pm) s2 = Some (setMemoryRef mu' m)).
  { unfold readMetrics, s2. simpl. rewrite lookup_insert_eq. reflexivity. }
  assert (Hsnap : readMetrics snap s2 = Some m).
  { unfold readMetrics, s2, snap. simpl.
    rewrite lookup_insert_ne by lia. rewrite lookup_insert_ne by lia.
    rewrite lookup_insert_eq. reflexivity. }
  assert (Hold : readMemory (memoryUsage m) s2 = Some u).
  { unfold readMemory in *. unfold s2. simpl.
    rewrite lookup_insert_ne by congruence. rewrite !lookup_insert_ne by lia. exact Hu. }
  destruct (mutateAll_confined snap (memoryUsage m) mus s2 m u Hno Hsnap eq_refl Hold)
    as (s3 & Hrun & Hsame); [unfold snap; lia |].
  assert (Hobs2 : observe pm s2 = Some (setMemoryRef mu' m, u2)).
  { unfold observe. rewrite Hm2. unfold readMemory, s2. simpl.
    rewrite lookup_insert_ne by (unfold mu'; lia). rewrite lookup_insert_eq. reflexivity. }
  exists snap, s1, {| self := i2; heap := s2 |}, s3, m, u, (setMemoryRef mu' m), u2.
  split; [exact Hobs |]. split; [reflexivity |]. split; [exact Hrun2 |].
  cbn [self heap]. rewrite Hpm2.
  split; [reflexivity |]. split; [exact Hobs2 |]. split; [reflexivity |].
  split; [simpl; unfold mu'; lia |].
  split; [intros a b Hsrc; unfold u2, info; rewrite Hsrc; split; reflexivity |].
  split; [exact Hsnap |]. split; [exact Hold |]. split; [exact Hrun |].
  rewrite <- Hobs2. apply (observe_ext pm s2 s3 _ Hm2).
  - apply Hsame; [unfold snap; lia | congruence].
  - simpl. apply Hsame; unfold snap, mu'; lia.
Qed.

Lemma updateMemoryMetrics_detaches_snapshot_witness :
  exists snapshot s1 w2 s3 m2 u2,
    getCurrentMetrics (monitor (self Examples.idleMonitor)) (heap Examples.idleMonitor)
    = Some (snapshot, s1) /\
    updateMemoryMetrics Examples.exact (HeapInfo (JsNum.ofZ 50) (JsNum.ofZ 100))
      (with_heap s1 Examples.idleMonitor) = Some (tt, w2, []) /\
    mutateAll snapshot [SetNested f_percentage (JsNum.ofZ 99)] (heap w2) = Some s3 /\
    observe (monitor (self w2)) s3 = Some (m2, u2) /\
    used u2 = JsNum.ofZ 50.
Proof.
  destruct (updateMemoryMetrics_detaches_snapshot Examples.exact
              (HeapInfo (JsNum.ofZ 50) (JsNum.ofZ 100)) Examples.idleMonitor
              [SetNested f_percentage (JsNum.ofZ 99)] idleMonitor_wellFormed)
    as (snapshot & s1 & w2 & s3 & m & u & m2 & u2 & _ & Hsnap & Hrun & _ & _ & _ & _
        & Hinfo & _ & _ & Hmut & Hobs).
  - intros r H. apply list_elem_of_singleton in H. discriminate.
  - exists snapshot, s1, w2, s3, m2, u2.
    split; [exact Hsnap |]. split; [exact Hrun |]. split; [exact Hmut |].
    split; [exact Hobs |]. apply (Hinfo _ _ eq_refl).
Defined.

End MonitorMemory.

Section MonitorLoops.
Import PerformanceMonitor.

Lemma frameRequests_app tr1 tr2 :
  frameRequests (tr1 ++ tr2) = (frameRequests tr1 + frameRequests tr2)%nat.
Proof.
  induction tr1 as [| [] tr1 IH]; simpl; rewrite ?IH; reflexivity.
Qed.

Lemma setMetric_run f v w :
  wellFormed (monitor (self w)) (heap w) ->
  exists w',
    setMetric f v w = Some (tt, w', []) /\
    self w' = self w /\
    wellFormed (monitor (self w')) (heap w').
Proof.
  intros Hwf. destruct (wellFormed_observe _ _ Hwf) as (m & u & _ & Hm & _).
  unfold setMetric, Eff.withState. rewrite Hm.
  eexists. split; [reflexivity |]. split; [reflexivity |]. simpl.
  apply (wellFormed_write _ _ m); [exact Hwf | exact Hm | destruct f; reflexivity].
Qed.

Lemma addFPSSample_wellFormed ar x w :
  wellFormed (monitor (self w)) (heap w) ->
  exists w',
    addFPSSample ar x w = Some (tt, w', []) /\
    with_fpsHistory (fpsHistory (self w)) (self w') = self w /\
    wellFormed (monitor (self w')) (heap w').
Proof.
  intros Hwf. destruct (wellFormed_observe _ _ Hwf) as (m & u & _ & Hm & _).
  pose proof (addFPSSample_run ar x w m Hm) as Hrun. cbv zeta in Hrun.
  eexists. split; [exact Hrun |]. simpl.
  split; [destruct w as [[] ?]; reflexivity |].
  apply (wellFormed_write _ _ m); [exact Hwf | exact Hm | reflexivity].
Qed.

Lemma monitorLoop_run ar t now w :
  wellFormed (monitor (self w)) (heap w) ->
  exists w' tr,
    monitorLoop ar t now w = Some (tt, w', tr) /\
    wellFormed (monitor (self w')) (heap w') /\
    isMonitoring (self w') = isMonitoring (self w) /\
    memoryTimer (self w') = memoryTimer (self w) /\
    config (self w') = config (self w) /\
    frameRequests tr = (if isMonitoring (self w) then 1 else 0)%nat /\
    (isMonitoring (self w) = false -> w' = w /\ tr = []).
Proof.
  intros Hwf. unfold monitorLoop, Eff.withState.
  destruct (isMonitoring (self w)) eqn:Hmon; cbn [negb].
  - assert (Hfirst : exists w1,
              (if JsNum.ltb zero (lastFrameTime (self w))
               then addFPSSample ar (fdiv ar (JsNum.ofZ 1000) (fsub ar t (lastFrameTime (self w)))) ;;;
                    setMetric f_renderTime (fsub ar t (lastFrameTime (self w)))
               else Eff.ret tt) w = Some (tt, w1, []) /\
              wellFormed (monitor (self w1)) (heap w1) /\
              isMonitoring (self w1) = true /\
              memoryTimer (self w1) = memoryTimer (self w) /\
              config (self w1) = config (self w)).
    { destruct (JsNum.ltb zero (lastFrameTime (self w))).
      - destruct (addFPSSample_wellFormed ar
                    (fdiv ar (JsNum.ofZ 1000) (fsub ar t (lastFrameTime (self w)))) w Hwf)
          as (wa & Hra & Hsa & Hwa).
        destruct (setMetric_run f_renderTime (fsub ar t (lastFrameTime (self w))) wa Hwa)
          as (wb & Hrb & Hsb & Hwb).
        unfold Eff.bind. rewrite Hra, Hrb. exists wb. split; [reflexivity |].
        split; [exact Hwb |]. rewrite Hsb.
        pose proof (f_equal isMonitoring Hsa) as H1.
        pose proof (f_equal memoryTimer Hsa) as H2.
        pose proof (f_equal config Hsa) as H3.
        simpl in H1, H2, H3. rewrite H1, H2, H3, Hmon. auto.
      - exists w. split; [reflexivity |]. auto. }
    destruct Hfirst as (w1 & Hr1 & Hw1 & Hmon1 & Hmt1 & Hcfg1).
    unfold Eff.bind at 1. rewrite Hr1.
    unfold Eff.bind at 1. unfold Eff.modify at 1.
    set (w2 := with_self _ w1).
    assert (Hw2 : wellFormed (monitor (self w2)) (heap w2)) by exact Hw1.
    destruct (checkPerformanceIssues_run ar now w2 Hw2)
      as (m & u & w3 & tr3 & _ & Hr3 & Hw3 & _ & _ & Hself3 & Hreq3 & _).
    unfold Eff.bind. rewrite Hr3. simpl.
    eexists _, _. split; [reflexivity |]. split; [exact Hw3 |].
    assert (Hmon3 : isMonitoring (self w3) = isMonitoring (self w2))
      by (rewrite <- Hself3; reflexivity).
    assert (Hmt3 : memoryTimer (self w3) = memoryTimer (self w2))
      by (rewrite <- Hself3; reflexivity).
    assert (Hcfg3 : config (self w3) = config (self w2))
      by (rewrite <- Hself3; reflexivity).
    split; [rewrite Hmon3; exact Hmon1 |]. split; [rewrite Hmt3; exact Hmt1 |].
    split; [rewrite Hcfg3; exact Hcfg1 |].
    split; [| discriminate].
    rewrite frameRequests_app, Hreq3. reflexivity.
  - exists w, []. split; [reflexivity |]. split; [exact Hwf |].
    split; [exact Hmon |]. do 3 (split; [reflexivity |]). intros _. split; reflexivity.
Qed.

Lemma animationFrame_run ar calls : forall w,
  wellFormed (monitor (self w)) (heap w) ->
  exists w' tr,
    animationFrame ar calls w = Some (tt, w', tr) /\
    wellFormed (monitor (self w')) (heap w') /\
    isMonitoring (self w') = isMonitoring (self w) /\
    memoryTimer (self w') = memoryTimer (self w) /\
    frameRequests tr = (if isMonitoring (self w) then length calls else 0)%nat.
Proof.
  unfold animationFrame.
  induction calls as [| c calls IH]; intros w Hwf; cbn [Eff.forEach].
  - exists w, []. split; [reflexivity |]. split; [exact Hwf |].
    repeat (split; [reflexivity |]). destruct (isMonitoring (self w)); reflexivity.
  - destruct (monitorLoop_run ar (fst c) (snd c) w Hwf)
      as (w1 & tr1 & Hr1 & Hw1 & Hmon1 & Hmt1 & _ & Hreq1 & _).
    destruct (IH w1 Hw1) as (w2 & tr2 & Hr2 & Hw2 & Hmon2 & Hmt2 & Hreq2).
    unfold Eff.bind. rewrite Hr1, Hr2. eexists _, _. split; [reflexivity |].
    split; [exact Hw2 |]. split; [congruence |]. split; [congruence |].
    rewrite frameRequests_app, Hreq1, Hreq2, Hmon1.
    destruct (isMonitoring (self w)); simpl; lia.
Qed.

(** The monitoring loop and its restarts.  While the monitor is
    monitoring, [startMonitoring] only warns, and every queued callback of
    a frame requests the next frame.  [stopMonitoring] clears the memory
    timer but cancels no callback: the callbacks of a frame that comes
    while the monitor is stopped end without a request.  A
    [startMonitoring] that comes first requests a frame of its own, and in
    the frame that follows every queued callback, the old ones included,
    requests the next one, so that the loops that were running go on
    beside the new one. *)
Theorem stopMonitoring_cancels_no_loop (ar : Arith) (w : Running)
    (t : JsNum.num) (now : Z) (timer : positive) (calls : list (JsNum.num * Z)) :
  wellFormed (monitor (self w)) (heap w) ->
  isMonitoring (self w) = true ->
  startMonitoring ar t now timer w = Some (tt, w, [WarnActive]) /\
  exists w0 tr0 w1 tr1,
    stopMonitoring w = Some (tt, w0, tr0) /\
    frameRequests tr0 = 0%nat /\
    isMonitoring (self w0) = false /\
    memoryTimer (self w0) = None /\
    (forall id, memoryTimer (self w) = Some id -> tr0 = [ClearInterval id]) /\
    animationFrame ar calls w0 = Some (tt, w0, []) /\
    startMonitoring ar t now timer w0 = Some (tt, w1, tr1) /\
    frameRequests tr1 = 1%nat /\
    isMonitoring (self w1) = true /\
    memoryTimer (self w1) = Some timer /\
    exists w2 tr2,
      animationFrame ar calls w1 = Some (tt, w2, tr2) /\
      frameRequests tr2 = length calls /\
      isMonitoring (self w2) = true.
Proof.
  intros Hwf Hmon. split.
  { unfold startMonitoring, Eff.withState. rewrite Hmon. reflexivity. }
  assert (Hstop : exists w0 tr0,
            stopMonitoring w = Some (tt, w0, tr0) /\
            frameRequests tr0 = 0%nat /\
            isMonitoring (self w0) = false /\
            memoryTimer (self w0) = None /\
            (forall id, memoryTimer (self w) = Some id -> tr0 = [ClearInterval id]) /\
            wellFormed (monitor (self w0)) (heap w0)).
  { unfold stopMonitoring, Eff.bind, Eff.modify, Eff.withState. simpl.
    destruct (memoryTimer (self w)) as [id |] eqn:Hmt; simpl.
    - eexists _, _. split; [reflexivity |]. split; [reflexivity |].
      split; [reflexivity |]. split; [reflexivity |].
      split; [intros id' [= <-]; reflexivity | exact Hwf].
    - eexists _, _. split; [reflexivity |]. split; [reflexivity |].
      split; [reflexivity |]. split; [exact Hmt |].
      split; [discriminate | exact Hwf]. }
  destruct Hstop as (w0 & tr0 & Hr0 & Hreq0 & Hmon0 & Hmt0 & Hclr & Hwf0).
  exists w0, tr0.
  assert (Hidle : animationFrame ar calls w0 = Some (tt, w0, [])).
  { unfold animationFrame. clear -Hmon0 Hwf0.
    induction calls as [| c calls IH]; cbn [Eff.forEach]; [reflexivity |].
    destruct (monitorLoop_run ar (fst c) (snd c) w0 Hwf0)
      as (w' & tr & Hr & _ & _ & _ & _ & _ & Hsame).
    destruct (Hsame Hmon0) as [-> ->]. unfold Eff.bind. rewrite Hr, IH. reflexivity. }
  set (wa := with_self (fun i =>
               with_consecutiveIssues 0 (with_frameCount 0 (with_isMonitoring true i))) w0).
  assert (Hwfa : wellFormed (monitor (self wa)) (heap wa)) by exact Hwf0.
  destruct (monitorLoop_run ar t now wa Hwfa)
    as (wb & trb & Hrb & Hwfb & Hmonb & _ & _ & Hreqb & _).
  assert (Hstart : exists w1 tr1,
            startMonitoring ar t now timer w0 = Some (tt, w1, tr1) /\
            frameRequests tr1 = 1%nat /\
            isMonitoring (self w1) = true /\
            memoryTimer (self w1) = Some timer /\
            wellFormed (monitor (self w1)) (heap w1)).
  { unfold startMonitoring, Eff.withState. rewrite Hmon0.
    unfold Eff.bind at 1. unfold Eff.modify at 1. fold wa.
    unfold Eff.bind at 1. rewrite Hrb.
    unfold Eff.bind, Eff.emit, Eff.modify. simpl.
    eexists _, _. split; [reflexivity |].
    split; [rewrite frameRequests_app, Hreqb; reflexivity |].
    split; [exact Hmonb |]. split; [reflexivity | exact Hwfb]. }
  destruct Hstart as (w1 & tr1 & Hr1 & Hreq1 & Hmon1 & Hmt1 & Hwf1).
  exists w1, tr1.
  destruct (animationFrame_run ar calls w1 Hwf1) as (w2 & tr2 & Hr2 & _ & Hmon2 & _ & Hreq2).
  rewrite Hmon1 in Hreq2, Hmon2.
  repeat (split; [assumption |]). exists w2, tr2. auto.
Qed.

Lemma activeMonitor_wellFormed :
  wellFormed (monitor (self Examples.activeMonitor)) (heap Examples.activeMonitor).
Proof.
  split.
  - intros r o. vm_compute.
    destruct r as [[r | r |] | [r | r |] |]; intros H; try discriminate; reflexivity.
  - eexists _, _. split; vm_compute; reflexivity.
Qed.

Lemma stopMonitoring_cancels_no_loop_witness :
  exists w0 tr0 w1 tr1 w2 tr2,
    stopMonitoring Examples.activeMonitor = Some (tt, w0, tr0) /\
    startMonitoring Examples.exact (JsNum.ofZ 1008) 8 2%positive w0 = Some (tt, w1, tr1) /\
    animationFrame Examples.exact [(JsNum.ofZ 1016, 16); (JsNum.ofZ 1017, 17)] w1
    = Some (tt, w2, tr2) /\
    frameRequests tr2 = 2%nat.
Proof.
  destruct (stopMonitoring_cancels_no_loop Examples.exact Examples.activeMonitor
              (JsNum.ofZ 1008) 8 2%positive [(JsNum.ofZ 1016, 16); (JsNum.ofZ 1017, 17)]
              activeMonitor_wellFormed)
    as (_ & w0 & tr0 & w1 & tr1 & Hr0 & _ & _ & _ & _ & _ & Hr1 & _ & _ & _
        & w2 & tr2 & Hr2 & Hreq2 & _).
  - vm_compute. reflexivity.
  - exists w0, tr0, w1, tr1, w2, tr2. auto.
Defined.

End MonitorLoops.

Section ManagerTracking.
Import LODManager.

Lemma scheduled_app tr1 tr2 : scheduled (tr1 ++ tr2) = (scheduled tr1 + scheduled tr2)%nat.
Proof. induction tr1 as [| [] tr1 IH]; simpl; rewrite ?IH; reflexivity. Qed.

Lemma managerActions_app tr1 tr2 :
  managerActions (tr1 ++ tr2) = managerActions tr1 ++ managerActions tr2.
Proof. induction tr1 as [| [] tr1 IH]; simpl; rewrite ?IH; reflexivity. Qed.

Lemma scheduled_manager tr : scheduled (map Manager tr) = 0%nat.
Proof. induction tr as [| a tr IH]; simpl; [reflexivity | exact IH]. Qed.

Lemma managerActions_manager tr : managerActions (map Manager tr) = tr.
Proof. induction tr as [| a tr IH]; simpl; [reflexivity | now rewrite IH]. Qed.

(** The quality step of [updateModelLOD] on a registered model *)
Lemma updateModelLOD_change env id cfg target st :
  ModelCache.orderOk (modelCache st) ->
  activeModels st !! id = Some cfg ->
  exists st1 tr1 held,
    (if decide (Some target = currentQuality cfg) then Eff.ret tt
     else manager (changeModelQuality env id target)) st = Some (tt, st1, map Manager tr1) /\
    ModelCache.orderOk (modelCache st1) /\
    config st1 = config st /\
    isOptimizing st1 = isOptimizing st /\
    (forall id', id' <> id -> activeModels st1 !! id' = activeModels st !! id') /\
    activeModels st1 !! id = Some held /\
    element held = element cfg /\
    (held = cfg \/
     exists q', held = loaded q' cfg /\
                (qualityLevel (Some q') <= qualityLevel (Some target))%nat) /\
    (currentQuality cfg = Some target -> st1 = st /\ tr1 = [] /\ held = cfg).
Proof.
  intros Hok Hcfg. destruct (decide (Some target = currentQuality cfg)) as [Heq | Hne].
  - exists st, [], cfg. split; [reflexivity |]. split; [exact Hok |].
    do 3 (split; [reflexivity |]). split; [exact Hcfg |]. split; [reflexivity |].
    split; [now left | auto].
  - assert (Hfuel : (qualityLevel (Some target) <= 3)%nat) by (destruct target; simpl; lia).
    destruct (changeModelQuality_fuel_outcome env 2 id target st Hfuel Hok)
      as (st1 & tr1 & Hrun & Hok1 & Hc & _ & Ho & Hout).
    unfold manager, Eff.zoom.
    change (changeModelQuality env id target st) with (changeModelQuality_fuel env 2 id target st).
    rewrite Hrun.
    destruct Hout as [(Ha & _) | (q' & Hq' & cfg0 & Hcfg0 & _ & Ha & _)].
    + exists st1, tr1, cfg. split; [reflexivity |]. split; [exact Hok1 |].
      split; [exact Hc |]. split; [exact Ho |].
      split; [intros id' _; now rewrite Ha |]. split; [now rewrite Ha |].
      split; [reflexivity |]. split; [now left |]. intros Hq. congruence.
    + rewrite Hcfg in Hcfg0. injection Hcfg0 as <-.
      exists st1, tr1, (loaded q' cfg). split; [reflexivity |]. split; [exact Hok1 |].
      split; [exact Hc |]. split; [exact Ho |].
      split; [intros id' Hid; rewrite Ha; apply lookup_insert_ne; congruence |].
      split; [rewrite Ha; apply lookup_insert_eq |]. split; [reflexivity |].
      split; [right; eauto |]. intros Hq. congruence.
Qed.

(** [updateModelLOD], run without interruption, always completes.  For an
    id that is not registered it warns and changes nothing.  For a
    registered model it stamps the entry with the time and with the
    visibility of its element, leaves every other model alone, and leaves
    the model at its quality or takes it to the quality the distance calls
    for or a lower one; when the model is at that quality already it loads
    nothing, notifies nobody and leaves the cache and the elements as they
    are.  It asks for an optimization exactly when [autoOptimize] is on
    and none is running. *)
Theorem updateModelLOD_tracks (env : Env) (ar : PerformanceMonitor.Arith)
    (sqrt : JsNum.num -> JsNum.num) (positionOf : string -> option Vec3)
    (id : string) (cameraData : CameraData) (updatedAt : Z) (st : State) :
  ModelCache.orderOk (modelCache st) ->
  exists st' tr,
    updateModelLOD env ar sqrt positionOf id cameraData updatedAt st = Some (tt, st', tr) /\
    ModelCache.orderOk (modelCache st') /\
    (forall id', id' <> id -> activeModels st' !! id' = activeModels st !! id') /\
    match activeModels st !! id with
    | None => st' = st /\ tr = [WarnNotRegistered id]
    | Some cfg =>
        let target :=
          determineQuality (lodDistance ar sqrt positionOf cameraData cfg) (lodDistances cfg) in
        exists cfg',
          activeModels st' !! id = Some cfg' /\
          lastUpdate cfg' = updatedAt /\
          isVisible cfg' = isModelVisible (element cfg) st' /\
          (currentQuality cfg' = currentQuality cfg \/
           exists q', currentQuality cfg' = Some q' /\ isLoaded cfg' = true /\
                      (qualityLevel (Some q') <= qualityLevel (Some target))%nat) /\
          (currentQuality cfg = Some target ->
           managerActions tr = [] /\ modelCache st' = modelCache st /\
           document st' = document st /\
           cfg' = seen updatedAt (isModelVisible (element cfg) st) cfg) /\
          scheduled tr = (if autoOptimize (config st) && negb (isOptimizing st)
                          then 1 else 0)%nat
    end.
Proof.
  intros Hok. unfold updateModelLOD, Eff.withState.
  destruct (activeModels st !! id) as [cfg |] eqn:Hcfg.
  - set (target := determineQuality (lodDistance ar sqrt positionOf cameraData cfg)
                     (lodDistances cfg)).
    destruct (updateModelLOD_change env id cfg target st Hok Hcfg)
      as (st1 & tr1 & held & Hrun & Hok1 & Hc & Ho & Hothers & Hheld & Hel & Hq & Hsame).
    unfold Eff.bind at 1. rewrite Hrun.
    unfold Eff.bind at 1. unfold Eff.modify at 1. rewrite Hheld.
    set (st2 := with_activeModels _ st1).
    assert (Hsched : exists trs,
              (if autoOptimize (config st2) && negb (isOptimizing st2)
               then Eff.emit ScheduleOptimization else Eff.ret tt) st2
              = Some (tt, st2, trs) /\
              scheduled trs = (if autoOptimize (config st) && negb (isOptimizing st)
                               then 1 else 0)%nat /\
              managerActions trs = []).
    { unfold st2. simpl. rewrite Hc, Ho.
      destruct (autoOptimize (config st) && negb (isOptimizing st));
        eexists; split; reflexivity || (split; reflexivity). }
    destruct Hsched as (trs & Hruns & Hcount & Hnone).
    rewrite Hruns. eexists _, _. split; [reflexivity |].
    split; [exact Hok1 |].
    split.
    { intros id' Hne. unfold st2. simpl. rewrite lookup_insert_ne by congruence.
      apply Hothers, Hne. }
    eexists. split; [unfold st2; simpl; apply lookup_insert_eq |].
    split; [reflexivity |]. split; [simpl; rewrite Hel; reflexivity |].
    split; [| split].
    + destruct Hq as [-> | (q' & -> & Hq')]; [now left |]. right. exists q'. auto.
    + intros Hcur. destruct (Hsame Hcur) as (-> & -> & ->). simpl.
      rewrite ?managerActions_app. simpl. rewrite ?Hnone.
      repeat split; reflexivity.
    + rewrite !scheduled_app, scheduled_manager. simpl. exact Hcount.
  - eexists _, _. split; [reflexivity |]. split; [exact Hok |].
    split; [reflexivity |]. split; reflexivity.
Qed.

Lemma updateModelLOD_tracks_witness :
  exists st' tr,
    updateModelLOD Examples.onlyLow Examples.exact (fun x => x) (fun _ => None) "hero"
      {| cd_distance := Some (JsNum.ofZ 20); cd_position := None |} 5
      (Examples.heroRegistered Examples.threePaths) = Some (tt, st', tr) /\
    scheduled tr = 1%nat.
Proof.
  destruct (updateModelLOD_tracks Examples.onlyLow Examples.exact (fun x => x)
              (fun _ => None) "hero"
              {| cd_distance := Some (JsNum.ofZ 20); cd_position := None |} 5
              (Examples.heroRegistered Examples.threePaths))
    as (st' & tr & Hrun & _ & _ & Hcase).
  - split; simpl; [constructor |]. intros k Hk. inversion Hk.
  - assert (Hcfg : exists cfg,
              activeModels (Examples.heroRegistered Examples.threePaths) !! "hero" = Some cfg)
      by (eexists; vm_compute; reflexivity).
    destruct Hcfg as [cfg Hcfg]. rewrite Hcfg in Hcase.
    destruct Hcase as (cfg' & _ & _ & _ & _ & _ & Hsched).
    exists st', tr. split; [exact Hrun |]. rewrite Hsched. reflexivity.
Defined.

(** A reported distance of zero (or NaN) counts as none: [updateModelLOD]
    then goes by the positions, and with no camera position, or for a
    model whose element has no position, by an infinite distance, which
    calls for ['low'] whenever the model's near and medium thresholds are
    finite, where the distance reported would call for ['high'] if it is
    zero and the near threshold is not negative. *)
Theorem updateModelLOD_ignores_zero_distance (env : Env) (ar : PerformanceMonitor.Arith)
    (sqrt : JsNum.num -> JsNum.num) (positionOf : string -> option Vec3)
    (id : string) (d : JsNum.num) (position : option Vec3) (updatedAt : Z)
    (st : State) (cfg : ModelConfig) (n m : Q) :
  truthy d = false ->
  activeModels st !! id = Some cfg ->
  near (lodDistances cfg) = JsNum.Fin n ->
  medium (lodDistances cfg) = JsNum.Fin m ->
  updateModelLOD env ar sqrt positionOf id
    {| cd_distance := Some d; cd_position := position |} updatedAt st
  = updateModelLOD env ar sqrt positionOf id
      {| cd_distance := None; cd_position := position |} updatedAt st /\
  (position = None \/
   match element cfg with Some h => positionOf h | None => None end = None ->
   lodDistance ar sqrt positionOf {| cd_distance := Some d; cd_position := position |} cfg
   = JsNum.PosInf /\
   determineQuality
     (lodDistance ar sqrt positionOf {| cd_distance := Some d; cd_position := position |} cfg)
     (lodDistances cfg) = Low) /\
  (d = JsNum.ofZ 0 -> (0 <= n)%Q -> determineQuality d (lodDistances cfg) = High).
Proof.
  intros Hfalsy Hcfg Hn Hm.
  assert (Hdist : forall p,
            lodDistance ar sqrt positionOf {| cd_distance := Some d; cd_position := p |} cfg
            = lodDistance ar sqrt positionOf {| cd_distance := None; cd_position := p |} cfg).
  { intros p. unfold lodDistance. simpl. rewrite Hfalsy. reflexivity. }
  split; [| split].
  - unfold updateModelLOD, Eff.withState. rewrite Hcfg, Hdist. reflexivity.
  - intros Hnone.
    assert (Hinf : lodDistance ar sqrt positionOf
                     {| cd_distance := Some d; cd_position := position |} cfg = JsNum.PosInf).
    { rewrite Hdist. unfold lodDistance, calculateDistance. simpl.
      destruct Hnone as [-> | ->]; [reflexivity |]. destruct position; reflexivity. }
    split; [exact Hinf |]. rewrite Hinf. unfold determineQuality. rewrite Hn, Hm. reflexivity.
  - intros -> Hpos. unfold determineQuality. rewrite Hn. simpl.
    assert (Hle : Qle_bool (inject_Z 0) n = true) by (apply Qle_bool_iff; exact Hpos).
    rewrite Hle. reflexivity.
Qed.

Lemma updateModelLOD_ignores_zero_distance_witness :
  determineQuality
    (lodDistance Examples.exact (fun x => x) (fun _ => None)
       {| cd_distance := Some (JsNum.ofZ 0); cd_position := None |}
       (newModelConfig "hero" Examples.threePaths Examples.noPreload
          (Examples.after (initialize Examples.onlyLow) Examples.freshManager)))
    defaultDistances = Low.
Proof.
  destruct (updateModelLOD_ignores_zero_distance Examples.onlyLow Examples.exact
              (fun x => x) (fun _ => None) "hero" (JsNum.ofZ 0) None 5
              (Examples.heroRegistered Examples.threePaths)
              (newModelConfig "hero" Examples.threePaths Examples.noPreload
                 (Examples.after (initialize Examples.onlyLow) Examples.freshManager))
              (inject_Z 3) (inject_Z 8))
    as (_ & Hlow & _); [vm_compute; reflexivity .. |].
  destruct Hlow as [_ Hlow]; [now left |]. exact Hlow.
Defined.

End ManagerTracking.

Section ManagerLoads.
Import LODManager.

Lemma preloadModel_available env id q cfg p m0 st :
  activeModels st !! id = Some cfg ->
  pathOf cfg q = Some p ->
  gltf env p = ModelCache.Ok m0 ->
  ModelCache.orderOk (modelCache st) ->
  exists m c' tr,
    preloadModel env id q st = Some (ModelCache.Ok m, with_modelCache c' st, tr) /\
    ModelCache.orderOk c' /\
    failedQualities tr = [] /\
    qualityChangeEvents tr = [] /\
    (m = m0 /\ loaderCalls tr = [cacheKey id q] \/
     exists e, JsMap.get (cacheKey id q) (ModelCache.entries (modelCache st)) = Some e /\
               m = ModelCache.model e /\ tr = []).
Proof.
  intros Hcfg Hp Hload Hok. unfold preloadModel, Eff.withState. rewrite Hcfg, Hp.
  destruct (get_returns (now env) (loadTime env) (cacheKey id q) (gltf env p)
              {| ModelCache.md_quality := Some (qualityName q);
                 ModelCache.md_loadTime := None |} (modelCache st) Hok)
    as (r & c' & tr & Hrun & Hok' & Hres).
  unfold onCache, Eff.zoom. rewrite Hrun.
  destruct Hres as [[-> Htr] | (e & He & -> & ->)].
  - rewrite Hload. exists m0, c'. eexists. split; [reflexivity |]. split; [exact Hok' |].
    rewrite failedQualities_cache, qualityChangeEvents_cache, loaderCalls_cache.
    split; [reflexivity |]. split; [reflexivity |]. left. auto.
  - exists (ModelCache.model e), c'. eexists. split; [reflexivity |]. split; [exact Hok' |].
    split; [reflexivity |]. split; [reflexivity |]. right. eauto.
Qed.

Lemma changeModelQuality_available env id q cfg p m0 st :
  activeModels st !! id = Some cfg ->
  pathOf cfg q = Some p ->
  gltf env p = ModelCache.Ok m0 ->
  ModelCache.orderOk (modelCache st) ->
  exists m st' tr,
    changeModelQuality env id q st = Some (tt, st', tr) /\
    ModelCache.orderOk (modelCache st') /\
    config st' = config st /\
    isOptimizing st' = isOptimizing st /\
    activeModels st' = <[id := loaded q cfg]> (activeModels st) /\
    qualityChanges (stats st') = qualityChanges (stats st) + 1 /\
    failedQualities tr = [] /\
    qualityChangeEvents tr = [(currentQuality cfg, q)] /\
    (loaderCalls tr = [] \/ loaderCalls tr = [cacheKey id q]) /\
    (m = m0 \/
     exists e, JsMap.get (cacheKey id q) (ModelCache.entries (modelCache st)) = Some e /\
               m = ModelCache.model e) /\
    document st'
    = match element cfg, m with
      | Some h, ModelCache.Scene _ _ =>
          <[h := {| mesh := Some {| mesh_model := m; mesh_scale := scaleFactor q |};
                    visible := true |}]> (document st)
      | Some h, ModelCache.Untraversable _ =>
          <[h := {| mesh := None; visible := visible (elementState h st) |}]> (document st)
      | None, _ => document st
      end.
Proof.
  intros Hcfg Hp Hload Hok.
  destruct (preloadModel_available env id q cfg p m0 st Hcfg Hp Hload Hok)
    as (m & c' & tr & Hrun & Hok' & Hfail & Hchg & Hres).
  unfold changeModelQuality. rewrite changeModelQuality_fuel_eq, Hcfg, Hp.
  unfold Eff.bind at 1. rewrite Hrun. exists m.
  assert (Hcalls : loaderCalls tr = [] \/ loaderCalls tr = [cacheKey id q]).
  { destruct Hres as [[_ H] | (e & _ & _ & ->)]; [now right | now left]. }
  assert (Hm : m = m0 \/
               exists e, JsMap.get (cacheKey id q) (ModelCache.entries (modelCache st)) = Some e /\
                         m = ModelCache.model e).
  { destruct Hres as [[H _] | (e & He & H & _)]; [now left | right; eauto]. }
  destruct (element cfg) as [h |]; [destruct m |]; unfold Eff.bind; simpl;
    (eexists _, _; split; [reflexivity |]; simpl; split; [exact Hok' |];
     do 4 (split; [reflexivity |]);
     rewrite manager_loaderCalls_app, failedQualities_app, qualityChangeEvents_app,
       Hfail, Hchg; simpl; rewrite ?app_nil_r;
     split; [reflexivity |]; split; [reflexivity |];
     split; [exact Hcalls |]; split; [exact Hm | reflexivity]).
Qed.


End ManagerLoads.


Section SystemTracking.
Import ModelOptimizationSystem.

Lemma unregisterModel_run id cfg sys :
  isInitialized sys = true ->
  LODManager.activeModels (lodManager sys) !! id = Some cfg ->
  unregisterModel id sys
  = Some (tt,
          with_registeredModels (delete id (registeredModels sys))
            (with_lodManager
               (LODManager.with_activeModels
                  (<[id := LODManager.unloaded cfg]>
                     (LODManager.activeModels (lodManager sys)))
                  (match LODManager.element cfg with
                   | Some h =>
                       LODManager.with_document
                         (<[h := {| LODManager.mesh := None; LODManager.visible := false |}]>
                            (LODManager.document (lodManager sys))) (lodManager sys)
                   | None => lodManager sys
                   end)) sys),
          []).
Proof.
  intros Hinit Hcfg. unfold unregisterModel, Eff.withState. rewrite Hinit. cbn [negb].
  unfold Eff.bind, onManager, Eff.zoom, LODManager.manager. unfold Eff.zoom. cbv beta.
  rewrite (unloadModel_known id cfg _ Hcfg). reflexivity.
Qed.

(** [unregisterModel] takes the model out of the system's registry, so
    that [getModelInfo] answers null, and unloads it, but the manager
    keeps its entry: the next [updateModelLOD] for the id, when the asset
    of the quality the distance calls for is cached or loads, loads the
    model again and shows its element. *)
Theorem unregisterModel_keeps_manager_entry (env : LODManager.Env)
    (ar : PerformanceMonitor.Arith) (sqrt : JsNum.num -> JsNum.num)
    (positionOf : string -> option LODManager.Vec3)
    (id : string) (cameraData : LODManager.CameraData) (updatedAt : Z)
    (sys : System) (cfg : LODManager.ModelConfig) (p : string) (m0 : ModelCache.Model) :
  isInitialized sys = true ->
  LODManager.activeModels (lodManager sys) !! id = Some cfg ->
  ModelCache.orderOk (LODManager.modelCache (lodManager sys)) ->
  let target :=
    LODManager.determineQuality
      (LODManager.lodDistance ar sqrt positionOf cameraData cfg)
      (LODManager.lodDistances cfg) in
  LODManager.pathOf cfg target = Some p ->
  LODManager.gltf env p = ModelCache.Ok m0 ->
  exists sys1 sys2 tr,
    unregisterModel id sys = Some (tt, sys1, []) /\
    getModelInfo id sys1 = None /\
    LODManager.activeModels (lodManager sys1) !! id = Some (LODManager.unloaded cfg) /\
    updateModelLOD env ar sqrt positionOf id cameraData updatedAt sys1
    = Some (tt, sys2, tr) /\
    getModelInfo id sys2 = None /\
    exists cfg',
      LODManager.activeModels (lodManager sys2) !! id = Some cfg' /\
      LODManager.isLoaded cfg' = true /\
      LODManager.currentQuality cfg' = Some target /\
      LODManager.lastUpdate cfg' = updatedAt.
Proof.
  intros Hinit Hcfg Hok target Hp Hload.
  rewrite (unregisterModel_run id cfg sys Hinit Hcfg).
  set (st1 := LODManager.with_activeModels _ _).
  set (sys1 := with_registeredModels _ _).
  assert (Hcfg1 : LODManager.activeModels st1 !! id = Some (LODManager.unloaded cfg))
    by (unfold st1; simpl; apply lookup_insert_eq).
  assert (Hok1 : ModelCache.orderOk (LODManager.modelCache st1))
    by (unfold st1; destruct (LODManager.element cfg); exact Hok).
  destruct (changeModelQuality_available env id target (LODManager.unloaded cfg) p m0 st1
              Hcfg1 Hp Hload Hok1)
    as (m & st2 & tr2 & Hrun2 & _ & Hc2 & Ho2 & Ha2 & _).
  exists sys1. 
  assert (Hinfo1 : getModelInfo id sys1 = None).
  { unfold getModelInfo, sys1. simpl. rewrite lookup_delete_eq. reflexivity. }
  unfold updateModelLOD, Eff.withState.
  assert (Hinit1 : isInitialized sys1 = true) by exact Hinit.
  rewrite Hinit1. cbn [negb]. unfold onManager, Eff.zoom.
  change (lodManager sys1) with st1.
  unfold LODManager.updateModelLOD, Eff.withState. rewrite Hcfg1.
  change (LODManager.lodDistance ar sqrt positionOf cameraData (LODManager.unloaded cfg))
    with (LODManager.lodDistance ar sqrt positionOf cameraData cfg).
  change (LODManager.lodDistances (LODManager.unloaded cfg)) with (LODManager.lodDistances cfg).
  fold target.
  destruct (decide (Some target = LODManager.currentQuality (LODManager.unloaded cfg)))
    as [Heq | _]; [discriminate |].
  unfold Eff.bind at 1. unfold LODManager.manager at 1, Eff.zoom at 1. rewrite Hrun2.
  unfold Eff.bind at 1. unfold Eff.modify at 1.
  rewrite Ha2, lookup_insert_eq.
  match goal with
  | |- context [(if ?b then Eff.emit LODManager.ScheduleOptimization else Eff.ret tt) ?s] =>
      assert (Hs : exists trs,
                (if b then Eff.emit LODManager.ScheduleOptimization else Eff.ret tt) s
                = Some (tt, s, trs)) by (destruct b; eexists; reflexivity)
  end.
  destruct Hs as (trs & Hs). rewrite Hs.
  eexists _, _. split; [reflexivity |]. split; [exact Hinfo1 |].
  split; [reflexivity || exact Hcfg1 |]. split; [reflexivity |].
  split; [unfold getModelInfo; simpl; rewrite lookup_delete_eq; reflexivity |].
  eexists. split; [simpl; apply lookup_insert_eq |].
  repeat split.
Qed.

End SystemTracking.

Lemma unregisterModel_keeps_manager_entry_witness :
  exists sys1 sys2 tr cfg',
    ModelOptimizationSystem.unregisterModel "hero" Examples.heroSystem = Some (tt, sys1, []) /\
    ModelOptimizationSystem.getModelInfo "hero" sys1 = None /\
    ModelOptimizationSystem.updateModelLOD Examples.onlyLow Examples.exact (fun x => x)
      (fun _ => None) "hero" Examples.farAway 9 sys1 = Some (tt, sys2, tr) /\
    LODManager.activeModels (ModelOptimizationSystem.lodManager sys2) !! "hero" = Some cfg' /\
    LODManager.isLoaded cfg' = true.
Proof.
  destruct (unregisterModel_keeps_manager_entry Examples.onlyLow Examples.exact (fun x => x)
              (fun _ => None) "hero" Examples.farAway 9 Examples.heroSystem
              (LODManager.newModelConfig "hero" Examples.threePaths Examples.noPreload
                 (Examples.after (LODManager.initialize Examples.onlyLow)
                    Examples.freshManager))
              "low.glb" Examples.vertex)
    as (sys1 & sys2 & tr & Hun & Hinfo & _ & Hup & _ & cfg' & Hcfg' & Hloaded & _).
  - reflexivity.
  - vm_compute. reflexivity.
  - split; simpl; [constructor |]. intros k Hk. inversion Hk.
  - vm_compute. reflexivity.
  - reflexivity.
  - exists sys1, sys2, tr, cfg'. auto.
Defined.

Section CacheHalves.
Import ModelCache.

Lemma get_begin_returns now key c :
  orderOk c ->
  exists r c1 tr,
    get_begin now key c = Some (r, c1, tr) /\
    orderOk c1 /\
    entries c1 = match r with
                 | Hit _ => JsMap.update (touch now) key (entries c)
                 | Miss => entries c
                 end /\
    match r with
    | Hit m => exists e, JsMap.get key (entries c) = Some e /\ m = model e /\ tr = []
    | Miss => JsMap.get key (entries c) = None /\ tr = [CallLoader key]
    end.
Proof.
  intros Hok. destruct (JsMap.get key (entries c)) as [e |] eqn:He.
  - unfold get_begin, Eff.bind, Eff.withState, Eff.modify. simpl. rewrite He. simpl.
    eexists _, _, _. split; [reflexivity |]. split; [| split; [reflexivity | eauto]].
    destruct Hok as [Hnd Hin]. split; simpl; unfold JsArray.push.
    + apply NoDup_app. split; [apply removeFirst_NoDup, Hnd |].
      split; [| apply NoDup_singleton].
      intros k Hk Hk'. apply list_elem_of_singleton in Hk'. subst k.
      exact (removeFirst_not_in _ _ Hnd Hk).
    + intros k Hk. rewrite has_update. apply elem_of_app in Hk as [Hk | Hk].
      * apply Hin. eapply in_removeFirst, Hk.
      * apply list_elem_of_singleton in Hk. subst k. unfold JsMap.has. now rewrite He.
  - assert (Hmiss : has key c = false) by (apply has_get_none, He).
    rewrite (get_begin_miss _ _ _ Hmiss). eexists _, _, _. split; [reflexivity |].
    split; [exact Hok |]. split; [reflexivity |]. auto.
Qed.

Lemma get_finish_returns now lt key r m0 options c :
  orderOk c ->
  exists m c' tr,
    get_finish now lt key r (Ok m0) options c = Some (Ok m, c', tr) /\
    orderOk c' /\
    loaderCalls tr = [] /\
    m = match r with Hit m' => m' | Miss => m0 end.
Proof.
  intros Hok. destruct r as [m' |]; simpl.
  - exists m', c, []. split; [reflexivity |]. auto.
  - destruct (get_resume_returns now lt key (Ok m0) options c Hok)
      as (c' & tr & Hrun & Hok' & Htr).
    exists m0, c', tr. auto.
Qed.

End CacheHalves.

Section ManagerHalves.
Import LODManager.

Lemma zoom_bind {A B} (m : ModelCache.M A) (f : A -> ModelCache.M B) st :
  onCache (x <- m ;; f x) st = (x <- onCache m ;; onCache (f x)) st.
Proof.
  unfold onCache, Eff.zoom, Eff.bind.
  destruct (m (modelCache st)) as [[[a c1] t1] |]; [| reflexivity]. simpl.
  destruct (f a c1) as [[[b c2] t2] |]; [| reflexivity].
  rewrite map_app. destruct st; reflexivity.
Qed.

Lemma preloadModel_known env id q cfg p st :
  activeModels st !! id = Some cfg ->
  pathOf cfg q = Some p ->
  preloadModel env id q st
  = (r <- onCache (ModelCache.get_begin (now env) (cacheKey id q)) ;;
     onCache (ModelCache.get_finish (now env) (loadTime env) (cacheKey id q) r
                (gltf env p) (qualityMetadata q))) st.
Proof.
  intros Hcfg Hp. unfold preloadModel, Eff.withState. rewrite Hcfg, Hp.
  unfold ModelCache.get. apply zoom_bind.
Qed.

Lemma onCache_activeModels {A} (m : ModelCache.M A) st a st' tr :
  onCache m st = Some (a, st', tr) ->
  activeModels st' = activeModels st /\ document st' = document st /\
  exists c' tr', st' = with_modelCache c' st /\ tr = map Cache tr' /\
                 m (modelCache st) = Some (a, c', tr').
Proof.
  unfold onCache, Eff.zoom. destruct (m (modelCache st)) as [[[a' c'] tr'] |]; [| discriminate].
  intros [= <- <- <-]. split; [reflexivity |]. split; [reflexivity |]. eauto.
Qed.

Lemma bind_assoc {S E A B C} (m : Eff.M S E A) (f : A -> Eff.M S E B)
    (g : B -> Eff.M S E C) s :
  (x <- (y <- m ;; f y) ;; g x) s = (y <- m ;; x <- f y ;; g x) s.
Proof.
  unfold Eff.bind. destruct (m s) as [[[a s1] t1] |]; [| reflexivity].
  destruct (f a s1) as [[[b s2] t2] |]; [| reflexivity].
  destruct (g b s2) as [[[c s3] t3] |]; [| reflexivity].
  now rewrite app_assoc.
Qed.

Lemma bind_ret {S E A B} (a : A) (f : A -> Eff.M S E B) s :
  (x <- Eff.ret a ;; f x) s = f a s.
Proof.
  unfold Eff.bind, Eff.ret. destruct (f a s) as [[[b s2] t2] |]; reflexivity.
Qed.

Lemma bind_withState {S E A B} (k : S -> Eff.M S E A) (f : A -> Eff.M S E B) s :
  (x <- Eff.withState k ;; f x) s = (x <- k s ;; f x) s.
Proof. reflexivity. Qed.

Lemma bind_run_eq {S E A B} (m1 m2 : Eff.M S E A) (f : A -> Eff.M S E B) s :
  m1 s = m2 s -> Eff.bind m1 f s = Eff.bind m2 f s.
Proof. intros H. unfold Eff.bind. now rewrite H. Qed.

Lemma bind_ext_post {S E A B} (m : Eff.M S E A) (f g : A -> Eff.M S E B) s :
  (forall a s' t, m s = Some (a, s', t) -> f a s' = g a s') ->
  Eff.bind m f s = Eff.bind m g s.
Proof.
  intros H. unfold Eff.bind. destruct (m s) as [[[a s1] t1] |] eqn:Hm; [| reflexivity].
  now rewrite (H a s1 t1 eq_refl).
Qed.

(** Run back to back, the two halves of [changeModelQuality] are the
    method run without interruption. *)
Lemma changeModelQuality_halves env id q st :
  (a <- changeModelQuality_begin env id q ;;
   match a with
   | Some a' => changeModelQuality_resume env a'
   | None => Eff.ret tt
   end) st
  = changeModelQuality env id q st.
Proof.
  unfold changeModelQuality. rewrite changeModelQuality_fuel_eq.
  destruct (activeModels st !! id) as [cfg |] eqn:Hcfg.
  2: { unfold Eff.bind, changeModelQuality_begin, Eff.withState. now rewrite Hcfg. }
  destruct (pathOf cfg q) as [p |] eqn:Hp.
  2: { unfold Eff.bind, changeModelQuality_begin, Eff.withState. now rewrite Hcfg, Hp. }
  transitivity
    ((r <- onCache (ModelCache.get_begin (now env) (cacheKey id q)) ;;
      changeModelQuality_resume env
        {| aw_entityId := id; aw_target := q; aw_previous := currentQuality cfg;
           aw_path := p; aw_lookup := r |}) st).
  { transitivity
      ((a <- (r <- onCache (ModelCache.get_begin (now env) (cacheKey id q)) ;;
              Eff.ret (Some {| aw_entityId := id; aw_target := q;
                               aw_previous := currentQuality cfg;
                               aw_path := p; aw_lookup := r |})) ;;
        match a with
        | Some a' => changeModelQuality_resume env a'
        | None => Eff.ret tt
        end) st).
    - unfold Eff.bind at 1 3. unfold changeModelQuality_begin, Eff.withState.
      now rewrite Hcfg, Hp.
    - unfold Eff.bind, Eff.ret.
      destruct (onCache (ModelCache.get_begin (now env) (cacheKey id q)) st)
        as [[[r s1] t1] |]; [| reflexivity].
      destruct (changeModelQuality_resume env _ s1) as [[[u s2] t2] |]; [| reflexivity].
      now rewrite app_nil_r. }
  transitivity
    ((x <- (r <- onCache (ModelCache.get_begin (now env) (cacheKey id q)) ;;
            onCache (ModelCache.get_finish (now env) (loadTime env) (cacheKey id q) r
                       (gltf env p) (qualityMetadata q))) ;;
      match x with
      | ModelCache.Ok m =>
          match element cfg with
          | Some handle => applyModelToElement handle m q
          | None => Eff.ret tt
          end ;;;
          Eff.modify (fun st =>
            with_activeModels (<[id := loaded q cfg]> (activeModels st)) st) ;;;
          Eff.modify count_qualityChange ;;;
          Eff.emit (NotifyQualityChange id (currentQuality cfg) q m)
      | ModelCache.Err e =>
          Eff.emit (LogQualityError id q e) ;;;
          match q with
          | High => changeModelQuality_fuel env 1 id Medium
          | Medium => changeModelQuality_fuel env 1 id Low
          | Low => Eff.ret tt
          end
      end) st).
  2: { symmetry. apply bind_run_eq. apply (preloadModel_known env id q cfg p st Hcfg Hp). }
  rewrite bind_assoc. apply bind_ext_post. intros r st1 t1 Hbegin.
  destruct (onCache_activeModels _ _ _ _ _ Hbegin) as (Ham & _).
  unfold changeModelQuality_resume.
  cbn [aw_entityId aw_target aw_lookup aw_path aw_previous].
  apply bind_ext_post. intros x st2 t2 Hfin.
  destruct (onCache_activeModels _ _ _ _ _ Hfin) as (Ham2 & _).
  destruct x as [m | e].
  - unfold Eff.withState. now rewrite Ham2, Ham, Hcfg.
  - apply bind_ext. intros _ st3. destruct q; [reflexivity | |].
    + apply changeModelQuality_fuel_low.
    + apply (changeModelQuality_fuel_medium env 1 0).
Qed.

(** Run back to back, the two halves of [reduceAllModelQuality] are the
    method run without interruption. *)
Lemma reduceAllModelQuality_halves env ids : forall st,
  (s <- reduceAllModelQuality_begin env ids ;;
   match s with
   | Some s' => reduceAllModelQuality_resume env s'
   | None => Eff.ret tt
   end) st
  = reduceAllModelQuality env ids st.
Proof.
  induction ids as [| id rest IH]; intros st; [reflexivity |].
  assert (Hskip : (s <- reduceAllModelQuality_begin env rest ;;
                   match s with
                   | Some s' => reduceAllModelQuality_resume env s'
                   | None => Eff.ret tt
                   end) st
                  = (Eff.ret tt ;;; reduceAllModelQuality env rest) st).
  { rewrite IH. symmetry. exact (bind_ret tt (fun _ => reduceAllModelQuality env rest) st). }
  assert (Hstep : forall q,
            (s <- (a <- changeModelQuality_begin env id q ;;
                   Eff.ret (Some {| sus_change := a; sus_rest := rest |})) ;;
             match s with
             | Some s' => reduceAllModelQuality_resume env s'
             | None => Eff.ret tt
             end) st
            = (changeModelQuality env id q ;;; reduceAllModelQuality env rest) st).
  { intros q.
    transitivity
      (((a <- changeModelQuality_begin env id q ;;
         match a with
         | Some a' => changeModelQuality_resume env a'
         | None => Eff.ret tt
         end) ;;; reduceAllModelQuality env rest) st).
    - unfold Eff.bind, Eff.ret.
      destruct (changeModelQuality_begin env id q st) as [[[a s1] t1] |]; [| reflexivity].
      unfold reduceAllModelQuality_resume. cbn [sus_change sus_rest]. unfold Eff.bind.
      destruct a as [a' |].
      + destruct (changeModelQuality_resume env a' s1) as [[[u s2] t2] |]; [| reflexivity].
        destruct (reduceAllModelQuality env rest s2) as [[[u' s3] t3] |]; [| reflexivity].
        now rewrite app_nil_r, app_assoc.
      + unfold Eff.ret.
        destruct (reduceAllModelQuality env rest s1) as [[[u' s3] t3] |]; [| reflexivity].
        simpl. now rewrite !app_nil_r.
    - apply bind_run_eq, changeModelQuality_halves. }
  unfold reduceAllModelQuality. cbn [Eff.forEach reduceAllModelQuality_begin].
  fold (reduceAllModelQuality env rest).
  unfold reduceQuality at 1. rewrite !bind_withState.
  destruct (activeModels st !! id) as [cfg |]; [| exact Hskip].
  destruct (currentQuality cfg) as [[] |]; [exact Hskip | apply Hstep | apply Hstep | exact Hskip].
Qed.

End ManagerHalves.

Section ManagerHandling.
Import LODManager.

Lemma reduceAllModelQuality_begin_passes env skipped l st :
  (forall id' c, id' ∈ skipped -> activeModels st !! id' = Some c ->
                 (qualityLevel (currentQuality c) <= 1)%nat) ->
  reduceAllModelQuality_begin env (skipped ++ l) st = reduceAllModelQuality_begin env l st.
Proof.
  induction skipped as [| id' skipped IH]; intros Hlow; [reflexivity |].
  cbn [app reduceAllModelQuality_begin]. unfold Eff.withState.
  assert (IH' : reduceAllModelQuality_begin env (skipped ++ l) st
                = reduceAllModelQuality_begin env l st).
  { apply IH. intros i c Hi. apply Hlow. right. exact Hi. }
  destruct (activeModels st !! id') as [c |] eqn:Hc; [| exact IH'].
  assert (Hin : id' ∈ id' :: skipped) by left.
  specialize (Hlow id' c Hin Hc).
  destruct (currentQuality c) as [[] |]; simpl in Hlow; try lia; exact IH'.
Qed.

Lemma changeModelQuality_begin_run env id q cfg p st :
  activeModels st !! id = Some cfg ->
  pathOf cfg q = Some p ->
  ModelCache.orderOk (modelCache st) ->
  exists r c1 trb,
    changeModelQuality_begin env id q st
    = Some (Some {| aw_entityId := id; aw_target := q; aw_previous := currentQuality cfg;
                    aw_path := p; aw_lookup := r |},
            with_modelCache c1 st, map Cache trb) /\
    ModelCache.orderOk c1.
Proof.
  intros Hcfg Hp Hok. unfold changeModelQuality_begin, Eff.withState. rewrite Hcfg, Hp.
  destruct (get_begin_returns (now env) (cacheKey id q) (modelCache st) Hok)
    as (r & c1 & trb & Hrun & Hok1 & _).
  unfold Eff.bind, onCache, Eff.zoom. rewrite Hrun. simpl. rewrite app_nil_r.
  exists r, c1, trb. split; [reflexivity | exact Hok1].
Qed.

Lemma loaded_unloaded q cfg : loaded q (unloaded cfg) = loaded q cfg.
Proof. destruct cfg; reflexivity. Qed.

Lemma changeModelQuality_resume_loads env a held m0 st :
  activeModels st !! aw_entityId a = Some held ->
  gltf env (aw_path a) = ModelCache.Ok m0 ->
  ModelCache.orderOk (modelCache st) ->
  exists st' tr,
    changeModelQuality_resume env a st = Some (tt, st', tr) /\
    ModelCache.orderOk (modelCache st') /\
    activeModels st' = <[aw_entityId a := loaded (aw_target a) held]> (activeModels st) /\
    qualityChangeEvents tr = [(aw_previous a, aw_target a)] /\
    failedQualities tr = [].
Proof.
  intros Hheld Hload Hok. unfold changeModelQuality_resume. rewrite Hload.
  destruct (get_finish_returns (now env) (loadTime env)
              (cacheKey (aw_entityId a) (aw_target a)) (aw_lookup a) m0
              (qualityMetadata (aw_target a)) (modelCache st) Hok)
    as (m & c' & tr & Hrun & Hok' & _ & _).
  unfold Eff.bind at 1. unfold onCache, Eff.zoom. rewrite Hrun.
  unfold Eff.withState. simpl. rewrite Hheld.
  destruct (element held) as [h |]; [destruct m |]; unfold Eff.bind; simpl;
    (eexists _, _; split; [reflexivity |]; simpl; split; [exact Hok' |];
     split; [reflexivity |];
     rewrite qualityChangeEvents_app, failedQualities_app,
       qualityChangeEvents_cache, failedQualities_cache; split; reflexivity).
Qed.

(** A reduction that [handlePerformanceIssue] starts can undo the
    unloading that follows it.  With the recommendations of a critical
    frame rate, [reduce_model_quality] and then [reduce_active_models],
    the reduction is suspended in [changeModelQuality] for the first model
    at ['high'] or ['medium'], and [reduceActiveModels] runs before it
    goes on.  If that model is among those [reduceActiveModels] unloads
    and the asset of its next lower quality is cached or loads, the model
    is unloaded when the handler returns, and loaded again, at the lower
    quality, when the suspended reduction has run; the [qualityChange]
    then notified names the quality the model had before it was
    unloaded. *)
Theorem handlePerformanceIssue_reloads_unloaded (env : Env) (ids skipped rest : list string)
    (id : string) (cfg : ModelConfig) (q : Quality) (p : string) (m0 : ModelCache.Model)
    (st : State) :
  NoDup ids ->
  ids = skipped ++ id :: rest ->
  (forall id' c, id' ∈ skipped -> activeModels st !! id' = Some c ->
                 (qualityLevel (currentQuality c) <= 1)%nat) ->
  activeModels st !! id = Some cfg ->
  (currentQuality cfg = Some High /\ q = Medium \/
   currentQuality cfg = Some Medium /\ q = Low) ->
  pathOf cfg q = Some p ->
  gltf env p = ModelCache.Ok m0 ->
  ModelCache.orderOk (modelCache st) ->
  (id, cfg) ∈ take (threeTenthsCeil (length (loadedByPriority ids st)))
               (loadedByPriority ids st) ->
  exists sus st1 tr1 st2 tr2 later,
    handlePerformanceIssue env ids
      [PerformanceMonitor.reduce_model_quality; PerformanceMonitor.reduce_active_models] st
    = Some ([sus], st1, tr1) /\
    qualityChangeEvents tr1 = [] /\
    activeModels st1 !! id = Some (unloaded cfg) /\
    reduceAllModelQuality_resume env sus st1 = Some (tt, st2, tr2) /\
    activeModels st2 !! id = Some (loaded q cfg) /\
    isLoaded (loaded q cfg) = true /\
    qualityChangeEvents tr2 = (currentQuality cfg, q) :: later.
Proof.
  intros Hnd Hids Hlow Hcfg Hq Hp Hload Hok Hvictim.
  destruct (changeModelQuality_begin_run env id q cfg p st Hcfg Hp Hok)
    as (r & c1 & trb & Hbegin & Hok1).
  set (a := {| aw_entityId := id; aw_target := q; aw_previous := currentQuality cfg;
               aw_path := p; aw_lookup := r |}) in *.
  set (st1a := with_modelCache c1 st) in *.
  assert (Hred : reduceAllModelQuality_begin env ids st
                 = Some (Some {| sus_change := Some a; sus_rest := rest |},
                         st1a, map Cache trb)).
  { rewrite Hids, (reduceAllModelQuality_begin_passes env skipped _ st Hlow).
    cbn [reduceAllModelQuality_begin]. unfold Eff.withState. rewrite Hcfg.
    destruct Hq as [[Hcur ->] | [Hcur ->]]; rewrite Hcur;
      unfold Eff.bind; rewrite Hbegin; simpl; now rewrite app_nil_r. }
  destruct (loadedByPriority_spec ids st Hnd) as [Hkeys Hranked].
  set (victims := take (threeTenthsCeil (length (loadedByPriority ids st)))
                    (loadedByPriority ids st)) in *.
  destruct (unloadEach_run victims st1a) as (st1 & Hunload & Hcache1 & _ & Hvict & _).
  { eapply sublist_NoDup; [exact Hkeys |]. apply fmap_sublist, sublist_take. }
  { intros ic Hic. apply Hranked. eapply subseteq_take, Hic. }
  assert (Hactive : reduceActiveModels ids st1a = Some (tt, st1, [])) by exact Hunload.
  assert (Hheld : activeModels st1 !! id = Some (unloaded cfg))
    by exact (Hvict (id, cfg) Hvictim).
  assert (Hok1' : ModelCache.orderOk (modelCache st1)) by (rewrite Hcache1; exact Hok1).
  destruct (changeModelQuality_resume_loads env a (unloaded cfg) m0 st1 Hheld Hload Hok1')
    as (st2a & tr2a & Hresume & Hok2 & Ham2 & Hev2 & _).
  destruct (reduceAllModelQuality_run env rest st2a Hok2)
    as (st2 & tr2b & Hrest & _ & _ & Hframe).
  assert (Hout : id ∉ rest).
  { rewrite Hids in Hnd. apply NoDup_app in Hnd as (_ & _ & Hnd).
    apply NoDup_cons in Hnd as [Hout _]. exact Hout. }
  exists {| sus_change := Some a; sus_rest := rest |}, st1, (map Cache trb), st2,
    (tr2a ++ tr2b), (qualityChangeEvents tr2b).
  split.
  { cbn [handlePerformanceIssue]. unfold Eff.bind. rewrite Hred. simpl.
    rewrite Hactive. simpl. now rewrite !app_nil_r. }
  split; [apply qualityChangeEvents_cache |]. split; [exact Hheld |].
  split.
  { unfold reduceAllModelQuality_resume. cbn [sus_change sus_rest].
    unfold Eff.bind. rewrite Hresume, Hrest. reflexivity. }
  split.
  { rewrite (Hframe id Hout), Ham2. cbn [aw_entityId aw_target a].
    rewrite lookup_insert_eq, loaded_unloaded. reflexivity. }
  split; [reflexivity |].
  rewrite qualityChangeEvents_app, Hev2. reflexivity.
Qed.

End ManagerHandling.

Lemma handlePerformanceIssue_reloads_unloaded_witness :
  exists sus st1 tr1 st2 tr2,
    LODManager.handlePerformanceIssue Examples.onlyLow ["hero"]
      [PerformanceMonitor.reduce_model_quality; PerformanceMonitor.reduce_active_models]
      Examples.heroAtMedium = Some ([sus], st1, tr1) /\
    LODManager.isLoaded <$> LODManager.activeModels st1 !! "hero" = Some false /\
    LODManager.reduceAllModelQuality_resume Examples.onlyLow sus st1 = Some (tt, st2, tr2) /\
    LODManager.isLoaded <$> LODManager.activeModels st2 !! "hero" = Some true.
Proof.
  destruct (handlePerformanceIssue_reloads_unloaded Examples.onlyLow ["hero"] [] []
              "hero" (LODManager.loaded LODManager.Medium Examples.heroConfig)
              LODManager.Low "low.glb" Examples.vertex Examples.heroAtMedium)
    as (sus & st1 & tr1 & st2 & tr2 & later & Hrun & _ & H1 & Hresume & H2 & _).
  - apply NoDup_singleton.
  - reflexivity.
  - intros id' c Hin. inversion Hin.
  - vm_compute. reflexivity.
  - right. split; reflexivity.
  - vm_compute. reflexivity.
  - reflexivity.
  - split; simpl; [constructor |]. intros k Hk. inversion Hk.
  - vm_compute. left.
  - exists sus, st1, tr1, st2, tr2. split; [exact Hrun |].
    split; [rewrite H1; reflexivity |]. split; [exact Hresume |]. rewrite H2. reflexivity.
Defined.

Section ManagerIgnores.
Import LODManager.

Lemma handlePerformanceIssue_unhandled env ids recs st :
  PerformanceMonitor.reduce_model_quality ∉ recs ->
  PerformanceMonitor.clear_cache ∉ recs ->
  PerformanceMonitor.reduce_active_models ∉ recs ->
  handlePerformanceIssue env ids recs st = Some ([], st, []).
Proof.
  induction recs as [| r recs IH]; intros H1 H2 H3; [reflexivity |].
  apply not_elem_of_cons in H1 as [H1 H1'].
  apply not_elem_of_cons in H2 as [H2 H2'].
  apply not_elem_of_cons in H3 as [H3 H3'].
  cbn [handlePerformanceIssue]. unfold Eff.bind.
  destruct r; try contradiction; simpl; rewrite (IH H1' H2' H3'); reflexivity.
Qed.

(** Of the seven recommendations [handlePerformanceIssue] acts on three.
    A notification whose issues are a slow render or a frame rate that is
    low without being critical carries none of them: the handler then
    leaves the manager exactly as it is and starts nothing. *)
Theorem handlePerformanceIssue_ignores_minor_issues (env : Env) (ids : list string)
    (found : list PerformanceMonitor.Issue) (st : State) :
  (forall i, i ∈ found ->
     PerformanceMonitor.type i = PerformanceMonitor.slow_render \/
     PerformanceMonitor.type i = PerformanceMonitor.low_fps /\
     PerformanceMonitor.severity i <> PerformanceMonitor.sev_critical) ->
  handlePerformanceIssue env ids (PerformanceMonitor.generateRecommendations found) st
  = Some ([], st, []).
Proof.
  intros Hminor. destruct (generateRecommendations_spec found) as [_ Hmem].
  apply handlePerformanceIssue_unhandled; rewrite Hmem;
    intros (i & Hi & Hr); apply recommend_cases in Hr;
    destruct (Hminor i Hi) as [Ht | [Ht Hs]]; destruct Hr as [Ht' Hs'];
    congruence.
Qed.

Lemma handlePerformanceIssue_ignores_minor_issues_witness :
  handlePerformanceIssue Examples.onlyLow ["hero"]
    (PerformanceMonitor.generateRecommendations
       [{| PerformanceMonitor.type := PerformanceMonitor.low_fps;
           PerformanceMonitor.severity := PerformanceMonitor.sev_high;
           PerformanceMonitor.data :=
             PerformanceMonitor.FpsData (JsNum.ofZ 20) (JsNum.ofZ 30) (JsNum.ofZ 24) |}])
    Examples.heroAtMedium
  = Some ([], Examples.heroAtMedium, []).
Proof.
  apply handlePerformanceIssue_ignores_minor_issues.
  intros i Hi. apply list_elem_of_singleton in Hi. subst i. right.
  split; [reflexivity | discriminate].
Defined.

End ManagerIgnores.
Section DeviceTiers.
Import DeviceDetector.
Variable toLowerCase : string -> string.

Lemma leb_trans (a b c : JsNum.num) :
  JsNum.leb a b = true -> JsNum.leb b c = true -> JsNum.leb a c = true.
Proof.
  destruct a, b, c; simpl; try congruence.
  intros H1 H2. apply Qle_bool_iff in H1, H2. apply Qle_bool_iff.
  eapply Qle_trans; eassumption.
Qed.

Lemma memoryPoints_mono (m1 m2 : JsNum.num) :
  JsNum.leb m1 m2 = true -> memoryPoints m1 <= memoryPoints m2.
Proof.
  intros H. unfold memoryPoints.
  destruct (JsNum.leb (JsNum.ofZ 6144) m1) eqn:H1.
  { rewrite (leb_trans _ _ _ H1 H). lia. }
  destruct (JsNum.leb (JsNum.ofZ 3072) m1) eqn:H2.
  { rewrite (leb_trans _ _ _ H2 H). destruct (JsNum.leb (JsNum.ofZ 6144) m2); lia. }
  destruct (JsNum.leb (JsNum.ofZ 1536) m1) eqn:H3.
  { rewrite (leb_trans _ _ _ H3 H).
    destruct (JsNum.leb (JsNum.ofZ 6144) m2), (JsNum.leb (JsNum.ofZ 3072) m2); lia. }
  destruct (JsNum.leb (JsNum.ofZ 6144) m2), (JsNum.leb (JsNum.ofZ 3072) m2),
    (JsNum.leb (JsNum.ofZ 1536) m2); lia.
Qed.

Lemma webglPoints_mono (w1 w2 : WebGLCapabilities) :
  JsNum.leb (maxTextureSize w1) (maxTextureSize w2) = true ->
  (length (supportedFormats w1) <= length (supportedFormats w2))%nat ->
  webglPoints w1 <= webglPoints w2.
Proof.
  intros H Hl. unfold webglPoints.
  assert (Hf : (if (3 <? length (supportedFormats w1))%nat then 1 else 0)
               <= (if (3 <? length (supportedFormats w2))%nat then 1 else 0)).
  { destruct (3 <? length (supportedFormats w1))%nat eqn:E1;
      destruct (3 <? length (supportedFormats w2))%nat eqn:E2; try lia.
    apply Nat.ltb_lt in E1. apply Nat.ltb_ge in E2. lia. }
  destruct (JsNum.leb (JsNum.ofZ 4096) (maxTextureSize w1)) eqn:H1.
  { rewrite (leb_trans _ _ _ H1 H). lia. }
  destruct (JsNum.leb (JsNum.ofZ 2048) (maxTextureSize w1)) eqn:H2.
  { rewrite (leb_trans _ _ _ H2 H).
    destruct (JsNum.leb (JsNum.ofZ 4096) (maxTextureSize w2)); lia. }
  destruct (JsNum.leb (JsNum.ofZ 4096) (maxTextureSize w2)),
    (JsNum.leb (JsNum.ofZ 2048) (maxTextureSize w2)); lia.
Qed.

Lemma points_bounds (m : JsNum.num) (g : Gpu) (w : WebGLCapabilities) :
  0 <= memoryPoints m <= 3 /\ 0 <= gpuPoints toLowerCase g <= 3 /\ 0 <= webglPoints w <= 3.
Proof.
  unfold memoryPoints, gpuPoints, webglPoints.
  repeat match goal with |- context [if ?b then _ else _] => destruct b end; lia.
Qed.

(** More memory, a larger maximal texture size or more supported texture
    formats never lower the tier of a device: with the same GPU,
    [classifyDevice] is monotone in these three. *)
Theorem classifyDevice_monotone (m1 m2 : JsNum.num) (g : Gpu) (w1 w2 : WebGLCapabilities) :
  JsNum.leb m1 m2 = true ->
  JsNum.leb (maxTextureSize w1) (maxTextureSize w2) = true ->
  (length (supportedFormats w1) <= length (supportedFormats w2))%nat ->
  (tierRank (classifyDevice toLowerCase m1 g w1)
   <= tierRank (classifyDevice toLowerCase m2 g w2))%nat.
Proof.
  intros Hm Ht Hl.
  pose proof (memoryPoints_mono _ _ Hm) as H1.
  pose proof (webglPoints_mono _ _ Ht Hl) as H2.
  unfold classifyDevice. cbv zeta.
  repeat match goal with |- context [?a >=? ?b] =>
    let E := fresh "E" in destruct (Z.geb_spec a b) as [E | E] end;
  simpl; lia.
Qed.

(** [classifyDevice] answers 'high' only for a device with at least 1536 MB
    and a renderer whose name holds one of the nine GPU patterns: a device
    with less memory, or with any GPU outside the Adreno, Mali-G and Apple
    families, is 'medium' at best, whatever its other capabilities. *)
Theorem classifyDevice_high_requires (memory : JsNum.num) (g : Gpu) (w : WebGLCapabilities) :
  JsNum.leb (JsNum.ofZ 1536) memory = false
  \/ Forall (fun pattern => includes (toLowerCase (renderer g)) pattern = false)
       ["adreno 7"; "mali-g7"; "apple a1"; "apple m"; "adreno 6"; "mali-g5";
        "adreno 5"; "mali-g"; "apple a"] ->
  classifyDevice toLowerCase memory g w <> tier_high.
Proof.
  intros H.
  destruct (points_bounds memory g w) as (Hm & Hg & Hw).
  assert (Hsum : memoryPoints memory + gpuPoints toLowerCase g + webglPoints w < 7).
  { destruct H as [H | H].
    - assert (memoryPoints memory = 0); [| lia].
      unfold memoryPoints.
      destruct (JsNum.leb (JsNum.ofZ 6144) memory) eqn:H1.
      { rewrite (leb_trans (JsNum.ofZ 1536) (JsNum.ofZ 6144) memory) in H;
          [discriminate | reflexivity | exact H1]. }
      destruct (JsNum.leb (JsNum.ofZ 3072) memory) eqn:H2.
      { rewrite (leb_trans (JsNum.ofZ 1536) (JsNum.ofZ 3072) memory) in H;
          [discriminate | reflexivity | exact H2]. }
      rewrite H. reflexivity.
    - assert (gpuPoints toLowerCase g = 0); [| lia].
      unfold gpuPoints. cbv zeta.
      repeat match goal with
             | H : Forall _ (_ :: _) |- _ => inversion H; subst; clear H
             end.
      repeat match goal with
             | E : includes _ _ = false |- _ => rewrite E; clear E
             end.
      reflexivity. }
  unfold classifyDevice. cbv zeta.
  destruct (Z.geb_spec (memoryPoints memory + gpuPoints toLowerCase g + webglPoints w) 7);
    [lia |].
  destruct (_ >=? 4); discriminate.
Qed.

End DeviceTiers.

Lemma classifyDevice_monotone_witness :
  (DeviceDetector.tierRank (DeviceDetector.classifyDevice Examples.lowerCase (JsNum.ofZ 2048)
               Examples.desktopGpu Examples.desktopWebGL)
   <= DeviceDetector.tierRank (DeviceDetector.classifyDevice Examples.lowerCase (JsNum.ofZ 8192)
                  Examples.desktopGpu Examples.desktopWebGL))%nat.
Proof.
  apply (classifyDevice_monotone Examples.lowerCase (JsNum.ofZ 2048) (JsNum.ofZ 8192)
           Examples.desktopGpu Examples.desktopWebGL Examples.desktopWebGL).
  - vm_compute. reflexivity.
  - vm_compute. reflexivity.
  - simpl. lia.
Defined.

Lemma classifyDevice_high_requires_witness :
  DeviceDetector.classifyDevice Examples.lowerCase (JsNum.ofZ 8192)
    Examples.desktopGpu Examples.desktopWebGL <> DeviceDetector.tier_high.
Proof.
  apply (classifyDevice_high_requires Examples.lowerCase (JsNum.ofZ 8192)
           Examples.desktopGpu Examples.desktopWebGL).
  right. vm_compute. repeat constructor.
Defined.
Section ManagerKeys.
Import LODManager.

Lemma length_append (s t : string) :
  String.length (String.append s t) = (String.length s + String.length t)%nat.
Proof. induction s as [| a s IH]; simpl; [reflexivity | now rewrite IH]. Qed.

Lemma append_cancel_r (t s s' : string) :
  String.append s t = String.append s' t -> s = s'.
Proof.
  revert s'. induction s as [| a s IH]; intros [| a' s'] H.
  - reflexivity.
  - apply (f_equal String.length) in H. rewrite !length_append in H.
    cbn [String.length] in H. lia.
  - apply (f_equal String.length) in H. rewrite !length_append in H.
    cbn [String.length] in H. lia.
  - cbn [String.append] in H. injection H as -> H. f_equal. now apply IH.
Qed.

(** The last character of a key names the quality. *)
Lemma cacheKey_last (id : string) (q : Quality) :
  String.get (String.length (cacheKey id q) - 1) (cacheKey id q)
  = match q with
    | High => String.get 0 "h"
    | Medium => String.get 0 "m"
    | Low => String.get 0 "w"
    end.
Proof.
  unfold cacheKey. rewrite length_append.
  destruct q; simpl String.length.
  - replace (String.length id + 4 - 1)%nat with (3 + String.length id)%nat by lia.
    rewrite <- append_correct2. reflexivity.
  - replace (String.length id + 7 - 1)%nat with (6 + String.length id)%nat by lia.
    rewrite <- append_correct2. reflexivity.
  - replace (String.length id + 5 - 1)%nat with (4 + String.length id)%nat by lia.
    rewrite <- append_correct2. reflexivity.
Qed.

(** The keys under which the manager caches its models never collide: two
    loads share a cache key only when they are for the same entity and the
    same quality, also when an entity id itself ends in the name of a
    quality. *)
Theorem cacheKey_injective (id id' : string) (q q' : Quality) :
  cacheKey id q = cacheKey id' q' -> id = id' /\ q = q'.
Proof.
  intros H.
  assert (Hq : q = q').
  { pose proof (cacheKey_last id q) as H1. pose proof (cacheKey_last id' q') as H2.
    rewrite H, H2 in H1. destruct q, q'; (reflexivity || (vm_compute in H1; discriminate)). }
  subst q'. split; [| reflexivity].
  unfold cacheKey in H. now apply append_cancel_r in H.
Qed.


End ManagerKeys.

Lemma cacheKey_injective_witness :
  "hero_low" = "hero_low" /\ LODManager.Low = LODManager.Low.
Proof.
  apply (cacheKey_injective "hero_low" "hero_low" LODManager.Low LODManager.Low).
  reflexivity.
Defined.

Section ManagerOptimizing.
Import LODManager.

Lemma lowered_refl st : lowered st st.
Proof. intros id. destruct (activeModels st !! id); [now left | reflexivity]. Qed.

Lemma lowered_trans st1 st2 st3 : lowered st1 st2 -> lowered st2 st3 -> lowered st1 st3.
Proof.
  intros H12 H23 id. specialize (H12 id). specialize (H23 id).
  destruct (activeModels st1 !! id) as [cfg |].
  - destruct H12 as [H12 | (q & Hq & H12)]; rewrite H12 in H23.
    + exact H23.
    + destruct H23 as [H23 | (q' & Hq' & H23)].
      * right. exists q. split; [exact Hq | exact H23].
      * right. exists q'. split; [simpl in *; lia | exact H23].
  - now rewrite H12 in H23.
Qed.

Lemma lowered_keyed st st' :
  lowered st st' ->
  (forall id cfg, activeModels st !! id = Some cfg -> entityId cfg = id) ->
  forall id cfg, activeModels st' !! id = Some cfg -> entityId cfg = id.
Proof.
  intros Hl Hk id cfg' Hcfg'. specialize (Hl id).
  destruct (activeModels st !! id) as [cfg |] eqn:Hcfg; [| congruence].
  specialize (Hk id cfg Hcfg).
  destruct Hl as [Hl | (q & _ & Hl)]; rewrite Hl in Hcfg'; injection Hcfg' as <-;
    [exact Hk | exact Hk].
Qed.

Lemma lowerVisible_step env key st :
  (forall id cfg, activeModels st !! id = Some cfg -> entityId cfg = id) ->
  ModelCache.orderOk (modelCache st) ->
  exists st' tr,
    lowerVisible env key st = Some (tt, st', tr) /\
    ModelCache.orderOk (modelCache st') /\
    lowered st st' /\
    (forall id', id' <> key -> activeModels st' !! id' = activeModels st !! id').
Proof.
  intros Hk Hok. unfold lowerVisible, Eff.withState.
  assert (Hstay : exists st' tr,
            Some (tt, st, @nil Action) = Some (tt, st', tr) /\
            ModelCache.orderOk (modelCache st') /\ lowered st st' /\
            (forall id', id' <> key -> activeModels st' !! id' = activeModels st !! id')).
  { exists st, []. split; [reflexivity |]. split; [exact Hok |].
    split; [apply lowered_refl | reflexivity]. }
  assert (Hgo : forall cfg q, activeModels st !! key = Some cfg ->
            (qualityLevel (Some q) < qualityLevel (currentQuality cfg))%nat ->
            exists st' tr,
              changeModelQuality env key q st = Some (tt, st', tr) /\
              ModelCache.orderOk (modelCache st') /\ lowered st st' /\
              (forall id', id' <> key -> activeModels st' !! id' = activeModels st !! id')).
  { intros cfg q Hcfg Hlt.
    assert (Hfuel : (qualityLevel (Some q) <= 3)%nat) by (destruct q; simpl; lia).
    destruct (changeModelQuality_fuel_outcome env 2 key q st Hfuel Hok)
      as (st' & tr & Hrun & Hok' & _ & _ & _ & Hout).
    exists st', tr. split; [exact Hrun |]. split; [exact Hok' |].
    destruct Hout as [(Ha & _) | (q' & Hq' & cfg0 & Hcfg0 & _ & Ha & _)].
    - split; [| intros id' _; now rewrite Ha].
      intros id'. rewrite Ha. apply lowered_refl.
    - rewrite Hcfg in Hcfg0. injection Hcfg0 as <-.
      split; [| intros id' Hne; rewrite Ha; apply lookup_insert_ne; congruence].
      intros id'. destruct (decide (id' = key)) as [-> | Hne].
      + rewrite Hcfg, Ha, lookup_insert_eq. right. exists q'.
        split; [simpl in *; lia | reflexivity].
      + rewrite Ha, lookup_insert_ne by congruence.
        destruct (activeModels st !! id') as [cfg' |]; [now left | reflexivity]. }
  destruct (activeModels st !! key) as [cfg |] eqn:Hcfg; [| exact Hstay].
  rewrite (Hk key cfg Hcfg).
  destruct (currentQuality cfg) as [[] |] eqn:Hq; try exact Hstay.
  - apply (Hgo cfg Low eq_refl). rewrite Hq. simpl. lia.
  - apply (Hgo cfg Medium eq_refl). rewrite Hq. simpl. lia.
Qed.

Lemma lowerVisible_loop env (l : list (string * ModelConfig)) : forall st,
  (forall id cfg, activeModels st !! id = Some cfg -> entityId cfg = id) ->
  ModelCache.orderOk (modelCache st) ->
  exists st' tr,
    Eff.forEach (fun ic => lowerVisible env (fst ic)) l st = Some (tt, st', tr) /\
    ModelCache.orderOk (modelCache st') /\
    lowered st st' /\
    (forall id, id ∉ map fst l -> activeModels st' !! id = activeModels st !! id).
Proof.
  induction l as [| ic l IH]; intros st Hk Hok; simpl.
  - exists st, []. split; [reflexivity |]. split; [exact Hok |].
    split; [apply lowered_refl | reflexivity].
  - destruct (lowerVisible_step env (fst ic) st Hk Hok)
      as (st1 & tr1 & Hrun1 & Hok1 & Hl1 & Hfr1).
    destruct (IH st1 (lowered_keyed _ _ Hl1 Hk) Hok1) as (st2 & tr2 & Hrun2 & Hok2 & Hl2 & Hfr2).
    unfold Eff.bind. rewrite Hrun1, Hrun2. eexists _, _. split; [reflexivity |].
    split; [exact Hok2 |]. split; [eapply lowered_trans; eassumption |].
    intros id' Hout. apply not_elem_of_cons in Hout as [Hne Hout].
    rewrite (Hfr2 id' Hout). apply Hfr1, Hne.
Qed.

Lemma unloadModel_run id cfg st :
  activeModels st !! id = Some cfg ->
  exists st',
    unloadModel id st = Some (tt, st', []) /\
    modelCache st' = modelCache st /\
    activeModels st' = <[id := unloaded cfg]> (activeModels st).
Proof.
  intros Hcfg. unfold unloadModel, Eff.withState. rewrite Hcfg.
  destruct (element cfg); unfold Eff.bind; simpl; eexists; repeat split.
Qed.

Lemma unloadIdle_loop (later : Z) (ids : list string) : forall st,
  NoDup ids ->
  exists st' tr,
    Eff.forEach (unloadIdle later) ids st = Some (tt, st', tr) /\
    modelCache st' = modelCache st /\
    forall id,
      activeModels st' !! id
      = (fun cfg => if bool_decide (id ∈ ids) && negb (isVisible cfg)
                       && (30000 <? later - lastUpdate cfg)
                    then unloaded cfg else cfg) <$> activeModels st !! id.
Proof.
  induction ids as [| id0 ids IH]; intros st Hnd; simpl.
  - exists st, []. split; [reflexivity |]. split; [reflexivity |].
    intros id. destruct (activeModels st !! id); reflexivity.
  - apply NoDup_cons in Hnd as [Hnotin Hnd].
    assert (Hstep : exists st1 tr1,
              unloadIdle later id0 st = Some (tt, st1, tr1) /\
              modelCache st1 = modelCache st /\
              activeModels st1 !! id0
              = (fun cfg => if negb (isVisible cfg) && (30000 <? later - lastUpdate cfg)
                            then unloaded cfg else cfg) <$> activeModels st !! id0 /\
              forall id, id <> id0 -> activeModels st1 !! id = activeModels st !! id).
    { unfold unloadIdle, Eff.withState.
      destruct (activeModels st !! id0) as [cfg |] eqn:Hcfg.
      - destruct (negb (isVisible cfg) && (30000 <? later - lastUpdate cfg)) eqn:Hc.
        + destruct (unloadModel_run id0 cfg st Hcfg) as (st1 & Hrun & Hc1 & Ha1).
          exists st1, []. split; [exact Hrun |]. split; [exact Hc1 |].
          rewrite Ha1, lookup_insert_eq. split; [simpl; rewrite Hc; reflexivity |].
          intros id Hne. now rewrite lookup_insert_ne by congruence.
        + exists st, []. split; [reflexivity |]. split; [reflexivity |].
          split; [rewrite Hcfg; simpl; rewrite Hc; reflexivity | reflexivity].
      - exists st, []. split; [reflexivity |]. split; [reflexivity |].
        split; [rewrite Hcfg; reflexivity | reflexivity]. }
    destruct Hstep as (st1 & tr1 & Hrun1 & Hc1 & Hat & Hfr).
    destruct (IH st1 Hnd) as (st2 & tr2 & Hrun2 & Hc2 & Hall).
    unfold Eff.bind. rewrite Hrun1, Hrun2. eexists _, _. split; [reflexivity |].
    split; [congruence |].
    intros id. rewrite Hall. destruct (decide (id = id0)) as [-> | Hne].
    + rewrite Hat. rewrite (bool_decide_eq_false_2 _ Hnotin).
      rewrite bool_decide_eq_true_2 by left.
      destruct (activeModels st !! id0) as [cfg |]; simpl; reflexivity.
    + rewrite (Hfr id Hne).
      assert (Hb : bool_decide (id ∈ id0 :: ids) = bool_decide (id ∈ ids)).
      { apply bool_decide_ext. rewrite elem_of_cons. tauto. }
      rewrite Hb. reflexivity.
Qed.

(** [applyPerformanceOptimizations], run without interruption over models
    that are registered under their own ids, always completes, and says
    what becomes of every model.  A model that is not visible is unloaded
    when its last update is more than 30 seconds old, and is untouched
    otherwise; a visible model is either untouched or, when it was loaded,
    loaded at a lower level than before.  No model is added or removed. *)
Theorem applyPerformanceOptimizations_outcome (env : Env) (ids : list string) (later : Z)
    (st : State) :
  NoDup ids ->
  ModelCache.orderOk (modelCache st) ->
  (forall id cfg, activeModels st !! id = Some cfg -> entityId cfg = id) ->
  exists st' tr,
    applyPerformanceOptimizations env ids later st = Some (tt, st', tr) /\
    forall id,
      match activeModels st !! id with
      | None => activeModels st' !! id = None
      | Some cfg =>
          if isVisible cfg then
            activeModels st' !! id = Some cfg \/
            exists q, id ∈ ids /\ isLoaded cfg = true /\
                      (qualityLevel (Some q) < qualityLevel (currentQuality cfg))%nat /\
                      activeModels st' !! id = Some (loaded q cfg)
          else
            activeModels st' !! id
            = Some (if bool_decide (id ∈ ids) && (30000 <? later - lastUpdate cfg)
                    then unloaded cfg else cfg)
      end.
Proof.
  intros Hnd Hok Hk. unfold applyPerformanceOptimizations, Eff.withState.
  set (sel := filter (fun ic => isVisible (snd ic) && isLoaded (snd ic)) (entriesOf ids st)).
  destruct (lowerVisible_loop env sel st Hk Hok) as (st1 & tr1 & Hrun1 & _ & Hl1 & Hfr1).
  destruct (unloadIdle_loop later ids st1 Hnd) as (st2 & tr2 & Hrun2 & _ & Hall).
  unfold Eff.bind. rewrite Hrun1, Hrun2. eexists _, _. split; [reflexivity |].
  intros id. rewrite Hall. specialize (Hl1 id).
  assert (Hsel : id ∈ map fst sel ->
            id ∈ ids /\ exists cfg, activeModels st !! id = Some cfg /\
                         isVisible cfg = true /\ isLoaded cfg = true).
  { intros Hin. apply list_elem_of_fmap in Hin as ([id' cfg] & -> & Hin).
    apply list_elem_of_filter in Hin as [Hc Hin].
    apply list_elem_of_omap in Hin as (k & Hkin & Hsome). simpl in *.
    destruct (activeModels st !! k) as [c |] eqn:Hck; [| discriminate].
    simpl in Hsome. injection Hsome as <- <-.
    split; [exact Hkin |]. exists c. split; [exact Hck |].
    apply andb_prop_elim in Hc as [H1 H2].
    split; apply Is_true_eq_true; assumption. }
  destruct (activeModels st !! id) as [cfg |] eqn:Hcfg.
  - destruct (isVisible cfg) eqn:Hvis.
    + destruct Hl1 as [Hl1 | (q & Hq & Hl1)]; rewrite Hl1; simpl.
      * rewrite Hvis. rewrite andb_false_r. simpl. now left.
      * rewrite Hvis. rewrite andb_false_r. simpl. right. exists q.
        destruct (decide (id ∈ map fst sel)) as [Hin | Hout].
        -- destruct (Hsel Hin) as (Hids & c & Hc & _ & Hld).
           assert (c = cfg) by congruence. subst c. auto.
        -- rewrite (Hfr1 id Hout), Hcfg in Hl1. injection Hl1 as Heq.
           apply (f_equal currentQuality) in Heq. simpl in Heq.
           rewrite Heq in Hq. simpl in Hq. lia.
    + assert (Hsame : activeModels st1 !! id = Some cfg).
      { rewrite Hfr1; [exact Hcfg |]. intros Hin.
        destruct (Hsel Hin) as (_ & c & Hc & Hv & _). congruence. }
      rewrite Hsame. simpl. rewrite Hvis. rewrite andb_true_r. reflexivity.
  - rewrite Hl1. reflexivity.
Qed.

End ManagerOptimizing.

Lemma applyPerformanceOptimizations_outcome_witness :
  exists st' tr,
    LODManager.applyPerformanceOptimizations Examples.onlyLow ["hero"] 40000
      Examples.heroAtMedium = Some (tt, st', tr) /\
    LODManager.activeModels st' !! "hero"
    = Some (LODManager.unloaded (LODManager.loaded LODManager.Medium Examples.heroConfig)).
Proof.
  destruct (applyPerformanceOptimizations_outcome Examples.onlyLow ["hero"] 40000
              Examples.heroAtMedium) as (st' & tr & Hrun & Hall).
  - repeat constructor. intros H. inversion H.
  - split; simpl; [constructor |]. intros k Hk. inversion Hk.
  - change (map_Forall (fun id cfg => LODManager.entityId cfg = id)
              (LODManager.activeModels Examples.heroAtMedium)).
    apply (bool_decide_unpack _). vm_compute. exact I.
  - exists st', tr. split; [exact Hrun |]. exact (Hall "hero").
Defined.
